(** * Slack huddle detector: the optimized detector, embedded and verified

    Source: [slack-huddle-detector-optimized.py], class
    [OptimizedSlackHuddleDetector].

    The embedding follows the Python text method by method.  Python [int]
    is [Z]; Python [float] is an IEEE-754 binary64 value, computed with the
    executable specification [SpecFloat] (round to nearest, ties to even);
    a dict with string keys is a [gmap string _]; the deque of scores is a
    list, oldest score first; the text a command prints is a list of
    Unicode code points.  Methods that mutate [self], print, sleep or
    touch the file system run in a state-and-exception monad over a record
    holding the object's fields, the two local counters of [run] and the
    outside world. *)

From Stdlib Require Import ZArith NArith Lia Bool List Ascii String.
From Stdlib Require Import Floats.SpecFloat.
From stdpp Require Import base tactics option list gmap strings pretty.

Open Scope Z_scope.

(** ** Exceptions and results *)

Inductive exn :=
| KeyError (key : string)
| OverflowError
| ValueError
| ZeroDivisionError
| OSError
| TimeoutExpired
| KeyboardInterrupt.

(** [except Exception] catches every class above but [KeyboardInterrupt],
    which derives from [BaseException] only. *)
Definition is_Exception (e : exn) : bool :=
  match e with
  | KeyboardInterrupt => false
  | _ => true
  end.

Inductive result (A : Type) :=
| Ok (a : A)
| Raise (e : exn).
Arguments Ok {A} a.
Arguments Raise {A} e.

Definition rbind {A B} (r : result A) (k : A -> result B) : result B :=
  match r with
  | Ok a => k a
  | Raise e => Raise e
  end.

Notation "x <~ r ; k" := (rbind r (fun x => k))
  (at level 20, r at level 100, k at level 200, only parsing).

(** ** Python numbers

    Arithmetic on ints is exact.  A float operation rounds to the nearest
    double and yields an infinity on overflow, silently; turning an int
    into a float, which happens when an int meets a float in [+] or [*]
    and in [int / int], raises [OverflowError] instead. *)

Module Py.

Definition prec : Z := 53.
Definition emax : Z := 1024.

Inductive num :=
| Int (z : Z)
| Float (f : spec_float).

(** An integer as an (unnormalised) float operand with exponent 0. *)
Definition raw (z : Z) : spec_float :=
  match z with
  | Z0 => S754_zero false
  | Zpos p => S754_finite false p 0
  | Zneg p => S754_finite true p 0
  end.

(** [float(z)]: correctly rounded; [OverflowError] when the rounded value
    is not finite. *)
Definition int_to_float (z : Z) : result spec_float :=
  match binary_normalize prec emax z 0 false with
  | S754_infinity _ => Raise OverflowError
  | f => Ok f
  end.

(** [a / b] on two ints: the correctly rounded quotient. *)
Definition int_truediv (a b : Z) : result spec_float :=
  if b =? 0 then Raise ZeroDivisionError
  else match SFdiv prec emax (raw a) (raw b) with
       | S754_infinity _ => Raise OverflowError
       | f => Ok f
       end.

Definition to_float (x : num) : result spec_float :=
  match x with
  | Int z => int_to_float z
  | Float f => Ok f
  end.

Definition add (x y : num) : result num :=
  match x, y with
  | Int a, Int b => Ok (Int (a + b))
  | _, _ =>
      fx <~ to_float x ;
      fy <~ to_float y ;
      Ok (Float (SFadd prec emax fx fy))
  end.

Definition mul (x y : num) : result num :=
  match x, y with
  | Int a, Int b => Ok (Int (a * b))
  | _, _ =>
      fx <~ to_float x ;
      fy <~ to_float y ;
      Ok (Float (SFmul prec emax fx fy))
  end.

(** Comparison of an int with a float is exact in Python: the int is not
    rounded first. *)
Definition compare_int_float (z : Z) (f : spec_float) : option comparison :=
  match f with
  | S754_nan => None
  | S754_infinity s => Some (if s then Gt else Lt)
  | S754_zero _ => Some (z ?= 0)
  | S754_finite s m e =>
      let v := cond_Zopp s (Zpos m) in
      Some (if 0 <=? e then z ?= v * 2 ^ e else z * 2 ^ (- e) ?= v)
  end.

Definition compare (x y : num) : option comparison :=
  match x, y with
  | Int a, Int b => Some (a ?= b)
  | Int a, Float g => compare_int_float a g
  | Float f, Int b => option_map CompOpp (compare_int_float b f)
  | Float f, Float g => SFcompare f g
  end.

Definition lt (x y : num) : bool :=
  match compare x y with Some Lt => true | _ => false end.
Definition le (x y : num) : bool :=
  match compare x y with Some (Lt | Eq) => true | _ => false end.
Definition gt (x y : num) : bool :=
  match compare x y with Some Gt => true | _ => false end.
Definition ge (x y : num) : bool :=
  match compare x y with Some (Gt | Eq) => true | _ => false end.

(** [max(a, b)]: the first argument is kept unless the second is
    strictly greater. *)
Definition max (a b : num) : num := if gt b a then b else a.

(** [format(x, '.0f')], as in [f"{x:.0f}"]: an int is turned into a float
    first, which raises [OverflowError] when it is too large.  Only
    whether the formatting succeeds is kept. *)
Definition format_f (x : num) : result unit :=
  _ <~ to_float x ;
  Ok tt.

(** [sum(l)] on a list of ints. *)
Definition sum (l : list Z) : Z := fold_left Z.add l 0.

(** The literal [0.7], i.e. the double nearest to 7/10. *)
Definition c0_7 : spec_float := S754_finite false 6305039478318694 (-53).

End Py.

(** Finite values: zeros and finite non-zero floats. *)
Definition is_finite (f : spec_float) : bool :=
  match f with
  | S754_zero _ | S754_finite _ _ _ => true
  | _ => false
  end.

(** ** Strings, slices and the bounded deque

    What a command prints reaches the detector as a Python [str]: a
    sequence of Unicode code points.  The detector depends on three
    classes of characters: white space ([strip]), digits ([isdigit]) and
    decimal digits ([int]).  They are given here as in Unicode 14.0, the
    tables of CPython 3.11; [int] also has that version's limit of 4300
    digits. *)

Module PyStr.

Definition text := list N.

(** A literal of the source, as code points. *)
Fixpoint of_string (s : string) : text :=
  match s with
  | String c s' => N_of_ascii c :: of_string s'
  | EmptyString => []
  end.

Definition in_range (c : N) (r : N * N) : bool :=
  ((fst r <=? c) && (c <=? snd r))%N.

(** The characters [str.isspace] accepts. *)
Definition space_ranges : list (N * N) :=
  [(0x9, 0xd); (0x1c, 0x20); (0x85, 0x85); (0xa0, 0xa0); (0x1680, 0x1680);
   (0x2000, 0x200a); (0x2028, 0x2029); (0x202f, 0x202f); (0x205f, 0x205f);
   (0x3000, 0x3000)]%N.

Definition is_space (c : N) : bool := existsb (in_range c) space_ranges.

(** The digit zero of every script with decimal digits; the digits one
    to nine follow it. *)
Definition decimal_zeros : list N :=
  [0x30; 0x660; 0x6f0; 0x7c0; 0x966; 0x9e6; 0xa66; 0xae6; 0xb66; 0xbe6;
   0xc66; 0xce6; 0xd66; 0xde6; 0xe50; 0xed0; 0xf20; 0x1040; 0x1090; 0x17e0;
   0x1810; 0x1946; 0x19d0; 0x1a80; 0x1a90; 0x1b50; 0x1bb0; 0x1c40; 0x1c50;
   0xa620; 0xa8d0; 0xa900; 0xa9d0; 0xa9f0; 0xaa50; 0xabf0; 0xff10; 0x104a0;
   0x10d30; 0x11066; 0x110f0; 0x11136; 0x111d0; 0x112f0; 0x11450; 0x114d0;
   0x11650; 0x116c0; 0x11730; 0x118e0; 0x11950; 0x11c50; 0x11d50; 0x11da0;
   0x16a60; 0x16ac0; 0x16b50; 0x1d7ce; 0x1d7d8; 0x1d7e2; 0x1d7ec; 0x1d7f6;
   0x1e140; 0x1e2f0; 0x1e950; 0x1fbf0]%N.

(** The value of a decimal digit ([unicodedata.decimal]). *)
Definition decimal_value (c : N) : option Z :=
  match find (fun z => in_range c (z, z + 9)%N) decimal_zeros with
  | Some z => Some (Z.of_N (c - z))
  | None => None
  end.

(** The digits that are not decimal: superscripts, subscripts, circled
    and parenthesised digits and the like. *)
Definition other_digit_ranges : list (N * N) :=
  [(0xb2, 0xb3); (0xb9, 0xb9); (0x1369, 0x1371); (0x19da, 0x19da);
   (0x2070, 0x2070); (0x2074, 0x2079); (0x2080, 0x2089); (0x2460, 0x2468);
   (0x2474, 0x247c); (0x2488, 0x2490); (0x24ea, 0x24ea); (0x24f5, 0x24fd);
   (0x24ff, 0x24ff); (0x2776, 0x277e); (0x2780, 0x2788); (0x278a, 0x2792);
   (0x10a40, 0x10a43); (0x10e60, 0x10e68); (0x11052, 0x1105a);
   (0x1f100, 0x1f10a)]%N.

(** The characters [str.isdigit] accepts. *)
Definition is_digit_char (c : N) : bool :=
  match decimal_value c with
  | Some _ => true
  | None => existsb (in_range c) other_digit_ranges
  end.

Fixpoint lstrip_with (sp : N -> bool) (s : text) : text :=
  match s with
  | c :: s' => if sp c then lstrip_with sp s' else s
  | [] => []
  end.

Fixpoint rstrip_with (sp : N -> bool) (s : text) : text :=
  match s with
  | c :: s' =>
      match rstrip_with sp s' with
      | [] => if sp c then [] else [c]
      | r => c :: r
      end
  | [] => []
  end.

(** [s.strip()] *)
Definition strip (s : text) : text := rstrip_with is_space (lstrip_with is_space s).

(** [s.isdigit()]: at least one character, all of them digits. *)
Definition isdigit (s : text) : bool :=
  match s with
  | [] => false
  | _ => forallb is_digit_char s
  end.

(** [sys.get_int_max_str_digits()] *)
Definition int_max_str_digits : nat := 4300.

(** The white space [int] skips around a number: that of [isspace]
    without the four separators U+001C to U+001F. *)
Definition int_space (c : N) : bool := is_space c && negb (in_range c (0x1c, 0x1f)%N).

(** The digits of a literal, decimal digits of any script with single
    underscores between them: the number read and how many digits it
    has. *)
Fixpoint int_digits (acc : Z) (n : nat) (after_digit : bool) (s : text)
    : option (Z * nat) :=
  match s with
  | [] => if after_digit then Some (acc, n) else None
  | c :: s' =>
      match decimal_value c with
      | Some d => int_digits (10 * acc + d) (S n) true s'
      | None =>
          if (c =? 0x5f)%N && after_digit then int_digits acc n false s'
          else None
      end
  end.

(** [int(s)] on a string: white space around, a sign, digits.
    [ValueError] for anything else and for more digits than the limit. *)
Definition int (s : text) : result Z :=
  let s := rstrip_with int_space (lstrip_with int_space s) in
  let '(negative, digits) :=
    match s with
    | c :: s' =>
        if (c =? 0x2d)%N then (true, s')
        else if (c =? 0x2b)%N then (false, s')
        else (false, s)
    | [] => (false, [])
    end in
  match int_digits 0 0 false digits with
  | Some (v, n) =>
      if (int_max_str_digits <? n)%nat then Raise ValueError
      else Ok (if negative then - v else v)
  | None => Raise ValueError
  end.

End PyStr.

Module PyList.

Definition slice_index (len i : Z) : Z :=
  if i <? 0 then Z.max (len + i) 0 else Z.min i len.

(** [l[start:stop]] with Python's treatment of negative and
    out-of-range bounds. *)
Definition slice {A} (l : list A) (start stop : option Z) : list A :=
  let len := Z.of_nat (length l) in
  let lo := match start with Some i => slice_index len i | None => 0 end in
  let hi := match stop with Some j => slice_index len j | None => len end in
  take (Z.to_nat (hi - lo)) (drop (Z.to_nat lo) l).

(** [deque(maxlen=10)]. *)
Definition maxlen : nat := 10.

(** [d.append(x)]: when the deque is full the oldest entry goes. *)
Definition deque_append (d : list Z) (x : Z) : list Z :=
  let d' := d ++ [x] in
  if (maxlen <? length d')%nat then drop 1 d' else d'.

End PyList.

(** ** The outside world *)

Inductive cmd_outcome :=
| Completed (stdout : PyStr.text)
| Failed (e : exn).

(** What the program sees of its surroundings during one sampling
    interval: the outcome of each shell command (by command line and
    timeout), the exit status of the commands run without capture, the
    wall-clock time as [%H:%M:%S], whether opening the status file for
    writing, dumping the object into it (closing it included) and
    changing its mode work, and whether the sleep that ends the interval
    is interrupted from the keyboard. *)
Record env := {
  shell : string -> Z -> cmd_outcome;
  returncode : string -> Z;
  now : string;
  file_open : result unit;
  file_write : result unit;
  file_chmod : result unit;
  sleep_interrupted : bool
}.

Inductive trend_arrow := ArrowUp | ArrowDown | ArrowFlat.

(** The JSON object written for the menubar app. *)
Record status_data := {
  inHuddle : bool;
  score : Z;
  baseline : Py.num;
  peakScore : Z;
  trend : trend_arrow;
  timestamp : string;
  slackAssertions : Z;
  audioUnits : Z;
  audioFds : Z;
  powerAssertions : Z
}.

(** What is in a file: the object dumped into it, or what is left of a
    file that was opened for writing (and so emptied) when the dump did
    not go through. *)
Inductive file_content :=
| Truncated
| Dumped (s : status_data).

(** What [print] wrote, carrying the values the calls format.  Of the
    lines of a start announcement [PrintStartedHeader] is the first and
    [PrintStarted] the rest (the score line and the reasons); the two
    lines of an end announcement are one [PrintEnded]. *)
Inductive output :=
| PrintBanner
| PrintSudoRequest
| PrintCalibrating
| PrintCalibrationStep (i : Z) (score : Z)
| PrintBaseline (b : Py.num)
| PrintMonitoring (start_threshold : Py.num)
| PrintStartedHeader (time : string)
| PrintStarted (time : string) (score : Z) (baseline : Py.num) (reasons : list string)
| PrintEnded (time : string) (score : Z) (peak : Z)
| PrintNewBaseline (b : Py.num)
| PrintStatus (in_huddle : bool) (score : Z) (arrow : trend_arrow)
    (metrics : list string) (extra : Py.num) (time : string)
| PrintError (e : exn)
| PrintStopped.

(** ** The detector object, the locals of [run] and the world *)

#[projections(primitive)] Record machine := {
  (* fields of self *)
  baseline_score : Py.num;
  in_huddle : bool;
  score_history : list Z;
  huddle_peak_score : Z;
  status_file_path : string;
  (* local variables of run *)
  consecutive_starts : Z;
  consecutive_ends : Z;
  (* the world: environment per sampling interval, the interval we are
     in, what was printed (latest first) and the files written *)
  envs : nat -> env;
  clock : nat;
  stdout : list output;
  files : gmap string file_content
}.

Definition set_baseline_score (v : Py.num) (m : machine) : machine :=
  {| baseline_score := v; in_huddle := in_huddle m;
     score_history := score_history m; huddle_peak_score := huddle_peak_score m;
     status_file_path := status_file_path m;
     consecutive_starts := consecutive_starts m; consecutive_ends := consecutive_ends m;
     envs := envs m; clock := clock m; stdout := stdout m; files := files m |}.

Definition set_in_huddle (v : bool) (m : machine) : machine :=
  {| baseline_score := baseline_score m; in_huddle := v;
     score_history := score_history m; huddle_peak_score := huddle_peak_score m;
     status_file_path := status_file_path m;
     consecutive_starts := consecutive_starts m; consecutive_ends := consecutive_ends m;
     envs := envs m; clock := clock m; stdout := stdout m; files := files m |}.

Definition set_score_history (v : list Z) (m : machine) : machine :=
  {| baseline_score := baseline_score m; in_huddle := in_huddle m;
     score_history := v; huddle_peak_score := huddle_peak_score m;
     status_file_path := status_file_path m;
     consecutive_starts := consecutive_starts m; consecutive_ends := consecutive_ends m;
     envs := envs m; clock := clock m; stdout := stdout m; files := files m |}.

Definition set_huddle_peak_score (v : Z) (m : machine) : machine :=
  {| baseline_score := baseline_score m; in_huddle := in_huddle m;
     score_history := score_history m; huddle_peak_score := v;
     status_file_path := status_file_path m;
     consecutive_starts := consecutive_starts m; consecutive_ends := consecutive_ends m;
     envs := envs m; clock := clock m; stdout := stdout m; files := files m |}.

Definition set_consecutive_starts (v : Z) (m : machine) : machine :=
  {| baseline_score := baseline_score m; in_huddle := in_huddle m;
     score_history := score_history m; huddle_peak_score := huddle_peak_score m;
     status_file_path := status_file_path m;
     consecutive_starts := v; consecutive_ends := consecutive_ends m;
     envs := envs m; clock := clock m; stdout := stdout m; files := files m |}.

Definition set_consecutive_ends (v : Z) (m : machine) : machine :=
  {| baseline_score := baseline_score m; in_huddle := in_huddle m;
     score_history := score_history m; huddle_peak_score := huddle_peak_score m;
     status_file_path := status_file_path m;
     consecutive_starts := consecutive_starts m; consecutive_ends := v;
     envs := envs m; clock := clock m; stdout := stdout m; files := files m |}.

Definition set_clock (v : nat) (m : machine) : machine :=
  {| baseline_score := baseline_score m; in_huddle := in_huddle m;
     score_history := score_history m; huddle_peak_score := huddle_peak_score m;
     status_file_path := status_file_path m;
     consecutive_starts := consecutive_starts m; consecutive_ends := consecutive_ends m;
     envs := envs m; clock := v; stdout := stdout m; files := files m |}.

Definition set_stdout (v : list output) (m : machine) : machine :=
  {| baseline_score := baseline_score m; in_huddle := in_huddle m;
     score_history := score_history m; huddle_peak_score := huddle_peak_score m;
     status_file_path := status_file_path m;
     consecutive_starts := consecutive_starts m; consecutive_ends := consecutive_ends m;
     envs := envs m; clock := clock m; stdout := v; files := files m |}.

Definition set_files (v : gmap string file_content) (m : machine) : machine :=
  {| baseline_score := baseline_score m; in_huddle := in_huddle m;
     score_history := score_history m; huddle_peak_score := huddle_peak_score m;
     status_file_path := status_file_path m;
     consecutive_starts := consecutive_starts m; consecutive_ends := consecutive_ends m;
     envs := envs m; clock := clock m; stdout := stdout m; files := v |}.

(** ** The monad: state that survives an exception *)

Definition M (A : Type) : Type := machine -> machine * result A.

Definition ret {A} (a : A) : M A := fun m => (m, Ok a).

Definition bind {A B} (c : M A) (k : A -> M B) : M B :=
  fun m =>
    match c m with
    | (m', Ok a) => k a m'
    | (m', Raise e) => (m', Raise e)
    end.

Notation "x <- c ; k" := (bind c (fun x => k))
  (at level 20, c at level 100, k at level 200, only parsing).

Definition raise {A} (e : exn) : M A := fun m => (m, Raise e).

Definition lift {A} (r : result A) : M A := fun m => (m, r).

Definition gets {A} (f : machine -> A) : M A := fun m => (m, Ok (f m)).

Definition modify (f : machine -> machine) : M unit := fun m => (f m, Ok tt).

(** [try: body except <classes caught>: handler]; the handler sees the
    state as the body left it. *)
Definition try_except {A} (body : M A) (caught : exn -> bool)
    (handler : exn -> M A) : M A :=
  fun m =>
    match body m with
    | (m', Raise e) => if caught e then handler e m' else (m', Raise e)
    | r => r
    end.

Definition print (o : output) : M unit :=
  modify (fun m => set_stdout (o :: stdout m) m).

Definition current_env : M env := gets (fun m => envs m (clock m)).

(** [time.sleep]: the next sampling interval begins, unless the sleep is
    interrupted from the keyboard. *)
Definition sleep (seconds : Z) : M unit :=
  e <- current_env ;
  if sleep_interrupted e then raise KeyboardInterrupt
  else modify (fun m => set_clock (S (clock m)) m).

(** ** The methods of [OptimizedSlackHuddleDetector] *)

Open Scope string_scope.
Open Scope Z_scope.

(** [subprocess.run(cmd, shell=True, capture_output=True, text=True,
    timeout=timeout).stdout] *)
Definition subprocess_run (cmd : string) (timeout : Z) : M PyStr.text :=
  e <- current_env ;
  match shell e cmd timeout with
  | Completed out => ret out
  | Failed x => raise x
  end.

(** The bare [except:] catches every exception. *)
Definition run_command_safe (cmd : string) (timeout : Z) : M PyStr.text :=
  try_except
    (out <- subprocess_run cmd timeout ; ret (PyStr.strip out))
    (fun _ => true)
    (fun _ => ret []).

(** [int(output) if output.isdigit() else 0] *)
Definition count_of (output : PyStr.text) : result Z :=
  if PyStr.isdigit output then PyStr.int output else Ok 0.

Definition get_audio_state : M (gmap string Z) :=
  let state : gmap string Z :=
    <["coreaudio_connections" := 0]>
      (<["ioregistry_clients" := 0]>
        (<["slack_assertions" := 0]>
          (<["power_assertions" := 0]>
            (<["hal_plugins" := 0]>
              (<["audio_units" := 0]>
                (<["audio_fds" := 0]> ∅)))))) in
  output <- run_command_safe "sudo lsof -n -P -c Slack 2>/dev/null | grep -c -i audio" 1 ;
  v <- lift (count_of output) ;
  let state := <["audio_fds" := v]> state in
  output <- run_command_safe "sudo lsof -n -P -c Slack 2>/dev/null | grep -c AudioToolbox" 1 ;
  v <- lift (count_of output) ;
  let state := <["audio_units" := v]> state in
  output <- run_command_safe "sudo lsof -n -P -c Slack 2>/dev/null | grep -c HAL" 1 ;
  v <- lift (count_of output) ;
  let state := <["hal_plugins" := v]> state in
  output <- run_command_safe "pmset -g assertions 2>/dev/null | grep -c -i audio" 1 ;
  v <- lift (count_of output) ;
  let state := <["power_assertions" := v]> state in
  output <- run_command_safe "pmset -g assertions 2>/dev/null | grep -c Slack" 1 ;
  v <- lift (count_of output) ;
  let state := <["slack_assertions" := v]> state in
  output <- run_command_safe "ioreg -r -c IOAudioEngine 2>/dev/null | grep -c IOAudioEngine" 2 ;
  v <- lift (count_of output) ;
  let state := <["ioregistry_clients" := v]> state in
  output <- run_command_safe "sudo lsof -n -P -c Slack 2>/dev/null | grep -c coreaudio" 1 ;
  v <- lift (count_of output) ;
  let state := <["coreaudio_connections" := v]> state in
  ret state.

(** [state[key]] *)
Definition getitem (state : gmap string Z) (key : string) : result Z :=
  match state !! key with
  | Some v => Ok v
  | None => Raise (KeyError key)
  end.

(** One [if state[key] ...: score += ...; reasons.append(...)] block:
    [test] is the condition on the value, [points] what is added and
    [label] the text before the value in the reason. *)
Definition score_rule (state : gmap string Z) (key : string)
    (test : Z -> bool) (points : Z -> Z) (label : string)
    (acc : Z * list string) : result (Z * list string) :=
  v <~ getitem state key ;
  Ok (if test v
      then (fst acc + points v, (snd acc ++ [label +:+ pretty v])%list)
      else acc).

Definition calculate_score (state : gmap string Z) : result (Z * list string) :=
  let acc := (0, []) in
  (* Strong indicators *)
  acc <~ score_rule state "power_assertions" (fun v => 0 <? v)
           (fun _ => 25) "Audio power: " acc ;
  acc <~ score_rule state "slack_assertions" (fun v => 0 <? v)
           (fun v => 20 * Z.min v 3) "Slack assertions: " acc ;
  (* Medium indicators *)
  acc <~ score_rule state "audio_units" (fun v => 0 <? v)
           (fun v => 15 * Z.min v 2) "Audio units: " acc ;
  acc <~ score_rule state "hal_plugins" (fun v => 0 <? v)
           (fun _ => 10) "HAL plugins: " acc ;
  (* Weak indicators *)
  acc <~ score_rule state "audio_fds" (fun v => 3 <? v)
           (fun _ => 5) "Audio FDs: " acc ;
  acc <~ score_rule state "ioregistry_clients" (fun v => 0 <? v)
           (fun _ => 10) "IO clients: " acc ;
  acc <~ score_rule state "coreaudio_connections" (fun v => 0 <? v)
           (fun _ => 10) "CoreAudio: " acc ;
  Ok acc.

(** The block "Calculate trend" of [detect_huddle_change], on the history
    that already holds the current score. *)
Definition compute_trend (history : list Z) : result Py.num :=
  if (3 <=? length history)%nat then
    recent_avg <~ Py.int_truediv (Py.sum (PyList.slice history (Some (-3)) None)) 3 ;
    older_avg <~ (if (6 <=? length history)%nat
                  then Py.int_truediv
                         (Py.sum (PyList.slice history (Some (-6)) (Some (-3)))) 3
                  else Ok recent_avg) ;
    Ok (Py.Float (SFsub Py.prec Py.emax recent_avg older_avg))
  else Ok (Py.Int 0).

Definition detect_huddle_change (current_score : Z) : M (bool * bool * Py.num) :=
  (* Add to history *)
  _ <- modify (fun m =>
         set_score_history (PyList.deque_append (score_history m) current_score) m) ;
  (* Calculate trend *)
  history <- gets score_history ;
  trend <- lift (compute_trend history) ;
  (* Dynamic thresholds based on baseline *)
  baseline <- gets baseline_score ;
  raised <- lift (Py.add baseline (Py.Int 25)) ;
  let start_threshold := Py.max (Py.Int 50) raised in
  (* End detection *)
  active <- gets in_huddle ;
  should_end <-
    (if active then
       peak <- gets huddle_peak_score ;
       ratio <- lift (Py.mul (Py.Int peak) (Py.Float Py.c0_7)) ;
       let end_by_ratio := Py.lt (Py.Int current_score) ratio in
       near <- lift (Py.add baseline (Py.Int 10)) ;
       let end_by_baseline := Py.le (Py.Int current_score) near in
       let end_by_trend :=
         Py.lt trend (Py.Int (-10)) && Py.lt (Py.Int current_score) (Py.Int 50) in
       ret (end_by_ratio || end_by_baseline || end_by_trend)
     else ret false) ;
  (* Start detection *)
  let should_start :=
    negb active && Py.ge (Py.Int current_score) start_threshold
    && Py.ge trend (Py.Int 0) in
  ret (should_start, should_end, trend).

Definition arrow_of (trend : Py.num) : trend_arrow :=
  if Py.gt trend (Py.Int 5) then ArrowUp
  else if Py.lt trend (Py.Int (-5)) then ArrowDown
  else ArrowFlat.

Definition write_status_file (current_score : Z) (state : gmap string Z)
    (trend : Py.num) : M unit :=
  try_except
    (let trend_str := arrow_of trend in
     active <- gets in_huddle ;
     base <- gets baseline_score ;
     peak <- gets huddle_peak_score ;
     e <- current_env ;
     sa <- lift (getitem state "slack_assertions") ;
     au <- lift (getitem state "audio_units") ;
     fd <- lift (getitem state "audio_fds") ;
     pa <- lift (getitem state "power_assertions") ;
     let status :=
       {| inHuddle := active; score := current_score; baseline := base;
          peakScore := if active then peak else 0;
          trend := trend_str; timestamp := now e;
          slackAssertions := sa; audioUnits := au; audioFds := fd;
          powerAssertions := pa |} in
     (* with open(self.status_file_path, 'w') as f: *)
     _ <- lift (file_open e) ;
     _ <- modify (fun m => set_files (<[status_file_path m := Truncated]> (files m)) m) ;
     (* json.dump(status_data, f, indent=2) *)
     _ <- lift (file_write e) ;
     _ <- modify (fun m => set_files (<[status_file_path m := Dumped status]> (files m)) m) ;
     (* os.chmod(self.status_file_path, 0o644) *)
     lift (file_chmod e))
    is_Exception
    (fun _ => ret tt).

(** [for x in l: acc = body(x, acc)] *)
Fixpoint for_each {A S} (l : list A) (body : A -> S -> M S) (acc : S) : M S :=
  match l with
  | [] => ret acc
  | x :: l' => acc' <- body x acc ; for_each l' body acc'
  end.

(** The body of [for i in range(3)] in [calibrate]. *)
Definition calibration_sample (i : Z) (scores : list Z) : M (list Z) :=
  state <- get_audio_state ;
  sr <- lift (calculate_score state) ;
  let scores := (scores ++ [fst sr])%list in
  _ <- print (PrintCalibrationStep (i + 1) (fst sr)) ;
  _ <- sleep 2 ;
  ret scores.

Definition calibrate : M unit :=
  _ <- print PrintCalibrating ;
  scores <- for_each [0; 1; 2]%Z calibration_sample [] ;
  mean <- lift (Py.int_truediv (Py.sum scores) (Z.of_nat (length scores))) ;
  _ <- modify (set_baseline_score (Py.Float mean)) ;
  print (PrintBaseline (Py.Float mean)).

(** Lines "Detect changes" to "Update peak score during huddle" of the
    loop body; the value is the trend. *)
Definition handle_transitions (score : Z) (reasons : list string) : M Py.num :=
  (* Detect changes *)
  d <- detect_huddle_change score ;
  let '(should_start, should_end, trend) := d in
  (* Handle state transitions with confirmation *)
  _ <- (if should_start then
          _ <- modify (fun m => set_consecutive_starts (consecutive_starts m + 1) m) ;
          _ <- modify (set_consecutive_ends 0) ;
          starts <- gets consecutive_starts ;
          if 2 <=? starts then
            e <- current_env ;
            _ <- print (PrintStartedHeader (now e)) ;
            base <- gets baseline_score ;
            (* f"   Score: {score} (baseline: {self.baseline_score:.0f})" *)
            _ <- lift (Py.format_f base) ;
            _ <- print (PrintStarted (now e) score base reasons) ;
            _ <- modify (set_in_huddle true) ;
            _ <- modify (set_huddle_peak_score score) ;
            modify (set_consecutive_starts 0)
          else ret tt
        else if should_end then
          _ <- modify (fun m => set_consecutive_ends (consecutive_ends m + 1) m) ;
          _ <- modify (set_consecutive_starts 0) ;
          ends <- gets consecutive_ends ;
          if 2 <=? ends then
            e <- current_env ;
            peak <- gets huddle_peak_score ;
            _ <- print (PrintEnded (now e) score peak) ;
            _ <- modify (set_in_huddle false) ;
            _ <- modify (set_huddle_peak_score 0) ;
            _ <- modify (set_consecutive_ends 0) ;
            (* Update baseline to current score *)
            _ <- modify (set_baseline_score (Py.Int score)) ;
            print (PrintNewBaseline (Py.Int score))
          else ret tt
        else
          _ <- modify (set_consecutive_starts 0) ;
          modify (set_consecutive_ends 0)) ;
  (* Update peak score during huddle *)
  active <- gets in_huddle ;
  peak <- gets huddle_peak_score ;
  _ <- (if active && (peak <? score)
        then modify (set_huddle_peak_score score)
        else ret tt) ;
  ret trend.

(** The rest of the loop body: status file, status line, sleep. *)
Definition report (state : gmap string Z) (score : Z) (trend : Py.num) : M unit :=
  _ <- write_status_file score state trend ;
  active <- gets in_huddle ;
  peak <- gets huddle_peak_score ;
  base <- gets baseline_score ;
  (* f" Peak:{self.huddle_peak_score}" or f" Base:{self.baseline_score:.0f}" *)
  _ <- (if active then ret tt else lift (Py.format_f base)) ;
  let extra := if active then Py.Int peak else base in
  let trend_str := arrow_of trend in
  sa <- lift (getitem state "slack_assertions") ;
  let metrics := if 0 <? sa then ["PWR:" +:+ pretty sa] else [] in
  au <- lift (getitem state "audio_units") ;
  let metrics := if 0 <? au then (metrics ++ ["AU:" +:+ pretty au])%list else metrics in
  fd <- lift (getitem state "audio_fds") ;
  let metrics := if 3 <? fd then (metrics ++ ["FD:" +:+ pretty fd])%list else metrics in
  e <- current_env ;
  _ <- print (PrintStatus active score trend_str metrics extra (now e)) ;
  sleep 3.

(** One pass through [while True]; the value tells whether the loop goes
    on ([False] after [break]). *)
Definition iteration : M bool :=
  try_except
    (try_except
       (state <- get_audio_state ;
        sr <- lift (calculate_score state) ;
        trend <- handle_transitions (fst sr) (snd sr) ;
        _ <- report state (fst sr) trend ;
        ret true)
       (fun e => match e with KeyboardInterrupt => true | _ => false end)
       (fun _ => ret false))
    is_Exception
    (fun e => _ <- print (PrintError e) ; _ <- sleep 3 ; ret true).

Fixpoint loop (fuel : nat) : M unit :=
  match fuel with
  | O => ret tt
  | S fuel' =>
      go_on <- iteration ;
      if go_on then loop fuel' else print PrintStopped
  end.

(** [run], with the endless loop cut after [fuel] passes.  (The second
    [sudo true], run when the first check fails, only prompts the user
    and is not modelled.) *)
Definition run (fuel : nat) : M unit :=
  _ <- print PrintBanner ;
  (* Check sudo *)
  e <- current_env ;
  _ <- (if returncode e "sudo -n true 2>/dev/null" =? 0 then ret tt
        else print PrintSudoRequest) ;
  (* Calibrate *)
  _ <- calibrate ;
  base <- gets baseline_score ;
  raised <- lift (Py.add base (Py.Int 25)) ;
  _ <- print (PrintMonitoring (Py.max (Py.Int 50) raised)) ;
  _ <- modify (set_consecutive_starts 0) ;
  _ <- modify (set_consecutive_ends 0) ;
  loop fuel.

(** [OptimizedSlackHuddleDetector()], in a world [w] as the user [username]. *)
Definition new_detector (username : string) (w : nat -> env) : machine :=
  {| baseline_score := Py.Int 0; in_huddle := false; score_history := [];
     huddle_peak_score := 0;
     status_file_path := "/tmp/huddle-status-" +:+ username +:+ ".json";
     consecutive_starts := 0; consecutive_ends := 0;
     envs := w; clock := O; stdout := []; files := ∅ |}.

(** ** Vocabulary of the statements *)

(** Integers far inside the range of a double: no conversion or
    division on them can overflow. *)
Definition small (z : Z) : Prop := Z.abs z < 2 ^ 1000.

(** The seven keys of an indicator snapshot. *)
Definition indicator_keys : list string :=
  ["audio_fds"; "audio_units"; "hal_plugins"; "power_assertions";
   "slack_assertions"; "ioregistry_clients"; "coreaudio_connections"].

(** The probes of [get_audio_state]: key, command line, timeout. *)
Definition probes : list (string * string * Z) :=
  [("audio_fds", "sudo lsof -n -P -c Slack 2>/dev/null | grep -c -i audio", 1);
   ("audio_units", "sudo lsof -n -P -c Slack 2>/dev/null | grep -c AudioToolbox", 1);
   ("hal_plugins", "sudo lsof -n -P -c Slack 2>/dev/null | grep -c HAL", 1);
   ("power_assertions", "pmset -g assertions 2>/dev/null | grep -c -i audio", 1);
   ("slack_assertions", "pmset -g assertions 2>/dev/null | grep -c Slack", 1);
   ("ioregistry_clients", "ioreg -r -c IOAudioEngine 2>/dev/null | grep -c IOAudioEngine", 2);
   ("coreaudio_connections", "sudo lsof -n -P -c Slack 2>/dev/null | grep -c coreaudio", 1)].

(** What a probe hands back in environment [e]: the stripped standard
    output, or the empty string when the command raised or timed out. *)
Definition probe_output (e : env) (cmd : string) (timeout : Z) : PyStr.text :=
  match shell e cmd timeout with
  | Completed out => PyStr.strip out
  | Failed _ => []
  end.

(** The count read from the probe output, 0 where [int] rejects it. *)
Definition count_or_zero (output : PyStr.text) : Z :=
  match count_of output with
  | Ok v => v
  | Raise _ => 0
  end.

(** Every probe of the environment hands back a text that is either no
    digit string or one that [int] can read. *)
Definition readable (e : env) : bool :=
  forallb (fun p => match count_of (probe_output e (snd (fst p)) (snd p)) with
                    | Ok _ => true
                    | Raise _ => false
                    end) probes.

(** The weighting rules in the words of the specification: a rule of an
    indicator is triggered by a test on its value and then contributes
    points. *)
Record rule := {
  rule_key : string;
  rule_test : Z -> bool;
  rule_points : Z -> Z
}.

Definition spec_rules : list rule :=
  [ {| rule_key := "power_assertions"; rule_test := fun v => 0 <? v;
       rule_points := fun _ => 25 |};
    {| rule_key := "slack_assertions"; rule_test := fun v => 0 <? v;
       rule_points := fun v => Z.min v 3 * 20 |};
    {| rule_key := "audio_units"; rule_test := fun v => 0 <? v;
       rule_points := fun v => Z.min v 2 * 15 |};
    {| rule_key := "hal_plugins"; rule_test := fun v => 0 <? v;
       rule_points := fun _ => 10 |};
    {| rule_key := "audio_fds"; rule_test := fun v => 3 <? v;
       rule_points := fun _ => 5 |};
    {| rule_key := "ioregistry_clients"; rule_test := fun v => 0 <? v;
       rule_points := fun _ => 10 |};
    {| rule_key := "coreaudio_connections"; rule_test := fun v => 0 <? v;
       rule_points := fun _ => 10 |} ].

(** A missing indicator counts as zero here. *)
Definition value_of (state : gmap string Z) (r : rule) : Z :=
  default 0 (state !! rule_key r).

Definition triggered (state : gmap string Z) (r : rule) : bool :=
  rule_test r (value_of state r).

(** The contributions of the triggered rules, in rule order. *)
Definition contributions (state : gmap string Z) : list Z :=
  map (fun r => rule_points r (value_of state r))
      (filter (fun r => triggered state r = true) spec_rules).

Definition total (l : list Z) : Z := foldr Z.add 0 l.

(** The history after the scores [l] were pushed, one by one, into an
    empty deque. *)
Definition pushed (l : list Z) : list Z :=
  fold_left PyList.deque_append l [].

(** The state machine fed with a sequence of scores, one tick each. *)
Definition feed (scores : list Z) (m : machine) : machine :=
  fold_left (fun m s => fst (handle_transitions s [] m)) scores m.

(** A number [f"{x:.0f}"] can format: a float, or an int far inside the
    range of a double. *)
Definition fits_double (x : Py.num) : Prop :=
  match x with
  | Py.Int z => small z
  | Py.Float _ => True
  end.

(** The start announcement cannot be completed: the tick is the second
    in a row to meet the start condition and the baseline is an int too
    large for [:.0f]. *)
Definition blocked_start (m : machine) (should_start : bool) : bool :=
  should_start && (2 <=? consecutive_starts m + 1)
  && match Py.format_f (baseline_score m) with
     | Ok _ => false
     | Raise _ => true
     end.

(** Numerically zero: the int [0] or the float [+0.0]. *)
Definition is_zero (x : Py.num) : Prop :=
  x = Py.Int 0 \/ x = Py.Float (S754_zero false).

(** At most one debounce counter is non-zero. *)
Definition counters_exclusive (m : machine) : Prop :=
  consecutive_starts m = 0 \/ consecutive_ends m = 0.

(** A snapshot with all seven keys. *)
Definition has_indicators (state : gmap string Z) : Prop :=
  Forall (fun k => is_Some (state !! k)) indicator_keys.

(** The snapshot taken in a readable environment [e], read off the probe
    table. *)
Definition snapshot (e : env) : gmap string Z :=
  list_to_map
    (map (fun p => (fst (fst p), count_or_zero (probe_output e (snd (fst p)) (snd p))))
         probes).

(** The start condition in the words of the specification:
    [score >= max(50, baseline + 25)] and [trend >= 0]. *)
Definition start_condition (baseline : Py.num) (score : Z) (trend : Py.num) : bool :=
  match Py.add baseline (Py.Int 25) with
  | Ok raised =>
      Py.ge (Py.Int score) (Py.max (Py.Int 50) raised) && Py.ge trend (Py.Int 0)
  | Raise _ => false
  end.

(** The end condition in the words of the specification: the score is
    below 0.7 times the peak, or at most [baseline + 10], or the trend
    is below -10 with the score below 50. *)
Definition end_condition (baseline : Py.num) (peak score : Z) (trend : Py.num) : bool :=
  match Py.mul (Py.Int peak) (Py.Float Py.c0_7), Py.add baseline (Py.Int 10) with
  | Ok ratio, Ok near =>
      Py.lt (Py.Int score) ratio || Py.le (Py.Int score) near
      || (Py.lt trend (Py.Int (-10)) && Py.lt (Py.Int score) (Py.Int 50))
  | _, _ => false
  end.

(** The peak after a tick that confirms no transition. *)
Definition updated_peak (m : machine) (score : Z) : Z :=
  if in_huddle m && (huddle_peak_score m <? score) then score else huddle_peak_score m.

(** The session of the specification's test: ACTIVE with peak 100 and
    baseline 10, given as an int or as a float. *)
Definition peak100_baseline10 (m : machine) : Prop :=
  in_huddle m = true /\ huddle_peak_score m = 100 /\
  (baseline_score m = Py.Int 10 \/
   baseline_score m = Py.Float (S754_finite false 5629499534213120 (-49))) /\
  Forall small (score_history m).

(** The replay property as the specification words it: after a tick, the
    same tick again changes neither the peak nor the counters. *)
Definition replay_is_idempotent (m : machine) (score : Z) : Prop :=
  let m1 := feed [score] m in
  let m2 := feed [score] m1 in
  huddle_peak_score m2 = huddle_peak_score m1 /\
  consecutive_starts m2 = consecutive_starts m1 /\
  consecutive_ends m2 = consecutive_ends m1.

(** [c] keeps the invariant [I], however it ends. *)
Definition preserves {A} (I : machine -> Prop) (c : M A) : Prop :=
  forall m, I m -> I (fst (c m)).

(** The publishing claim as the specification words it: a failed write
    is logged (something is printed) and the call returns normally. *)
Definition write_failure_is_logged : Prop :=
  forall (m : machine) (score : Z) (state : gmap string Z) (trend : Py.num) (e : exn),
    file_open (envs m (clock m)) = Raise e \/ file_write (envs m (clock m)) = Raise e ->
    is_Exception e = true ->
    snd (write_status_file score state trend m) = Ok tt /\
    stdout (fst (write_status_file score state trend m)) <> stdout m.

(** A float sits in the cell of the rational [s / d]: it is the integer
    [s / d] when [d] divides [s], and lies strictly between the two
    neighbouring integers otherwise. *)
Definition in_cell (f : spec_float) (s d : Z) : bool :=
  match f with
  | S754_zero _ => s =? 0
  | S754_finite false mant e =>
      (e <? 0) &&
      (if s mod d =? 0 then Z.pos mant =? s / d * 2 ^ (- e)
       else (s / d * 2 ^ (- e) <? Z.pos mant) && (Z.pos mant <? (s / d + 1) * 2 ^ (- e)))
  | _ => false
  end.

(** The float quotient [s / 3] sits in the cell of [s / 3]. *)
Definition mean_in_cell (s : Z) : bool :=
  match Py.int_truediv s 3 with
  | Ok mean => in_cell mean s 3
  | Raise _ => false
  end.

(** The float product [peak * 0.7] lies just below or at the smallest
    integer [q] that is at least [7 * peak / 10], and above [q - 1]. *)
Definition ratio_in_cell (peak : Z) : bool :=
  match Py.mul (Py.Int peak) (Py.Float Py.c0_7) with
  | Ok (Py.Float (S754_zero _)) => peak =? 0
  | Ok (Py.Float (S754_finite false mant e)) =>
      let q := (7 * peak + 9) / 10 in
      (e <? 0) && ((q - 1) * 2 ^ (- e) <? Z.pos mant) && (Z.pos mant <=? q * 2 ^ (- e))
  | _ => false
  end.

(** ** Vocabulary of the further properties *)

(** The first key, in the order given, that the snapshot lacks. *)
Fixpoint first_missing (state : gmap string Z) (keys : list string) : option string :=
  match keys with
  | [] => None
  | k :: keys' =>
      match state !! k with
      | Some _ => first_missing state keys'
      | None => Some k
      end
  end.

(** The value from which on an indicator adds nothing more to the score. *)
Definition saturation_point (key : string) : Z :=
  if String.eqb key "slack_assertions" then 3
  else if String.eqb key "audio_units" then 2
  else if String.eqb key "audio_fds" then 4
  else 1.

(** What the state machine owns: phase, peak, the two counters and the
    history. *)
Definition core (m : machine) : bool * Z * Z * Z * list Z :=
  (in_huddle m, huddle_peak_score m, consecutive_starts m, consecutive_ends m,
   score_history m).

(** The shape of every state the loop can reach: a counter is 0 or 1, a
    pending start belongs to IDLE and a pending end to ACTIVE; the peak
    is 0 in IDLE and at least 50 in ACTIVE; the history holds at most ten
    scores. *)
Definition well_formed (m : machine) : Prop :=
  (consecutive_starts m = 0 \/ consecutive_starts m = 1 /\ in_huddle m = false) /\
  (consecutive_ends m = 0 \/ consecutive_ends m = 1 /\ in_huddle m = true) /\
  (in_huddle m = false -> huddle_peak_score m = 0) /\
  (in_huddle m = true -> 50 <= huddle_peak_score m) /\
  (length (score_history m) <= PyList.maxlen)%nat.

(** Every number the state machine computes with fits a double. *)
Definition fits (m : machine) : Prop :=
  Forall small (score_history m) /\ small (huddle_peak_score m).

(** The [Error: ...] lines of the loop's [except Exception] branch. *)
Definition is_error (o : output) : bool :=
  match o with
  | PrintError _ => true
  | _ => false
  end.

(** The only file the detector has to do with is its status file at
    [path]. *)
Definition only_status_file (path : string) (m : machine) : Prop :=
  status_file_path m = path /\ forall p, p ≠ path -> files m !! p = None.

(** The object [write_status_file] dumps in state [m]. *)
Definition status_of (m : machine) (current_score : Z) (state : gmap string Z)
    (trend : Py.num) : status_data :=
  {| inHuddle := in_huddle m; score := current_score; baseline := baseline_score m;
     peakScore := if in_huddle m then huddle_peak_score m else 0;
     trend := arrow_of trend; timestamp := now (envs m (clock m));
     slackAssertions := default 0 (state !! "slack_assertions");
     audioUnits := default 0 (state !! "audio_units");
     audioFds := default 0 (state !! "audio_fds");
     powerAssertions := default 0 (state !! "power_assertions") |}.

(** The float [s / 3] (not-a-number where the division raises). *)
Definition avg3 (s : Z) : spec_float :=
  match Py.int_truediv s 3 with
  | Ok f => f
  | Raise _ => S754_nan
  end.

(** Every sum three scores of the scorer can have, with its float
    third. *)
Definition scorer_means : list (Z * spec_float) :=
  map (fun s => (s, avg3 s)) (seqZ 0 451).

(** The trend [recent - older] of two such means compares with 0, -10, 5
    and -5 as the difference of the sums does with 0, -30, 15 and -15,
    except possibly where the sums differ by exactly -30, 15 or -15. *)
Definition trend_checks (recent older : Z * spec_float) : bool :=
  let t := Py.Float (SFsub Py.prec Py.emax (snd recent) (snd older)) in
  let delta := fst recent - fst older in
  Bool.eqb (Py.ge t (Py.Int 0)) (0 <=? delta)
  && implb (delta <? -30) (Py.lt t (Py.Int (-10)))
  && implb (-30 <? delta) (negb (Py.lt t (Py.Int (-10))))
  && implb (15 <? delta) (Py.gt t (Py.Int 5))
  && implb (delta <? 15) (negb (Py.gt t (Py.Int 5)))
  && implb (delta <? -15) (Py.lt t (Py.Int (-5)))
  && implb (-15 <? delta) (negb (Py.lt t (Py.Int (-5)))).

(** With the mean of three scores summing to [s] as the baseline, the
    floats [baseline + 25] and [baseline + 10] sit in the cells of
    [(s + 75) / 3] and [(s + 30) / 3]. *)
Definition thresholds_in_cell (s : Z) : bool :=
  match Py.add (Py.Float (avg3 s)) (Py.Int 25), Py.add (Py.Float (avg3 s)) (Py.Int 10) with
  | Ok (Py.Float raised), Ok (Py.Float near) =>
      in_cell raised (s + 75) 3 && in_cell near (s + 30) 3
  | _, _ => false
  end.

(** White space only. *)
Definition blank (s : PyStr.text) : bool := forallb PyStr.is_space s.

(** The terminal, newest line first, read back from the phase [active]
    the detector is in: started and ended announcements alternate, the
    newest one fits the phase, every start was announced on a score of at
    least 50, and before the first announcement the phase was IDLE. *)
Fixpoint announced (out : list output) (active : bool) : Prop :=
  match out with
  | [] => active = false
  | PrintStarted _ s _ _ :: rest => active = true /\ 50 <= s /\ announced rest false
  | PrintEnded _ _ _ :: rest => active = false /\ announced rest true
  | _ :: rest => announced rest active
  end.

(** The score of the snapshot taken in environment [e]. *)
Definition score_of (e : env) : Z :=
  match calculate_score (snapshot e) with
  | Ok (s, _) => s
  | Raise _ => 0
  end.

(** The scores of [n] sampling intervals of the world [w], from interval
    [t] on. *)
Fixpoint sampled (w : nat -> env) (t n : nat) : list Z :=
  match n with
  | O => []
  | S n' => score_of (w t) :: sampled w (S t) n'
  end.

(** No disk operation and no sleep of the [n] intervals from [t] on is
    interrupted from the keyboard. *)
Definition uninterrupted (w : nat -> env) (t n : nat) : Prop :=
  forall k, (t <= k < t + n)%nat ->
    file_open (w k) <> Raise KeyboardInterrupt /\
    file_write (w k) <> Raise KeyboardInterrupt /\
    file_chmod (w k) <> Raise KeyboardInterrupt /\
    sleep_interrupted (w k) = false.

(** In each of the [n] intervals from [t] on the probes can be read and
    the sleep is not interrupted. *)
Definition samplable (w : nat -> env) (t n : nat) : Prop :=
  forall k, (t <= k < t + n)%nat ->
    readable (w k) = true /\ sleep_interrupted (w k) = false.

(** The probes of the [n] intervals from [t] on can all be read. *)
Definition readable_from (w : nat -> env) (t n : nat) : Prop :=
  forall k, (t <= k < t + n)%nat -> readable (w k) = true.

(** Two detectors that the state machine cannot tell apart. *)
Definition agree (a b : machine) : Prop :=
  core a = core b /\ baseline_score a = baseline_score b.

(** The [except Exception] branch of the loop. *)
Definition error_branch (x : exn) : M bool :=
  _ <- print (PrintError x) ;
  _ <- sleep 3 ;
  ret true.

(** The peak goes with the phase: 0 in IDLE, at least 50 in ACTIVE. *)
Definition phase_peak (m : machine) : Prop :=
  (in_huddle m = false -> huddle_peak_score m = 0) /\
  (in_huddle m = true -> 50 <= huddle_peak_score m).

(** The code points up to the last white space character. *)
Definition low_points : list N := map Z.to_N (seqZ 0 12289).


(** A state in which a tick on a score of the scorer cannot raise: the
    shape of every reachable state, with numbers that fit a double and a
    baseline that [:.0f] can format. *)
Definition sound (m : machine) : Prop :=
  well_formed m /\ fits m /\ fits_double (baseline_score m).

(** The two [except] clauses of the loop, applied to the outcome of the
    [try] body: [KeyboardInterrupt] breaks, any [Exception] is reported
    and slept over. *)
Definition handled (r : machine * result bool) : machine * result bool :=
  match r with
  | (m, Ok go_on) => (m, Ok go_on)
  | (m, Raise KeyboardInterrupt) => (m, Ok false)
  | (m, Raise x) => error_branch x m
  end.


(** A [KeyboardInterrupt] arrives in a disk operation or in the sleep of
    the interval. *)
Definition interrupted (e : env) : Prop :=
  file_open e = Raise KeyboardInterrupt \/
  file_write e = Raise KeyboardInterrupt \/
  file_chmod e = Raise KeyboardInterrupt \/
  sleep_interrupted e = true.

(** What [int] makes of a run of ASCII digits, given by their values,
    most significant first. *)
Fixpoint digits_value (acc : Z) (ds : list N) : Z :=
  match ds with
  | [] => acc
  | d :: ds' => digits_value (10 * acc + Z.of_N d) ds'
  end.

(** ** Concrete inputs for the examples *)

(** Nothing is going on: every probe counts zero, the disk works. *)
Definition quiet_env : env :=
  {| shell := fun _ _ => Completed (PyStr.of_string " 0 ");
     returncode := fun _ => 0;
     now := "12:00:00";
     file_open := Ok tt;
     file_write := Ok tt;
     file_chmod := Ok tt;
     sleep_interrupted := false |}.

(** The same, but the status file cannot be opened for writing. *)
Definition read_only_env : env :=
  {| shell := fun _ _ => Completed (PyStr.of_string " 0 ");
     returncode := fun _ => 0;
     now := "12:00:00";
     file_open := Raise OSError;
     file_write := Ok tt;
     file_chmod := Ok tt;
     sleep_interrupted := false |}.

(** The same, but the disk fills up while the object is dumped. *)
Definition full_disk_env : env :=
  {| shell := fun _ _ => Completed (PyStr.of_string " 0 ");
     returncode := fun _ => 0;
     now := "12:00:00";
     file_open := Ok tt;
     file_write := Raise OSError;
     file_chmod := Ok tt;
     sleep_interrupted := false |}.

(** A world in which one probe prints a superscript two. *)
Definition superscript_env : env :=
  {| shell := fun cmd _ =>
       if String.eqb cmd "pmset -g assertions 2>/dev/null | grep -c Slack"
       then Completed [0xb2; 0xa]%N
       else Completed (PyStr.of_string " 0 ");
     returncode := fun _ => 0;
     now := "12:00:00";
     file_open := Ok tt;
     file_write := Ok tt;
     file_chmod := Ok tt;
     sleep_interrupted := false |}.

(** A fresh detector in a quiet world. *)
Definition fresh : machine := new_detector "user" (fun _ => quiet_env).

(** A detector in the middle of a huddle: peak 100, baseline 10. *)
Definition in_session : machine :=
  set_huddle_peak_score 100
    (set_in_huddle true (set_baseline_score (Py.Int 10) fresh)).

(** A snapshot as seen during a call. *)
Definition busy_state : gmap string Z :=
  list_to_map
    [("audio_fds", 5); ("audio_units", 1); ("hal_plugins", 0);
     ("power_assertions", 1); ("slack_assertions", 2);
     ("ioregistry_clients", 1); ("coreaudio_connections", 0)].

(** Every probe prints the count [n] as [grep -c] does: in decimal, with
    a newline after it. *)
Definition counting_env (n : Z) : env :=
  {| shell := fun _ _ => Completed (PyStr.of_string (pretty n) ++ [0xa%N])%list;
     returncode := fun _ => 0;
     now := "12:00:00";
     file_open := Ok tt;
     file_write := Ok tt;
     file_chmod := Ok tt;
     sleep_interrupted := false |}.

(** The same world, but the user hits Ctrl-C during the sleep. *)
Definition with_interrupt (e : env) : env :=
  {| shell := shell e;
     returncode := returncode e;
     now := now e;
     file_open := file_open e;
     file_write := file_write e;
     file_chmod := file_chmod e;
     sleep_interrupted := true |}.

(* ===================================================================== *)
(** * Properties *)
(* ===================================================================== *)

Open Scope list_scope.
Open Scope Z_scope.

(** ** Floating point: rounding stays finite *)

Module FloatFacts.
Import Py.

Lemma digits2_size p : digits2_pos p = Pos.size p.
Proof. induction p; simpl; congruence. Qed.

Lemma Zdigits2_nonneg m : 0 <= Zdigits2 m.
Proof. destruct m; simpl; lia. Qed.

Lemma Zdigits2_upper m : 0 <= m -> m < 2 ^ Zdigits2 m.
Proof.
  destruct m as [|p|p]; simpl; intros H; try lia.
  rewrite digits2_size.
  pose proof (Pos.size_gt p) as Hp.
  rewrite <- Pos2Z.inj_pow. lia.
Qed.

Lemma Zdigits2_lower m : 0 < m -> 2 ^ (Zdigits2 m - 1) <= m.
Proof.
  destruct m as [|p|p]; simpl; intros H; try lia.
  rewrite digits2_size.
  pose proof (Pos.size_le p) as Hp.
  assert (2 ^ Z.pos (Pos.size p) <= 2 * Z.pos p).
  { rewrite <- Pos2Z.inj_pow. lia. }
  replace (Z.pos (Pos.size p)) with (Z.succ (Z.pos (Pos.size p) - 1)) in H0 by lia.
  rewrite Z.pow_succ_r in H0 by lia. lia.
Qed.

Lemma Zdigits2_le m k : 0 <= k -> 0 <= m < 2 ^ k -> Zdigits2 m <= k.
Proof.
  intros Hk [H0 H1].
  destruct (Z.eq_dec m 0) as [->|Hne]; [simpl; lia|].
  pose proof (Zdigits2_lower m ltac:(lia)) as Hl.
  pose proof (Zdigits2_nonneg m) as Hn.
  destruct (Z_le_gt_dec (Zdigits2 m) k) as [|Hgt]; [done|].
  assert (2 ^ k <= 2 ^ (Zdigits2 m - 1)) by (apply Z.pow_le_mono_r; lia).
  lia.
Qed.

Lemma shr_1_m mrs : 0 <= shr_m mrs -> shr_m (shr_1 mrs) = Z.div2 (shr_m mrs).
Proof. destruct mrs as [[|[p|p|]|p] r s]; simpl; intros; try lia; reflexivity. Qed.

Lemma iter_shr_m p : forall mrs,
  0 <= shr_m mrs ->
  shr_m (SpecFloat.iter_pos shr_1 p mrs) = Z.shiftr (shr_m mrs) (Z.pos p).
Proof.
  induction p as [p IH|p IH|]; intros mrs H; simpl SpecFloat.iter_pos.
  - assert (H1 : 0 <= shr_m (shr_1 mrs)).
    { rewrite shr_1_m by done. apply Z.div2_nonneg. done. }
    assert (H2 : 0 <= shr_m (SpecFloat.iter_pos shr_1 p (shr_1 mrs))).
    { rewrite IH by done. apply Z.shiftr_nonneg. done. }
    rewrite IH, IH, shr_1_m by done.
    rewrite Z.div2_spec, !Z.shiftr_shiftr by lia. f_equal. lia.
  - assert (H2 : 0 <= shr_m (SpecFloat.iter_pos shr_1 p mrs)).
    { rewrite IH by done. apply Z.shiftr_nonneg. done. }
    rewrite IH, IH by done.
    rewrite !Z.shiftr_shiftr by lia. f_equal. lia.
  - rewrite shr_1_m by done. apply Z.div2_spec.
Qed.

Lemma shr_record_of_loc_m m l : shr_m (shr_record_of_loc m l) = m.
Proof. destruct l as [|[]]; reflexivity. Qed.

(** What [shr_fexp] does to a non-negative mantissa: the exponent is
    raised to the canonical one when that is larger, and the mantissa is
    divided accordingly. *)
Lemma shr_fexp_spec m e l :
  0 <= m ->
  exists mrs e',
    shr_fexp prec emax m e l = (mrs, e') /\
    e' = Z.max e (fexp prec emax (Zdigits2 m + e)) /\
    shr_m mrs = m / 2 ^ (e' - e).
Proof.
  intros Hm. unfold shr_fexp, shr.
  destruct (fexp prec emax (Zdigits2 m + e) - e) as [|p|p] eqn:E.
  - eexists _, _. split; [reflexivity|]. split; [lia|].
    rewrite shr_record_of_loc_m, Z.sub_diag, Z.pow_0_r, Z.div_1_r. done.
  - eexists _, _. split; [reflexivity|]. split; [lia|].
    rewrite iter_shr_m by (rewrite shr_record_of_loc_m; done).
    rewrite shr_record_of_loc_m, Z.shiftr_div_pow2 by lia.
    f_equal. f_equal. lia.
  - eexists _, _. split; [reflexivity|]. split; [lia|].
    rewrite shr_record_of_loc_m, Z.sub_diag, Z.pow_0_r, Z.div_1_r. done.
Qed.

Lemma round_nearest_even_bounds m l :
  m <= round_nearest_even m l <= m + 1.
Proof.
  unfold round_nearest_even.
  destruct l as [|[]]; try destruct (Z.even m); lia.
Qed.

Lemma fexp_eq e : fexp prec emax e = Z.max (e - 53) (-1074).
Proof. reflexivity. Qed.

(** Rounding never overflows when the operand lies below [2 ^ 1023]. *)
Lemma binary_round_aux_finite sx mx ex lx :
  0 <= mx -> ex <= 971 -> Zdigits2 mx + ex <= 1023 ->
  is_finite (binary_round_aux prec emax sx mx ex lx) = true.
Proof.
  intros Hm He Hd. unfold binary_round_aux.
  destruct (shr_fexp_spec mx ex lx Hm) as (mrs1 & e1 & -> & He1 & Hm1).
  set (m2 := round_nearest_even (shr_m mrs1) (loc_of_shr_record mrs1)).
  assert (H1 : 0 <= shr_m mrs1).
  { rewrite Hm1. apply Z.div_pos; [done|]. apply Z.pow_pos_nonneg; lia. }
  pose proof (round_nearest_even_bounds (shr_m mrs1) (loc_of_shr_record mrs1)) as Hr.
  fold m2 in Hr.
  destruct (shr_fexp_spec m2 e1 loc_Exact ltac:(lia)) as (mrs2 & e2 & -> & He2 & Hm2).
  assert (H2 : 0 <= shr_m mrs2).
  { rewrite Hm2. apply Z.div_pos; [lia|]. apply Z.pow_pos_nonneg; lia. }
  destruct (shr_m mrs2) as [|p|p] eqn:Ep; [reflexivity| |lia].
  enough (e2 <= 971) as Hle.
  { change (emax - prec) with 971. apply Z.leb_le in Hle. rewrite Hle. reflexivity. }
  rewrite fexp_eq in He1, He2.
  pose proof (Zdigits2_nonneg mx) as Hdn.
  (* the mantissa after the first shift is below 2 ^ k *)
  set (k := Z.max (Zdigits2 mx + ex - e1) 0).
  assert (Hk : shr_m mrs1 < 2 ^ k).
  { rewrite Hm1. apply Z.div_lt_upper_bound; [apply Z.pow_pos_nonneg; lia|].
    rewrite <- Z.pow_add_r by lia.
    eapply Z.lt_le_trans; [apply Zdigits2_upper; done|].
    apply Z.pow_le_mono_r; lia. }
  assert (Hd2 : Zdigits2 m2 <= k + 1).
  { apply Zdigits2_le; [lia|]. split; [lia|].
    rewrite Z.pow_add_r, Z.pow_1_r by lia. lia. }
  lia.
Qed.

Lemma digits2_iter_xO d : forall m,
  digits2_pos (Pos.iter xO m d) = (digits2_pos m + d)%positive.
Proof.
  induction d using Pos.peano_ind; intros m.
  - simpl. lia.
  - rewrite Pos.iter_succ. simpl. rewrite IHd. lia.
Qed.

Lemma shl_align_spec mx ex ex' :
  exists mz ez,
    shl_align mx ex ex' = (mz, ez) /\ ez <= ex /\
    Zdigits2 (Z.pos mz) + ez = Zdigits2 (Z.pos mx) + ex.
Proof.
  unfold shl_align. destruct (ex' - ex) as [|d|d] eqn:E.
  - eexists _, _. split; [reflexivity|]. lia.
  - eexists _, _. split; [reflexivity|]. lia.
  - eexists _, _. split; [reflexivity|]. split; [lia|].
    simpl. rewrite digits2_iter_xO. lia.
Qed.

Lemma binary_round_finite sx mx :
  Z.pos mx < 2 ^ 1023 ->
  is_finite (binary_round prec emax sx mx 0) = true.
Proof.
  intros Hlt. unfold binary_round.
  destruct (shl_align_spec mx 0 (fexp prec emax (Z.pos (digits2_pos mx) + 0)))
    as (mz & ez & -> & Hez & Hd).
  apply binary_round_aux_finite; [lia|lia|].
  rewrite Hd, Z.add_0_r. apply Zdigits2_le; lia.
Qed.

(** [float(z)] succeeds below [2 ^ 1023]. *)
Lemma int_to_float_ok z :
  Z.abs z < 2 ^ 1023 ->
  exists f, int_to_float z = Ok f /\ is_finite f = true.
Proof.
  intros Hz. unfold int_to_float, binary_normalize.
  destruct z as [|p|p].
  - eexists. split; reflexivity.
  - pose proof (binary_round_finite false p ltac:(lia)) as Hf.
    destruct (binary_round prec emax false p 0); try discriminate;
      eexists; split; reflexivity.
  - pose proof (binary_round_finite true p ltac:(lia)) as Hf.
    destruct (binary_round prec emax true p 0); try discriminate;
      eexists; split; reflexivity.
Qed.

Lemma SFdiv_core_bounds m1 m2 :
  0 < m1 < 2 ^ 1023 -> 0 < m2 ->
  exists q e l,
    SFdiv_core_binary prec emax m1 0 m2 0 = (q, e, l) /\
    0 <= q /\ e <= 971 /\ Zdigits2 q + e <= 1023.
Proof.
  intros [H1 H1'] H2. unfold SFdiv_core_binary.
  set (e' := Z.min (fexp prec emax (Zdigits2 m1 + 0 - (Zdigits2 m2 + 0))) (0 - 0)).
  set (s := 0 - 0 - e').
  set (m' := match s with Z.pos _ => Z.shiftl m1 s | 0 => m1 | Z.neg _ => 0 end).
  assert (He' : e' <= 0) by (subst e'; lia).
  assert (Hm' : m' = m1 * 2 ^ s).
  { subst m'. destruct s as [|p|p] eqn:Es; [rewrite Z.pow_0_r; lia| |lia].
    rewrite Z.shiftl_mul_pow2 by lia. reflexivity. }
  assert (Hq : Z.div_eucl m' m2 = (m' / m2, m' mod m2)).
  { unfold Z.div, Z.modulo. destruct (Z.div_eucl m' m2). reflexivity. }
  rewrite Hq. eexists _, _, _. split; [reflexivity|].
  assert (Hs : 0 <= s) by (subst s; lia).
  assert (Hp : 0 < 2 ^ s) by (apply Z.pow_pos_nonneg; lia).
  assert (Hm'0 : 0 <= m') by nia.
  split; [apply Z.div_pos; lia|]. split; [lia|].
  assert (Hqle : m' / m2 <= m').
  { apply Z.div_le_upper_bound; [lia|]. nia. }
  assert (Hqd : Zdigits2 (m' / m2) <= Zdigits2 m1 + s).
  { pose proof (Zdigits2_nonneg m1).
    apply Zdigits2_le; [lia|]. split; [apply Z.div_pos; lia|].
    eapply Z.le_lt_trans; [exact Hqle|]. rewrite Hm', Z.pow_add_r by lia.
    pose proof (Zdigits2_upper m1 ltac:(lia)). nia. }
  assert (Zdigits2 m1 <= 1023) by (apply Zdigits2_le; lia).
  subst s. lia.
Qed.

(** [a / b] on ints succeeds whenever [b] is not zero and [a] lies
    below [2 ^ 1023]. *)
Lemma int_truediv_ok a b :
  Z.abs a < 2 ^ 1023 -> b <> 0 ->
  exists f, int_truediv a b = Ok f /\ is_finite f = true.
Proof.
  intros Ha Hb. unfold int_truediv.
  destruct (Z.eqb_spec b 0) as [|_]; [done|].
  assert (Hfin : is_finite (SFdiv prec emax (raw a) (raw b)) = true).
  { destruct a as [|ma|ma], b as [|mb|mb]; try done; simpl raw; unfold SFdiv;
      (destruct (SFdiv_core_bounds (Z.pos ma) (Z.pos mb) ltac:(lia) ltac:(lia))
         as (q & e & l & -> & Hq & He & Hd);
       apply binary_round_aux_finite; done). }
  destruct (SFdiv prec emax (raw a) (raw b)); try discriminate;
    eexists; split; reflexivity.
Qed.

(** [x - x] is [+0.0] for every finite [x]. *)
Lemma SFsub_diag f :
  is_finite f = true -> SFsub prec emax f f = S754_zero false.
Proof.
  destruct f as [[]|[]| |s m e]; try done; intros _.
  unfold SFsub. rewrite Z.sub_diag. reflexivity.
Qed.

End FloatFacts.

(** ** Floats against exact arithmetic, on the range of the scorer *)

(** A float in the cell of [s / d] compares with every integer as the
    rational [s / d] does. *)
Lemma in_cell_compare (f : spec_float) (s d : Z) :
  0 < d -> in_cell f s d = true ->
  forall k : Z, Py.compare (Py.Int k) (Py.Float f) = Some (d * k ?= s).
Proof.
  intros Hd Hc k. cbn [Py.compare]. unfold in_cell in Hc.
  destruct f as [sg|sg| |[] mant e]; try discriminate; cbn [Py.compare_int_float].
  - apply Z.eqb_eq in Hc. subst s. f_equal.
    destruct (Z.lt_trichotomy k 0) as [Hk|[Hk|Hk]].
    + rewrite (proj2 (Z.compare_lt_iff k 0)) by lia.
      rewrite (proj2 (Z.compare_lt_iff (d * k) 0)) by nia. reflexivity.
    + subst k. rewrite Z.mul_0_r. reflexivity.
    + rewrite (proj2 (Z.compare_gt_iff k 0)) by lia.
      rewrite (proj2 (Z.compare_gt_iff (d * k) 0)) by nia. reflexivity.
  - apply andb_true_iff in Hc as [He Hc]. apply Z.ltb_lt in He.
    destruct (Z.leb_spec 0 e); [lia|]. cbn [cond_Zopp]. f_equal.
    set (N := 2 ^ (- e)) in *.
    assert (HN : 0 < N) by (apply Z.pow_pos_nonneg; lia).
    pose proof (Z.div_mod s d ltac:(lia)) as Hdm.
    pose proof (Z.mod_pos_bound s d ltac:(lia)) as Hmb.
    set (q := s / d) in *. set (r := s mod d) in *. clearbody q r N.
    clear He.
    destruct (Z.eqb_spec r 0) as [H0|H0].
    + apply Z.eqb_eq in Hc. rewrite Hc.
      destruct (Z.lt_trichotomy k q) as [Hk|[Hk|Hk]].
      * assert (k * N < q * N) by (apply Z.mul_lt_mono_pos_r; lia).
        rewrite (proj2 (Z.compare_lt_iff (k * N) (q * N))) by lia.
        rewrite (proj2 (Z.compare_lt_iff (d * k) s)) by nia. reflexivity.
      * subst k. rewrite Z.compare_refl.
        rewrite (proj2 (Z.compare_eq_iff (d * q) s)) by lia. reflexivity.
      * assert (q * N < k * N) by (apply Z.mul_lt_mono_pos_r; lia).
        rewrite (proj2 (Z.compare_gt_iff (k * N) (q * N))) by lia.
        rewrite (proj2 (Z.compare_gt_iff (d * k) s)) by nia. reflexivity.
    + apply andb_true_iff in Hc as [H1 H2]. apply Z.ltb_lt in H1, H2.
      destruct (Z_le_gt_dec k q) as [Hk|Hk].
      * assert (k * N <= q * N) by (apply Z.mul_le_mono_nonneg_r; lia).
        rewrite (proj2 (Z.compare_lt_iff (k * N) (Z.pos mant))) by lia.
        rewrite (proj2 (Z.compare_lt_iff (d * k) s)) by nia. reflexivity.
      * assert ((q + 1) * N <= k * N) by (apply Z.mul_le_mono_nonneg_r; lia).
        rewrite (proj2 (Z.compare_gt_iff (k * N) (Z.pos mant))) by lia.
        rewrite (proj2 (Z.compare_gt_iff (d * k) s)) by nia. reflexivity.
Qed.

Lemma mean_in_cell_range : forallb mean_in_cell (seqZ 0 451) = true.
Proof. vm_compute. reflexivity. Qed.

Lemma ratio_in_cell_range : forallb ratio_in_cell (seqZ 0 151) = true.
Proof. vm_compute. reflexivity. Qed.

(** The mean of three scores of the scorer, computed in floating point,
    compares with every integer as the exact mean does. *)
Lemma mean_compare (s : Z) (mean : spec_float) :
  0 <= s <= 450 ->
  Py.int_truediv s 3 = Ok mean ->
  forall k : Z, Py.compare (Py.Int k) (Py.Float mean) = Some (3 * k ?= s).
Proof.
  intros Hs Hm. apply in_cell_compare; [lia|].
  pose proof mean_in_cell_range as Hall. rewrite forallb_forall in Hall.
  specialize (Hall s). unfold mean_in_cell in Hall. rewrite Hm in Hall.
  apply Hall, list_elem_of_In, elem_of_seqZ. lia.
Qed.

(** For every peak the scorer can produce, [score < peak * 0.7] in
    floating point is [10 * score < 7 * peak]. *)
Lemma ratio_compare (peak score : Z) (ratio : Py.num) :
  0 <= peak <= 150 ->
  Py.mul (Py.Int peak) (Py.Float Py.c0_7) = Ok ratio ->
  Py.lt (Py.Int score) ratio = (10 * score <? 7 * peak).
Proof.
  intros Hp Hr.
  pose proof ratio_in_cell_range as Hall. rewrite forallb_forall in Hall.
  specialize (Hall peak). unfold ratio_in_cell in Hall. rewrite Hr in Hall.
  specialize (Hall ltac:(apply list_elem_of_In, elem_of_seqZ; lia)).
  destruct ratio as [z|[sg|sg| |[] mant e]]; try discriminate;
    unfold Py.lt; cbn [Py.compare Py.compare_int_float].
  - apply Z.eqb_eq in Hall. subst peak.
    destruct (Z.compare_spec score 0), (Z.ltb_spec (10 * score) (7 * 0));
      (reflexivity || (exfalso; lia)).
  - cbv zeta in Hall.
    apply andb_true_iff in Hall as [[He H1]%andb_true_iff H2].
    apply Z.ltb_lt in He, H1. apply Z.leb_le in H2.
    destruct (Z.leb_spec 0 e); [lia|]. cbn [cond_Zopp].
    set (N := 2 ^ (- e)) in *.
    assert (HN : 0 < N) by (apply Z.pow_pos_nonneg; lia).
    pose proof (Z.div_mod (7 * peak + 9) 10 ltac:(lia)) as Hdm.
    pose proof (Z.mod_pos_bound (7 * peak + 9) 10 ltac:(lia)) as Hmb.
    set (q := (7 * peak + 9) / 10) in *. clearbody q N.
    destruct (Z_le_gt_dec score (q - 1)) as [Hk|Hk].
    + assert (score * N <= (q - 1) * N) by (apply Z.mul_le_mono_nonneg_r; lia).
      rewrite (proj2 (Z.compare_lt_iff (score * N) (Z.pos mant))) by lia.
      symmetry. apply Z.ltb_lt. lia.
    + assert (q * N <= score * N) by (apply Z.mul_le_mono_nonneg_r; lia).
      destruct (Z.compare_spec (score * N) (Z.pos mant)); try (exfalso; lia);
        symmetry; apply Z.ltb_ge; lia.
Qed.


(** ** The composite scorer *)

Lemma total_filter_points (state : gmap string Z) (l : list rule) :
  total (map (fun r => rule_points r (value_of state r))
             (filter (fun r => triggered state r = true) l))
  = total (map (fun r => if triggered state r
                         then rule_points r (value_of state r) else 0) l).
Proof.
  unfold total. induction l as [|r l IH]; [reflexivity|].
  rewrite filter_cons. cbn [map foldr]. destruct (triggered state r) eqn:E.
  - rewrite decide_True by done. cbn [map foldr]. rewrite IH. reflexivity.
  - rewrite decide_False by done. rewrite IH. lia.
Qed.

(** One rule block adds its points when its test passes and nothing
    otherwise; it raises only when the key is missing. *)
Lemma score_rule_present state key test points label acc v :
  state !! key = Some v ->
  exists acc',
    score_rule state key test points label acc = Ok acc' /\
    fst acc' = fst acc + (if test v then points v else 0).
Proof.
  intros H. unfold score_rule, getitem. rewrite H. cbn [rbind].
  eexists. split; [reflexivity|]. destruct (test v); cbn [fst]; lia.
Qed.

Lemma calculate_score_total state :
  has_indicators state ->
  exists score reasons,
    calculate_score state = Ok (score, reasons) /\
    score = total (contributions state) /\
    Forall (fun c => 0 <= c) (contributions state) /\
    0 <= score <= 150.
Proof.
  intros H. unfold has_indicators, indicator_keys in H.
  repeat (apply Forall_cons in H; destruct H as [[? ?] H]).
  unfold calculate_score.
  repeat
    match goal with
    | |- context [score_rule state ?k ?t ?p ?l ?a] =>
        let acc := fresh "acc" in
        let E := fresh "E" in
        let F := fresh "F" in
        edestruct (score_rule_present state k t p l a) as (acc & E & F);
        [eassumption|]; rewrite E; clear E; cbn [rbind]
    end.
  destruct acc5 as [score reasons]. exists score, reasons.
  split; [reflexivity|].
  cbn [fst] in *.
  assert (Hsum : total (contributions state) = score).
  { unfold contributions. rewrite total_filter_points.
    unfold triggered, value_of, spec_rules.
    cbn [map rule_key rule_test rule_points total foldr].
    repeat match goal with H : _ !! _ = Some _ |- _ => rewrite H; clear H end.
    cbn [default from_option id]. rewrite F5, F4, F3, F2, F1, F0, F.
    rewrite !(Z.mul_comm (Z.min _ _)). lia. }
  split; [done|].
  split.
  { unfold contributions. apply Forall_map, Forall_forall.
    intros r [Ht Hr]%list_elem_of_filter. unfold triggered in Ht.
    unfold spec_rules in Hr.
    repeat (apply elem_of_cons in Hr; destruct Hr as [->|Hr]);
      [..|by apply elem_of_nil in Hr]; cbn [rule_points rule_test] in *; lia. }
  rewrite F5, F4, F3, F2, F1, F0, F.
  assert (Hb : forall (b : bool) (p : Z), 0 <= p -> 0 <= (if b then p else 0) <= p)
    by (intros [] ?; lia).
  pose proof (Hb (0 <? x2) 25 ltac:(lia)).
  pose proof (Hb (0 <? x1) 10 ltac:(lia)).
  pose proof (Hb (3 <? x) 5 ltac:(lia)).
  pose proof (Hb (0 <? x4) 10 ltac:(lia)).
  pose proof (Hb (0 <? x5) 10 ltac:(lia)).
  assert (0 <= (if 0 <? x3 then 20 * Z.min x3 3 else 0) <= 60)
    by (destruct (Z.ltb_spec 0 x3); lia).
  assert (0 <= (if 0 <? x0 then 15 * Z.min x0 2 else 0) <= 30)
    by (destruct (Z.ltb_spec 0 x0); lia).
  lia.
Qed.

(** ** The indicator source *)

Lemma run_command_safe_spec cmd timeout m :
  run_command_safe cmd timeout m
  = (m, Ok (probe_output (envs m (clock m)) cmd timeout)).
Proof.
  unfold run_command_safe, try_except, subprocess_run, bind, current_env, gets,
    probe_output.
  destruct (shell (envs m (clock m)) cmd timeout); reflexivity.
Qed.

(** [int] raises nothing but [ValueError]. *)
Lemma count_of_raises output e : count_of output = Raise e -> e = ValueError.
Proof.
  unfold count_of, PyStr.int.
  destruct (PyStr.isdigit output); [|discriminate].
  destruct (PyStr.rstrip_with _ _) as [|c s'];
    [|destruct (c =? 45)%N; [|destruct (c =? 43)%N]];
    (destruct (PyStr.int_digits _ _ _ _) as [[v n]|];
     [destruct (_ <? _)%nat|]); congruence.
Qed.

(** [get_audio_state] in full: the detector is left as it was; the
    snapshot is returned when every probe can be read, and [ValueError]
    is raised otherwise. *)
Lemma get_audio_state_cases m :
  get_audio_state m
  = (m, if readable (envs m (clock m)) then Ok (snapshot (envs m (clock m)))
        else Raise ValueError).
Proof.
  unfold get_audio_state, readable, snapshot, probes, count_or_zero.
  cbn [forallb map fst snd]. unfold bind, lift.
  repeat (rewrite run_command_safe_spec; cbv beta iota;
          match goal with
          | |- context [count_of ?o] =>
              let E := fresh "E" in
              destruct (count_of o) eqn:E; cbn [andb];
              [|by rewrite (count_of_raises _ _ E)]
          end).
  reflexivity.
Qed.

Lemma get_audio_state_spec m :
  readable (envs m (clock m)) = true ->
  get_audio_state m = (m, Ok (snapshot (envs m (clock m)))).
Proof. intros H. by rewrite get_audio_state_cases, H. Qed.

Lemma get_audio_state_unreadable m :
  readable (envs m (clock m)) = false ->
  get_audio_state m = (m, Raise ValueError).
Proof. intros H. by rewrite get_audio_state_cases, H. Qed.

Lemma get_audio_state_frame m : fst (get_audio_state m) = m.
Proof. by rewrite get_audio_state_cases. Qed.

Lemma snapshot_has_indicators e : has_indicators (snapshot e).
Proof.
  unfold has_indicators, indicator_keys.
  repeat (apply Forall_cons; split; [eexists; reflexivity|]).
  apply Forall_nil. done.
Qed.

Lemma snapshot_lookup e key cmd timeout :
  (key, cmd, timeout) ∈ probes ->
  snapshot e !! key = Some (count_or_zero (probe_output e cmd timeout)).
Proof.
  unfold probes. intros H.
  repeat (apply elem_of_cons in H; destruct H as [[= -> -> ->]|H]; [reflexivity|]).
  by apply elem_of_nil in H.
Qed.

Lemma count_of_unusable output :
  PyStr.isdigit output = false -> count_of output = Ok 0.
Proof. unfold count_of. intros ->. reflexivity. Qed.



(** ** Slices, sums and the bounded history *)

Lemma sum_fold (l : list Z) (a : Z) : fold_left Z.add l a = a + total l.
Proof.
  unfold total. revert a. induction l as [|x l IH]; intros a; cbn [fold_left foldr].
  - lia.
  - rewrite IH. lia.
Qed.

Lemma sum_total l : Py.sum l = total l.
Proof. unfold Py.sum. rewrite sum_fold. lia. Qed.

Lemma total_small_bound (l : list Z) :
  Forall small l -> Z.abs (total l) <= Z.of_nat (length l) * 2 ^ 1000.
Proof.
  unfold small, total. induction 1 as [|x l Hx Hl IH]; cbn [foldr length].
  - simpl. lia.
  - rewrite Nat2Z.inj_succ. lia.
Qed.

Lemma sum_small3 (l : list Z) :
  Forall small l -> (length l <= 3)%nat -> Z.abs (Py.sum l) < 2 ^ 1023.
Proof.
  intros Hs Hl. rewrite sum_total.
  pose proof (total_small_bound l Hs) as Hb.
  assert (Z.of_nat (length l) * 2 ^ 1000 <= 3 * 2 ^ 1000) by nia.
  assert (3 * 2 ^ 1000 < 2 ^ 1023).
  { change (2 ^ 1023) with (2 ^ 23 * 2 ^ 1000). 
    assert (0 < 2 ^ 1000) by (apply Z.pow_pos_nonneg; lia).
    change (2 ^ 23) with 8388608. nia. }
  lia.
Qed.

Lemma slice_tail3 {A} (l : list A) :
  PyList.slice l (Some (-3)) None = drop (length l - 3) l.
Proof.
  unfold PyList.slice, PyList.slice_index. cbn [Z.ltb Z.compare].
  replace (Z.to_nat (Z.max (Z.of_nat (length l) + -3) 0)) with (length l - 3)%nat by lia.
  apply take_ge. rewrite length_drop. lia.
Qed.

Lemma slice_mid3 {A} (l : list A) :
  (6 <= length l)%nat ->
  PyList.slice l (Some (-6)) (Some (-3)) = take 3 (drop (length l - 6) l).
Proof.
  intros H. unfold PyList.slice, PyList.slice_index. cbn [Z.ltb Z.compare].
  f_equal; [lia|]. f_equal. lia.
Qed.

Lemma slice_tail3_app {A} (pre : list A) a b c :
  PyList.slice (pre ++ [a; b; c]) (Some (-3)) None = [a; b; c].
Proof.
  rewrite slice_tail3, length_app. cbn [length].
  replace (length pre + 3 - 3)%nat with (length pre) by lia.
  apply drop_app_length.
Qed.

Lemma slice_mid3_app {A} (pre : list A) a b c d e f :
  PyList.slice (pre ++ [a; b; c; d; e; f]) (Some (-6)) (Some (-3)) = [a; b; c].
Proof.
  rewrite slice_mid3 by (rewrite length_app; cbn [length]; lia).
  rewrite length_app. cbn [length].
  replace (length pre + 6 - 6)%nat with (length pre) by lia.
  rewrite drop_app_length. reflexivity.
Qed.

Lemma deque_append_spec d x :
  (length d <= PyList.maxlen)%nat ->
  PyList.deque_append d x
  = drop (length (d ++ [x]) - PyList.maxlen) (d ++ [x]).
Proof.
  intros H. unfold PyList.deque_append. rewrite length_app. cbn [length].
  destruct (Nat.ltb_spec PyList.maxlen (length d + 1)).
  - f_equal. lia.
  - replace (length d + 1 - PyList.maxlen)%nat with O by lia. reflexivity.
Qed.

(** The bounded history holds the last ten scores pushed. *)
Lemma pushed_spec l : pushed l = drop (length l - PyList.maxlen) l.
Proof.
  induction l as [|x l IH] using rev_ind; [reflexivity|].
  unfold pushed in *. rewrite fold_left_app. cbn [fold_left]. rewrite IH.
  rewrite deque_append_spec by (rewrite length_drop; unfold PyList.maxlen; lia).
  rewrite length_app, length_drop, !length_app. cbn [length].
  rewrite <- drop_app_le by lia.
  rewrite drop_drop. f_equal. unfold PyList.maxlen. lia.
Qed.

Lemma pushed_snoc l x : pushed (l ++ [x]) = PyList.deque_append (pushed l) x.
Proof. unfold pushed. rewrite fold_left_app. reflexivity. Qed.

Lemma pushed_length l : length (pushed l) = Nat.min (length l) PyList.maxlen.
Proof. rewrite pushed_spec, length_drop. lia. Qed.

Lemma pushed_tail6 (l pre six : list Z) :
  l = pre ++ six -> length six = 6%nat ->
  exists pre', pushed l = pre' ++ six.
Proof.
  intros -> H6. rewrite pushed_spec, length_app, H6.
  exists (drop (length pre + 6 - PyList.maxlen) pre).
  rewrite drop_app_le by (unfold PyList.maxlen; lia). reflexivity.
Qed.

Lemma deque_append_small d x :
  Forall small d -> small x -> Forall small (PyList.deque_append d x).
Proof.
  intros Hd Hx. unfold PyList.deque_append.
  assert (Forall small (d ++ [x])) by (apply Forall_app; split; [done|by constructor]).
  destruct (_ <? _)%nat; [apply Forall_drop|]; done.
Qed.

(** ** The trend *)

Section Trend.
Import FloatFacts.

Variable history : list Z.
Hypothesis Hsmall : Forall small history.

Lemma recent_avg_ok :
  exists f, Py.int_truediv (Py.sum (PyList.slice history (Some (-3)) None)) 3 = Ok f
            /\ is_finite f = true.
Proof.
  apply int_truediv_ok; [|lia]. apply sum_small3.
  - rewrite slice_tail3. by apply Forall_drop.
  - rewrite slice_tail3, length_drop. lia.
Qed.

Lemma older_avg_ok :
  exists f, Py.int_truediv (Py.sum (PyList.slice history (Some (-6)) (Some (-3)))) 3 = Ok f
            /\ is_finite f = true.
Proof.
  apply int_truediv_ok; [|lia]. apply sum_small3.
  - unfold PyList.slice. by apply Forall_take, Forall_drop.
  - unfold PyList.slice, PyList.slice_index. rewrite length_take. cbn [Z.ltb Z.compare]. lia.
Qed.

Lemma compute_trend_ok : exists t, compute_trend history = Ok t.
Proof.
  unfold compute_trend.
  destruct recent_avg_ok as (r & -> & _), older_avg_ok as (o & -> & _).
  destruct (3 <=? length history)%nat; [|eauto].
  destruct (6 <=? length history)%nat; cbn [rbind]; eauto.
Qed.

Lemma compute_trend_short :
  (length history < 6)%nat ->
  exists t, compute_trend history = Ok t /\ is_zero t.
Proof.
  intros Hlen. unfold compute_trend, is_zero.
  destruct recent_avg_ok as (r & -> & Hr).
  destruct (Nat.leb_spec 3 (length history)); [|eauto].
  destruct (Nat.leb_spec 6 (length history)); [lia|].
  cbn [rbind]. rewrite SFsub_diag by done. eauto.
Qed.

End Trend.

Lemma compute_trend_six (pre : list Z) a b c d e f :
  Forall small (pre ++ [a; b; c; d; e; f]) ->
  exists recent older,
    Py.int_truediv (d + e + f) 3 = Ok recent /\
    Py.int_truediv (a + b + c) 3 = Ok older /\
    compute_trend (pre ++ [a; b; c; d; e; f])
    = Ok (Py.Float (SFsub Py.prec Py.emax recent older)).
Proof.
  intros Hs.
  destruct (recent_avg_ok _ Hs) as (r & Hr & _), (older_avg_ok _ Hs) as (o & Ho & _).
  unfold compute_trend. rewrite Hr, Ho.
  rewrite slice_mid3_app in Ho.
  change (pre ++ [a; b; c; d; e; f]) with (pre ++ [a; b; c] ++ [d; e; f]) in Hr.
  rewrite app_assoc, slice_tail3_app in Hr.
  unfold Py.sum in Hr, Ho. cbn [fold_left] in Hr, Ho.
  exists r, o. split; [done|]. split; [done|].
  rewrite length_app. cbn [length].
  destruct (Nat.leb_spec 3 (length pre + 6)); [|lia].
  destruct (Nat.leb_spec 6 (length pre + 6)); [|lia].
  reflexivity.
Qed.


(** ** Change detection *)

Lemma add_int_ok (b : Py.num) (k : Z) :
  small k -> exists v, Py.add b (Py.Int k) = Ok v.
Proof.
  intros Hk. destruct b as [z|f]; cbn [Py.add]; [eauto|].
  cbn [Py.to_float rbind].
  destruct (FloatFacts.int_to_float_ok k) as (g & -> & _); [|cbn [rbind]; eauto].
  unfold small in Hk. assert (2 ^ 1000 < 2 ^ 1023) by (apply Z.pow_lt_mono_r; lia). lia.
Qed.

Lemma small_const k : Z.abs k < 1000 -> small k.
Proof.
  unfold small. intros H.
  assert (2 ^ 10 <= 2 ^ 1000) by (apply Z.pow_le_mono_r; lia).
  change (2 ^ 10) with 1024 in *. lia.
Qed.

Lemma mul_ratio_ok (peak : Z) :
  small peak -> exists r, Py.mul (Py.Int peak) (Py.Float Py.c0_7) = Ok r.
Proof.
  intros Hk. cbn [Py.mul Py.to_float].
  destruct (FloatFacts.int_to_float_ok peak) as (g & -> & _); [|cbn [rbind]; eauto].
  unfold small in Hk. assert (2 ^ 1000 < 2 ^ 1023) by (apply Z.pow_lt_mono_r; lia). lia.
Qed.

(** Whatever happens, [detect_huddle_change] changes the history and
    nothing else. *)
Lemma detect_huddle_change_frame score m :
  fst (detect_huddle_change score m)
  = set_score_history (PyList.deque_append (score_history m) score) m.
Proof.
  unfold detect_huddle_change, bind, modify, gets, lift, ret.
  cbn [score_history set_score_history baseline_score in_huddle huddle_peak_score].
  destruct (compute_trend _); [|reflexivity].
  destruct (Py.add _ (Py.Int 25)); [|reflexivity].
  destruct (in_huddle m); [|reflexivity].
  destruct (Py.mul _ _); [|reflexivity].
  destruct (Py.add _ (Py.Int 10)); reflexivity.
Qed.

Lemma detect_huddle_change_idle score m :
  in_huddle m = false ->
  Forall small (score :: score_history m) ->
  exists trend,
    compute_trend (PyList.deque_append (score_history m) score) = Ok trend /\
    detect_huddle_change score m
    = (set_score_history (PyList.deque_append (score_history m) score) m,
       Ok (start_condition (baseline_score m) score trend, false, trend)).
Proof.
  intros Hidle [Hs Hh]%Forall_cons.
  destruct (compute_trend_ok _ (deque_append_small _ _ Hh Hs)) as [trend Ht].
  exists trend. split; [done|].
  unfold detect_huddle_change, bind, modify, gets, lift, ret, start_condition.
  cbn [score_history set_score_history baseline_score in_huddle huddle_peak_score].
  rewrite Ht, Hidle.
  destruct (add_int_ok (baseline_score m) 25) as [raised ->]; [by apply small_const|].
  reflexivity.
Qed.

Lemma detect_huddle_change_active score m :
  in_huddle m = true ->
  Forall small (huddle_peak_score m :: score :: score_history m) ->
  exists trend,
    compute_trend (PyList.deque_append (score_history m) score) = Ok trend /\
    detect_huddle_change score m
    = (set_score_history (PyList.deque_append (score_history m) score) m,
       Ok (false,
           end_condition (baseline_score m) (huddle_peak_score m) score trend,
           trend)).
Proof.
  intros Hact [Hp [Hs Hh]%Forall_cons]%Forall_cons.
  destruct (compute_trend_ok _ (deque_append_small _ _ Hh Hs)) as [trend Ht].
  exists trend. split; [done|].
  unfold detect_huddle_change, bind, modify, gets, lift, ret, end_condition.
  cbn [score_history set_score_history baseline_score in_huddle huddle_peak_score].
  rewrite Ht, Hact.
  destruct (add_int_ok (baseline_score m) 25) as [raised ->]; [by apply small_const|].
  cbn [huddle_peak_score set_score_history].
  destruct (mul_ratio_ok (huddle_peak_score m) Hp) as [ratio ->].
  destruct (add_int_ok (baseline_score m) 10) as [near ->]; [by apply small_const|].
  reflexivity.
Qed.

(** ** One tick of the state machine *)

(** Every way through [handle_transitions], by the answer of
    [detect_huddle_change]. *)
Lemma handle_transitions_raise score reasons m m1 e :
  detect_huddle_change score m = (m1, Raise e) ->
  handle_transitions score reasons m = (m1, Raise e).
Proof. intros Hd. unfold handle_transitions, bind. rewrite Hd. reflexivity. Qed.

Lemma format_f_fits x : fits_double x -> Py.format_f x = Ok tt.
Proof.
  destruct x as [z|g]; unfold Py.format_f; cbn [Py.to_float]; [|done]. intros Hz.
  destruct (FloatFacts.int_to_float_ok z) as (g & -> & _); [|done].
  unfold fits_double, small in Hz.
  assert (2 ^ 1000 < 2 ^ 1023) by (apply Z.pow_lt_mono_r; lia). lia.
Qed.

Lemma format_f_raises x e : Py.format_f x = Raise e -> e = OverflowError.
Proof.
  destruct x as [z|g]; unfold Py.format_f; cbn [Py.to_float]; [|discriminate].
  unfold Py.int_to_float. destruct (binary_normalize _ _ _ _ _); intros [=]; done.
Qed.

Lemma blocked_start_fits m should_start :
  fits_double (baseline_score m) -> blocked_start m should_start = false.
Proof.
  intros H. unfold blocked_start. rewrite (format_f_fits _ H).
  apply andb_false_r.
Qed.

Lemma handle_transitions_ok score reasons m m1 should_start should_end trend :
  detect_huddle_change score m = (m1, Ok (should_start, should_end, trend)) ->
  blocked_start m should_start = false ->
  exists m',
    handle_transitions score reasons m = (m', Ok trend) /\
    score_history m' = score_history m1 /\
    if should_start then
      consecutive_ends m' = 0 /\
      if 2 <=? consecutive_starts m + 1 then
        in_huddle m' = true /\ huddle_peak_score m' = score /\
        consecutive_starts m' = 0 /\ baseline_score m' = baseline_score m
      else
        in_huddle m' = in_huddle m /\ huddle_peak_score m' = updated_peak m score /\
        consecutive_starts m' = consecutive_starts m + 1 /\
        baseline_score m' = baseline_score m
    else if should_end then
      consecutive_starts m' = 0 /\
      if 2 <=? consecutive_ends m + 1 then
        in_huddle m' = false /\ huddle_peak_score m' = 0 /\
        consecutive_ends m' = 0 /\ baseline_score m' = Py.Int score
      else
        in_huddle m' = in_huddle m /\ huddle_peak_score m' = updated_peak m score /\
        consecutive_ends m' = consecutive_ends m + 1 /\
        baseline_score m' = baseline_score m
    else
      consecutive_starts m' = 0 /\ consecutive_ends m' = 0 /\
      in_huddle m' = in_huddle m /\ huddle_peak_score m' = updated_peak m score /\
      baseline_score m' = baseline_score m.
Proof.
  intros Hd Hbl.
  pose proof (detect_huddle_change_frame score m) as Hf.
  rewrite Hd in Hf. cbn [fst] in Hf. subst m1.
  unfold handle_transitions, bind. rewrite Hd. clear Hd. unfold updated_peak.
  unfold modify, gets, ret, print, current_env, lift.
  unfold blocked_start in Hbl.
  destruct should_start; [|destruct should_end].
  - cbn [consecutive_starts set_consecutive_starts set_consecutive_ends set_score_history].
    destruct (2 <=? consecutive_starts m + 1).
    + cbn [andb] in Hbl. cbn.
      destruct (Py.format_f (baseline_score m)) as [[]|]; [|discriminate].
      cbn. rewrite Z.ltb_irrefl. cbn. eexists. split; [reflexivity|]. cbn. done.
    + cbn. destruct (in_huddle m && (huddle_peak_score m <? score));
        cbn; eexists; (split; [reflexivity|]); cbn; done.
  - cbn [consecutive_ends set_consecutive_starts set_consecutive_ends set_score_history].
    destruct (2 <=? consecutive_ends m + 1).
    + cbn. eexists. split; [reflexivity|]. cbn. done.
    + cbn. destruct (in_huddle m && (huddle_peak_score m <? score));
        cbn; eexists; (split; [reflexivity|]); cbn; done.
  - cbn. destruct (in_huddle m && (huddle_peak_score m <? score));
        cbn; eexists; (split; [reflexivity|]); cbn; done.
Qed.

(** The tick on which the start announcement cannot be completed: the
    start is counted, the first line of the announcement is printed, and
    [OverflowError] is raised before the phase changes. *)
Lemma handle_transitions_blocked score reasons m m1 should_start should_end trend :
  detect_huddle_change score m = (m1, Ok (should_start, should_end, trend)) ->
  blocked_start m should_start = true ->
  should_start = true /\ 2 <= consecutive_starts m + 1 /\
  handle_transitions score reasons m
  = (set_stdout (PrintStartedHeader (now (envs m (clock m))) :: stdout m)
       (set_consecutive_ends 0
          (set_consecutive_starts (consecutive_starts m + 1)
             (set_score_history (PyList.deque_append (score_history m) score) m))),
     Raise OverflowError).
Proof.
  intros Hd Hbl.
  pose proof (detect_huddle_change_frame score m) as Hf.
  rewrite Hd in Hf. cbn [fst] in Hf. subst m1.
  unfold blocked_start in Hbl.
  apply andb_prop in Hbl as [Hbl Hfmt]. apply andb_prop in Hbl as [-> H2].
  split; [done|]. split; [by apply Z.leb_le|].
  unfold handle_transitions, bind. rewrite Hd. clear Hd.
  unfold modify, gets, ret, print, current_env, lift.
  cbn [consecutive_starts set_consecutive_starts set_consecutive_ends set_score_history].
  rewrite H2. cbn.
  destruct (Py.format_f (baseline_score m)) as [[]|e] eqn:E; [discriminate|].
  by rewrite (format_f_raises _ _ E).
Qed.

(** ** Claims about the scorer and the indicator source *)

(** C4. For every indicator snapshot holding the seven keys, the scorer
    returns a score that is the sum of the contributions of the triggered
    rules; every contribution is non-negative and so is the score. *)
Theorem score_is_sum_of_contributions (state : gmap string Z) :
  has_indicators state ->
  exists score reasons,
    calculate_score state = Ok (score, reasons) /\
    score = total (contributions state) /\
    Forall (fun c => 0 <= c) (contributions state) /\
    0 <= score.
Proof.
  intros H.
  destruct (calculate_score_total state H) as (score & reasons & Hc & Hs & Hf & Hb).
  exists score, reasons. repeat split; [done..|lia].
Qed.

Lemma score_is_sum_of_contributions_witness :
  exists score reasons,
    calculate_score busy_state = Ok (score, reasons) /\
    score = total (contributions busy_state) /\
    Forall (fun c => 0 <= c) (contributions busy_state) /\
    0 <= score.
Proof.
  apply (score_is_sum_of_contributions busy_state).
  unfold has_indicators, indicator_keys.
  repeat (apply Forall_cons; split; [eexists; vm_compute; reflexivity|]).
  apply Forall_nil. exact I.
Defined.

Example busy_state_score :
  calculate_score busy_state
  = Ok (95, ["Audio power: 1"; "Slack assertions: 2"; "Audio units: 1";
             "Audio FDs: 5"; "IO clients: 1"]%string).
Proof. vm_compute. reflexivity. Qed.

(** Where every probe can be read, a probe whose output [isdigit]
    rejects (empty, not a number, or no output at all because the
    command failed) yields the value 0; the snapshot holds the seven
    keys, and the scorer returns a score on it. *)
Lemma unusable_probe_counts_zero (m : machine) :
  readable (envs m (clock m)) = true ->
  exists state,
    get_audio_state m = (m, Ok state) /\
    has_indicators state /\
    (forall key cmd timeout,
        (key, cmd, timeout) ∈ probes ->
        PyStr.isdigit (probe_output (envs m (clock m)) cmd timeout) = false ->
        state !! key = Some 0) /\
    (forall key cmd timeout,
        (key, cmd, timeout) ∈ probes ->
        shell (envs m (clock m)) cmd timeout = Completed [] \/
        (exists e, shell (envs m (clock m)) cmd timeout = Failed e) ->
        state !! key = Some 0) /\
    exists score reasons, calculate_score state = Ok (score, reasons).
Proof.
  intros Hr. exists (snapshot (envs m (clock m))).
  split; [by apply get_audio_state_spec|].
  split; [apply snapshot_has_indicators|].
  split; [|split].
  - intros key cmd timeout Hin Hbad.
    rewrite (snapshot_lookup _ _ _ _ Hin). unfold count_or_zero.
    by rewrite count_of_unusable.
  - intros key cmd timeout Hin Hbad.
    rewrite (snapshot_lookup _ _ _ _ Hin). unfold count_or_zero.
    rewrite count_of_unusable; [done|].
    unfold probe_output. destruct Hbad as [-> | [e ->]]; reflexivity.
  - destruct (calculate_score_total _ (snapshot_has_indicators (envs m (clock m))))
      as (score & reasons & Hc & _).
    eauto.
Qed.


(** ** Claims about the history and the trend *)

(** C5. After any sequence of scores was pushed, the trend that
    [detect_huddle_change] derives is zero while fewer than six scores
    were pushed (with three to five of them it is the recent average
    minus itself), and from six scores on it is the average of the last
    three minus the average of the three before them. *)
Theorem trend_of_pushed_scores (m : machine) (l : list Z) (x : Z) :
  score_history m = pushed l ->
  Forall small (l ++ [x]) ->
  (in_huddle m = true -> small (huddle_peak_score m)) ->
  exists m' should_start should_end trend,
    detect_huddle_change x m = (m', Ok (should_start, should_end, trend)) /\
    score_history m' = pushed (l ++ [x]) /\
    ((length (l ++ [x]) < 6)%nat -> is_zero trend) /\
    (forall pre a b c d e f,
        l ++ [x] = pre ++ [a; b; c; d; e; f] ->
        exists recent older,
          Py.int_truediv (d + e + f) 3 = Ok recent /\
          Py.int_truediv (a + b + c) 3 = Ok older /\
          trend = Py.Float (SFsub Py.prec Py.emax recent older)).
Proof.
  intros Hh [Hl Hx]%Forall_app Hp.
  apply Forall_cons in Hx as [Hx _].
  assert (Hhs : Forall small (score_history m)).
  { rewrite Hh, pushed_spec. by apply Forall_drop. }
  assert (Hd : exists should_start should_end trend,
             compute_trend (PyList.deque_append (score_history m) x) = Ok trend /\
             detect_huddle_change x m
             = (set_score_history (PyList.deque_append (score_history m) x) m,
                Ok (should_start, should_end, trend))).
  { destruct (in_huddle m) eqn:Ha.
    - destruct (detect_huddle_change_active x m Ha) as (t & Ht & Hd); [|eauto 6].
      repeat constructor; auto.
    - destruct (detect_huddle_change_idle x m Ha) as (t & Ht & Hd); [|eauto 6].
      by constructor. }
  destruct Hd as (st & en & trend & Ht & Hd).
  rewrite Hh, <- pushed_snoc in Ht.
  eexists _, st, en, trend. split; [exact Hd|].
  split; [cbn [score_history set_score_history]; by rewrite Hh, pushed_snoc|].
  assert (Hps : Forall small (pushed (l ++ [x]))).
  { rewrite pushed_spec. apply Forall_drop, Forall_app. split; [done|by constructor]. }
  split.
  - intros Hlen.
    destruct (compute_trend_short (pushed (l ++ [x])) Hps) as (t & Ht' & Hz).
    { rewrite pushed_length. lia. }
    congruence.
  - intros pre a b c d e f Hsix.
    destruct (pushed_tail6 (l ++ [x]) pre [a; b; c; d; e; f] Hsix eq_refl) as [pre' Hp'].
    rewrite Hp' in Ht, Hps.
    destruct (compute_trend_six pre' a b c d e f Hps) as (r & o & Hr & Ho & Ht').
    exists r, o. split; [done|]. split; [done|]. congruence.
Qed.

Lemma trend_of_pushed_scores_witness :
  exists m' should_start should_end trend,
    detect_huddle_change 57 (set_score_history (pushed [26; 15; 15; 4; 3; 19]) fresh)
    = (m', Ok (should_start, should_end, trend)) /\
    score_history m' = pushed ([26; 15; 15; 4; 3; 19] ++ [57]) /\
    ((length ([26; 15; 15; 4; 3; 19] ++ [57]) < 6)%nat -> is_zero trend) /\
    (forall pre a b c d e f,
        [26; 15; 15; 4; 3; 19] ++ [57] = pre ++ [a; b; c; d; e; f] ->
        exists recent older,
          Py.int_truediv (d + e + f) 3 = Ok recent /\
          Py.int_truediv (a + b + c) 3 = Ok older /\
          trend = Py.Float (SFsub Py.prec Py.emax recent older)).
Proof.
  apply (trend_of_pushed_scores
           (set_score_history (pushed [26; 15; 15; 4; 3; 19]) fresh)
           [26; 15; 15; 4; 3; 19] 57).
  - reflexivity.
  - repeat constructor; apply small_const; lia.
  - vm_compute. discriminate.
Defined.

(** Rounding at the boundary: the last three scores average 26/3, the
    three before them 56/3; the exact difference is -10, the trend as
    computed is the next double below it, and so [trend < -10] holds. *)
Example trend_just_below_minus_ten :
  compute_trend [20; 18; 18; 10; 8; 8]
  = Ok (Py.Float (S754_finite true 5629499534213121 (-49))) /\
  Py.lt (Py.Float (S754_finite true 5629499534213121 (-49))) (Py.Int (-10)) = true.
Proof. vm_compute. split; reflexivity. Qed.

(** ** Claims about the state machine *)

Lemma start_condition_eq baseline score trend raised :
  Py.add baseline (Py.Int 25) = Ok raised ->
  start_condition baseline score trend
  = Py.ge (Py.Int score) (Py.max (Py.Int 50) raised) && Py.ge trend (Py.Int 0).
Proof. intros H. unfold start_condition. rewrite H. reflexivity. Qed.

Lemma end_condition_eq baseline peak score trend ratio near :
  Py.mul (Py.Int peak) (Py.Float Py.c0_7) = Ok ratio ->
  Py.add baseline (Py.Int 10) = Ok near ->
  end_condition baseline peak score trend
  = Py.lt (Py.Int score) ratio || Py.le (Py.Int score) near
    || (Py.lt trend (Py.Int (-10)) && Py.lt (Py.Int score) (Py.Int 50)).
Proof. intros H1 H2. unfold end_condition. rewrite H1, H2. reflexivity. Qed.



(** With an int baseline beyond the range of a double the second tick
    counts the start, prints the first line of the announcement and
    raises before the phase changes. *)
Example start_blocked_by_baseline :
  let m := set_consecutive_starts 1 (set_baseline_score (Py.Int (- 2 ^ 1100)) fresh) in
  snd (handle_transitions 60 [] m) = Raise OverflowError /\
  in_huddle (fst (handle_transitions 60 [] m)) = false /\
  consecutive_starts (fst (handle_transitions 60 [] m)) = 2.
Proof. vm_compute. repeat split. Qed.

(** The test of the specification: baseline 10 and the scores 60, 60. *)
Example sixty_sixty :
  let m0 := set_baseline_score (Py.Int 10) fresh in
  in_huddle (feed [60] m0) = false /\
  consecutive_starts (feed [60] m0) = 1 /\
  in_huddle (feed [60; 60] m0) = true /\
  huddle_peak_score (feed [60; 60] m0) = 60 /\
  consecutive_starts (feed [60; 60] m0) = 0 /\
  consecutive_ends (feed [60; 60] m0) = 0.
Proof. vm_compute. repeat split. Qed.

(** One tick from ACTIVE, by the value of the end condition. *)
Lemma active_tick (m : machine) (score : Z) (reasons : list string) :
  in_huddle m = true ->
  Forall small (huddle_peak_score m :: score :: score_history m) ->
  exists trend m',
    detect_huddle_change score m
    = (set_score_history (PyList.deque_append (score_history m) score) m,
       Ok (false,
           end_condition (baseline_score m) (huddle_peak_score m) score trend,
           trend)) /\
    handle_transitions score reasons m = (m', Ok trend) /\
    score_history m' = PyList.deque_append (score_history m) score /\
    consecutive_starts m' = 0 /\
    if end_condition (baseline_score m) (huddle_peak_score m) score trend then
      if 2 <=? consecutive_ends m + 1 then
        in_huddle m' = false /\ huddle_peak_score m' = 0 /\
        consecutive_ends m' = 0 /\ baseline_score m' = Py.Int score
      else
        in_huddle m' = true /\ huddle_peak_score m' = updated_peak m score /\
        consecutive_ends m' = consecutive_ends m + 1 /\
        baseline_score m' = baseline_score m
    else
      consecutive_ends m' = 0 /\
      in_huddle m' = true /\ huddle_peak_score m' = updated_peak m score /\
      baseline_score m' = baseline_score m.
Proof.
  intros Hact Hs.
  destruct (detect_huddle_change_active score m Hact Hs) as (trend & _ & Hd).
  destruct (handle_transitions_ok score reasons m _ _ _ _ Hd eq_refl)
    as (m' & Hh & Hhist & Hcase).
  exists trend, m'. split; [done|]. split; [done|]. split; [done|].
  cbv iota in Hcase. rewrite Hact in Hcase.
  destruct (end_condition _ _ _ _).
  - destruct Hcase as [? Hcase]. split; [done|].
    destruct (2 <=? consecutive_ends m + 1); done.
  - destruct Hcase as (? & ? & ? & ? & ?). done.
Qed.

Lemma end_condition_69 baseline trend :
  baseline = Py.Int 10 \/
  baseline = Py.Float (S754_finite false 5629499534213120 (-49)) ->
  end_condition baseline 100 69 trend = true.
Proof. intros [-> | ->]; reflexivity. Qed.

Lemma end_condition_71 baseline trend :
  baseline = Py.Int 10 \/
  baseline = Py.Float (S754_finite false 5629499534213120 (-49)) ->
  end_condition baseline 100 71 trend = false.
Proof.
  intros [-> | ->]; unfold end_condition;
    change (Py.lt (Py.Int 71) (Py.Int 50)) with false;
    rewrite andb_false_r; reflexivity.
Qed.

Lemma feed_one s m : feed [s] m = fst (handle_transitions s [] m).
Proof. reflexivity. Qed.

Lemma feed_two s1 s2 m : feed [s1; s2] m = feed [s2] (feed [s1] m).
Proof. reflexivity. Qed.

Lemma peak100_tick_69 m :
  peak100_baseline10 m -> consecutive_ends m = 0 ->
  peak100_baseline10 (feed [69] m) /\ consecutive_ends (feed [69] m) = 1.
Proof.
  intros (Ha & Hp & Hb & Hh) He.
  destruct (active_tick m 69 [] Ha) as (trend & m' & _ & Hm' & Hhist & _ & Hcase).
  { rewrite Hp. repeat constructor; done. }
  rewrite feed_one, Hm'. cbn [fst].
  rewrite Hp, (end_condition_69 _ trend Hb), He in Hcase. cbn in Hcase.
  destruct Hcase as (? & Hpk & ? & Hbb).
  unfold updated_peak in Hpk. rewrite Ha, Hp in Hpk. cbn in Hpk.
  split; [|done]. split; [done|]. split; [done|]. split; [by rewrite Hbb|].
  rewrite Hhist. apply deque_append_small; [done|]. by apply small_const.
Qed.

Lemma peak100_tick_69_again m :
  peak100_baseline10 m -> consecutive_ends m = 1 ->
  in_huddle (feed [69] m) = false.
Proof.
  intros (Ha & Hp & Hb & Hh) He.
  destruct (active_tick m 69 [] Ha) as (trend & m' & _ & Hm' & Hhist & _ & Hcase).
  { rewrite Hp. repeat constructor; done. }
  rewrite feed_one, Hm'. cbn [fst].
  rewrite Hp, (end_condition_69 _ trend Hb), He in Hcase. cbn in Hcase.
  by destruct Hcase as (? & _).
Qed.

Lemma peak100_tick_71 m :
  peak100_baseline10 m ->
  peak100_baseline10 (feed [71] m) /\ consecutive_ends (feed [71] m) = 0.
Proof.
  intros (Ha & Hp & Hb & Hh).
  destruct (active_tick m 71 [] Ha) as (trend & m' & _ & Hm' & Hhist & _ & Hcase).
  { rewrite Hp. repeat constructor; done. }
  rewrite feed_one, Hm'. cbn [fst].
  rewrite Hp, (end_condition_71 _ trend Hb) in Hcase.
  destruct Hcase as (? & ? & Hpk & Hbb).
  unfold updated_peak in Hpk. rewrite Ha, Hp in Hpk. cbn in Hpk.
  split; [|done]. split; [done|]. split; [done|]. split; [by rewrite Hbb|].
  rewrite Hhist. apply deque_append_small; [done|]. by apply small_const.
Qed.

(** C2. In ACTIVE, with scores and peak that fit a double: the tick
    returns normally and [detect_huddle_change] reports the end condition
    [score < peak * 0.7 or score <= baseline + 10 or (trend < -10 and
    score < 50)] and never a start.  The first tick that meets it only
    counts; the next one in a row confirms IDLE; a tick that misses it
    clears the counter.  With peak 100 and baseline 10, the scores 69, 69
    end the session at the second tick and 71, 71 do not end it.  For
    every peak the scorer can produce, the floating-point test
    [score < peak * 0.7] is the exact test [10 * score < 7 * peak]. *)
Theorem end_confirmed_on_second_tick :
  (forall (m : machine) (score : Z) (reasons : list string),
      in_huddle m = true ->
      Forall small (huddle_peak_score m :: score :: score_history m) ->
      exists ratio near trend m',
        Py.mul (Py.Int (huddle_peak_score m)) (Py.Float Py.c0_7) = Ok ratio /\
        Py.add (baseline_score m) (Py.Int 10) = Ok near /\
        let stop :=
          Py.lt (Py.Int score) ratio || Py.le (Py.Int score) near
          || (Py.lt trend (Py.Int (-10)) && Py.lt (Py.Int score) (Py.Int 50)) in
        detect_huddle_change score m
        = (set_score_history (PyList.deque_append (score_history m) score) m,
           Ok (false, stop, trend)) /\
        handle_transitions score reasons m = (m', Ok trend) /\
        (stop = false -> in_huddle m' = true /\ consecutive_ends m' = 0) /\
        (stop = true -> consecutive_ends m = 0 ->
         in_huddle m' = true /\ consecutive_ends m' = 1) /\
        (stop = true -> 1 <= consecutive_ends m ->
         in_huddle m' = false /\ consecutive_ends m' = 0)) /\
  (forall m : machine,
      peak100_baseline10 m -> consecutive_ends m = 0 ->
      in_huddle (feed [69] m) = true /\
      in_huddle (feed [69; 69] m) = false /\
      in_huddle (feed [71] m) = true /\
      in_huddle (feed [71; 71] m) = true) /\
  (forall (peak score : Z) (ratio : Py.num),
      0 <= peak <= 150 ->
      Py.mul (Py.Int peak) (Py.Float Py.c0_7) = Ok ratio ->
      Py.lt (Py.Int score) ratio = (10 * score <? 7 * peak)).
Proof.
  split; [|split; [|apply ratio_compare]].
  - intros m score reasons Hact Hs.
    pose proof Hs as [Hp _]%Forall_cons.
    destruct (mul_ratio_ok _ Hp) as [ratio Hr].
    destruct (add_int_ok (baseline_score m) 10) as [near Hn]; [by apply small_const|].
    destruct (active_tick m score reasons Hact Hs) as (trend & m' & Hd & Hh & _ & _ & Hcase).
    rewrite (end_condition_eq _ _ _ _ _ _ Hr Hn) in Hd, Hcase.
    exists ratio, near, trend, m'. split; [done|]. split; [done|]. cbv zeta.
    split; [done|]. split; [done|].
    destruct (_ || _ || _).
    + split; [done|]. split.
      * intros _ H0. rewrite H0 in Hcase. cbn in Hcase. by destruct Hcase as (? & ? & ? & ?).
      * intros _ H1. destruct (Z.leb_spec 2 (consecutive_ends m + 1)); [|lia].
        by destruct Hcase as (? & ? & ? & ?).
    + destruct Hcase as (? & ? & ? & ?). done.
  - intros m Hm He.
    destruct (peak100_tick_69 m Hm He) as [Hm1 He1].
    destruct (peak100_tick_71 m Hm) as [Hm2 He2].
    split; [apply Hm1|].
    split; [rewrite feed_two; by apply peak100_tick_69_again|].
    split; [apply Hm2|].
    rewrite feed_two. apply (peak100_tick_71 _ Hm2).
Qed.

Lemma end_confirmed_on_second_tick_witness :
  in_huddle (feed [69] in_session) = true /\
  in_huddle (feed [69; 69] in_session) = false /\
  in_huddle (feed [71] in_session) = true /\
  in_huddle (feed [71; 71] in_session) = true.
Proof.
  apply (proj1 (proj2 end_confirmed_on_second_tick) in_session).
  - unfold peak100_baseline10. repeat split; [by left|apply Forall_nil; exact I].
  - reflexivity.
Defined.

(** [detect_huddle_change] reports a start only from IDLE and an end
    only from ACTIVE. *)
Lemma detect_huddle_change_phase score m m1 should_start should_end trend :
  detect_huddle_change score m = (m1, Ok (should_start, should_end, trend)) ->
  (in_huddle m = true -> should_start = false) /\
  (in_huddle m = false -> should_end = false).
Proof.
  unfold detect_huddle_change, bind, modify, gets, lift, ret.
  cbn [score_history set_score_history baseline_score in_huddle huddle_peak_score].
  destruct (compute_trend _); [|discriminate].
  destruct (Py.add _ (Py.Int 25)); [|discriminate].
  destruct (in_huddle m).
  - cbn [huddle_peak_score set_score_history].
    destruct (Py.mul _ _); [|discriminate].
    destruct (Py.add _ (Py.Int 10)); [|discriminate].
    intros [= <- <- <- <-]. split; [reflexivity|discriminate].
  - intros [= <- <- <- <-]. split; [discriminate|reflexivity].
Qed.

(** A tick that completes was answered by [detect_huddle_change] and went
    one of the ways through the transition handling. *)
Lemma handle_transitions_done score reasons m m' trend :
  handle_transitions score reasons m = (m', Ok trend) ->
  exists should_start should_end,
    detect_huddle_change score m
    = (set_score_history (PyList.deque_append (score_history m) score) m,
       Ok (should_start, should_end, trend)) /\
    score_history m' = PyList.deque_append (score_history m) score /\
    if should_start then
      consecutive_ends m' = 0 /\
      if 2 <=? consecutive_starts m + 1 then
        in_huddle m' = true /\ huddle_peak_score m' = score /\
        consecutive_starts m' = 0 /\ baseline_score m' = baseline_score m
      else
        in_huddle m' = in_huddle m /\ huddle_peak_score m' = updated_peak m score /\
        consecutive_starts m' = consecutive_starts m + 1 /\
        baseline_score m' = baseline_score m
    else if should_end then
      consecutive_starts m' = 0 /\
      if 2 <=? consecutive_ends m + 1 then
        in_huddle m' = false /\ huddle_peak_score m' = 0 /\
        consecutive_ends m' = 0 /\ baseline_score m' = Py.Int score
      else
        in_huddle m' = in_huddle m /\ huddle_peak_score m' = updated_peak m score /\
        consecutive_ends m' = consecutive_ends m + 1 /\
        baseline_score m' = baseline_score m
    else
      consecutive_starts m' = 0 /\ consecutive_ends m' = 0 /\
      in_huddle m' = in_huddle m /\ huddle_peak_score m' = updated_peak m score /\
      baseline_score m' = baseline_score m.
Proof.
  intros Hh. pose proof (detect_huddle_change_frame score m) as Hf.
  destruct (detect_huddle_change score m) as [m1 [[[st en] tr]|e']] eqn:Hd;
    cbn [fst] in Hf; subst m1.
  - destruct (blocked_start m st) eqn:Hbl.
    + destruct (handle_transitions_blocked score reasons m _ _ _ _ Hd Hbl) as (_ & _ & Hh').
      congruence.
    + destruct (handle_transitions_ok score reasons m _ _ _ _ Hd Hbl)
        as (m'' & Hh' & Hhist & Hcase).
      assert (m'' = m' /\ tr = trend) as [-> ->] by (split; congruence).
      exists st, en. split; [done|]. split; [exact Hhist|exact Hcase].
  - rewrite (handle_transitions_raise _ _ _ _ _ Hd) in Hh. discriminate.
Qed.

(** A tick that raises has pushed the score and left phase, peak and
    baseline as they were.  It raised either in [detect_huddle_change],
    with both counters untouched, or on the start announcement, with the
    start counted. *)
Lemma handle_transitions_raised score reasons m m' e :
  handle_transitions score reasons m = (m', Raise e) ->
  score_history m' = PyList.deque_append (score_history m) score /\
  in_huddle m' = in_huddle m /\
  huddle_peak_score m' = huddle_peak_score m /\
  baseline_score m' = baseline_score m /\
  (consecutive_starts m' = consecutive_starts m /\
   consecutive_ends m' = consecutive_ends m /\
   detect_huddle_change score m = (m', Raise e) \/
   in_huddle m = false /\
   consecutive_starts m' = consecutive_starts m + 1 /\
   2 <= consecutive_starts m' /\
   consecutive_ends m' = 0 /\
   Py.format_f (baseline_score m) = Raise e).
Proof.
  intros H. pose proof (detect_huddle_change_frame score m) as Hf.
  destruct (detect_huddle_change score m) as [m1 [[[st en] tr]|e']] eqn:Hd;
    cbn [fst] in Hf; subst m1.
  - destruct (blocked_start m st) eqn:Hbl.
    + destruct (handle_transitions_blocked score reasons m _ _ _ _ Hd Hbl) as (-> & H2 & Hh').
      destruct (detect_huddle_change_phase _ _ _ _ _ _ Hd) as [Hst _].
      rewrite Hh' in H. injection H as <- <-. cbn.
      do 4 (split; [reflexivity|]). right.
      split; [destruct (in_huddle m); [by specialize (Hst eq_refl)|done]|].
      split; [reflexivity|]. split; [lia|]. split; [reflexivity|].
      unfold blocked_start in Hbl. apply andb_prop in Hbl as [_ Hbl].
      destruct (Py.format_f (baseline_score m)) as [|e0] eqn:E; [discriminate|].
      by rewrite (format_f_raises _ _ E).
    + destruct (handle_transitions_ok score reasons m _ _ _ _ Hd Hbl) as (m'' & Hh & _).
      congruence.
  - rewrite (handle_transitions_raise _ _ _ _ _ Hd) in H. injection H as <- <-.
    cbn. do 4 (split; [reflexivity|]). left. done.
Qed.

(** C3. Whenever a tick takes the detector from ACTIVE to IDLE, the
    baseline afterwards is the score of that tick, as it is, and the peak
    is 0. *)
Theorem baseline_reanchored_at_end (m m' : machine) (score : Z)
    (reasons : list string) (r : result Py.num) :
  handle_transitions score reasons m = (m', r) ->
  in_huddle m = true ->
  in_huddle m' = false ->
  baseline_score m' = Py.Int score /\ huddle_peak_score m' = 0.
Proof.
  intros Hh Hact Hidle.
  destruct r as [trend|e].
  - destruct (handle_transitions_done _ _ _ _ _ Hh) as (st & en & Hd & _ & Hcase).
    destruct (detect_huddle_change_phase _ _ _ _ _ _ Hd) as [Hst _].
    rewrite (Hst Hact) in Hcase.
    cbv iota in Hcase. destruct en.
    + destruct Hcase as [_ Hcase].
      destruct (2 <=? consecutive_ends m + 1).
      * by destruct Hcase as (_ & ? & _ & ?).
      * destruct Hcase as (Hi & _). congruence.
    + destruct Hcase as (_ & _ & Hi & _). congruence.
  - apply handle_transitions_raised in Hh as (_ & Hi & _). congruence.
Qed.

Lemma baseline_reanchored_at_end_witness :
  baseline_score (feed [69] (set_consecutive_ends 1 in_session)) = Py.Int 69 /\
  huddle_peak_score (feed [69] (set_consecutive_ends 1 in_session)) = 0.
Proof.
  apply (baseline_reanchored_at_end (set_consecutive_ends 1 in_session) _ 69 []
           (snd (handle_transitions 69 [] (set_consecutive_ends 1 in_session)))).
  - vm_compute. reflexivity.
  - reflexivity.
  - vm_compute. reflexivity.
Defined.

(** After a completed tick in ACTIVE, the peak is at least the score. *)
Lemma peak_covers_score score reasons m m' trend :
  handle_transitions score reasons m = (m', Ok trend) ->
  in_huddle m' = true -> score <= huddle_peak_score m'.
Proof.
  intros Hh Hact.
  destruct (handle_transitions_done _ _ _ _ _ Hh) as (st & en & _ & _ & Hcase).
  assert (Hup : in_huddle m = true -> score <= updated_peak m score).
  { intros Hi. unfold updated_peak. rewrite Hi. cbn [andb].
    destruct (Z.ltb_spec (huddle_peak_score m) score); lia. }
  destruct st; [|destruct en].
  - destruct Hcase as [_ Hcase]. destruct (2 <=? consecutive_starts m + 1).
    + destruct Hcase as (_ & -> & _). lia.
    + destruct Hcase as (Hi & -> & _). apply Hup. congruence.
  - destruct Hcase as [_ Hcase]. destruct (2 <=? consecutive_ends m + 1).
    + destruct Hcase as (Hi & _). congruence.
    + destruct Hcase as (Hi & -> & _). apply Hup. congruence.
  - destruct Hcase as (_ & _ & Hi & -> & _). apply Hup. congruence.
Qed.

(** C9, as the code has it.  A replayed tick is a tick like any other:
    its score is pushed again and a condition that holds is counted
    again.  What the replay cannot do is move the peak without a
    transition: if the first application completed and the replay leaves
    the phase as it was, the peak is unchanged. *)
Theorem replay_keeps_peak (m m1 m2 : machine) (score : Z)
    (reasons : list string) (trend : Py.num) (r : result Py.num) :
  handle_transitions score reasons m = (m1, Ok trend) ->
  handle_transitions score reasons m1 = (m2, r) ->
  in_huddle m2 = in_huddle m1 ->
  huddle_peak_score m2 = huddle_peak_score m1.
Proof.
  intros H1 H2 Hphase.
  pose proof (peak_covers_score _ _ _ _ _ H1) as Hcover.
  assert (Hup : updated_peak m1 score = huddle_peak_score m1).
  { unfold updated_peak. destruct (in_huddle m1); [|reflexivity].
    cbn [andb]. destruct (Z.ltb_spec (huddle_peak_score m1) score); [|reflexivity].
    specialize (Hcover eq_refl). lia. }
  destruct r as [trend2|e].
  - destruct (handle_transitions_done _ _ _ _ _ H2) as (st & en & Hd & _ & Hcase).
    destruct (detect_huddle_change_phase _ _ _ _ _ _ Hd) as [Hst Hen].
    destruct st; [|destruct en].
    + destruct Hcase as [_ Hcase]. destruct (2 <=? consecutive_starts m1 + 1).
      * destruct Hcase as (Hi & _).
        destruct (in_huddle m1); [by specialize (Hst eq_refl)|congruence].
      * destruct Hcase as (_ & -> & _). done.
    + destruct Hcase as [_ Hcase]. destruct (2 <=? consecutive_ends m1 + 1).
      * destruct Hcase as (Hi & _).
        destruct (in_huddle m1); [congruence|by specialize (Hen eq_refl)].
      * destruct Hcase as (_ & -> & _). done.
    + destruct Hcase as (_ & _ & _ & -> & _). done.
  - by apply handle_transitions_raised in H2 as (_ & _ & ? & _).
Qed.

Lemma replay_keeps_peak_witness :
  huddle_peak_score (feed [80; 80] in_session) = huddle_peak_score (feed [80] in_session).
Proof.
  apply (replay_keeps_peak in_session (feed [80] in_session) (feed [80; 80] in_session)
           80 [] (Py.Int 0) (snd (handle_transitions 80 [] (feed [80] in_session)))).
  - vm_compute. reflexivity.
  - vm_compute. reflexivity.
  - vm_compute. reflexivity.
Defined.

(** From a fresh detector the score 60 counts once, and the replay
    confirms the huddle: the peak goes from 0 to 60. *)
Lemma replay_counts_again : ~ replay_is_idempotent fresh 60.
Proof. unfold replay_is_idempotent. vm_compute. intros [H _]. discriminate. Qed.

(** ** An invariant carried through the monad *)

Section Preservation.
Variable I : machine -> Prop.

Lemma preserves_ret {A} (a : A) : preserves I (ret a).
Proof. intros m H. exact H. Qed.

Lemma preserves_raise {A} (e : exn) : preserves I (@raise A e).
Proof. intros m H. exact H. Qed.

Lemma preserves_lift {A} (r : result A) : preserves I (lift r).
Proof. intros m H. exact H. Qed.

Lemma preserves_gets {A} (f : machine -> A) : preserves I (gets f).
Proof. intros m H. exact H. Qed.

Lemma preserves_modify (f : machine -> machine) :
  (forall m, I m -> I (f m)) -> preserves I (modify f).
Proof. intros Hf m H. apply Hf, H. Qed.

Lemma preserves_bind {A B} (c : M A) (k : A -> M B) :
  preserves I c -> (forall a, preserves I (k a)) -> preserves I (bind c k).
Proof.
  intros Hc Hk m H. unfold bind. specialize (Hc m H).
  destruct (c m) as [m' [a|e]]; cbn [fst] in *; [by apply Hk|done].
Qed.

Lemma preserves_try_except {A} (body : M A) caught (handler : exn -> M A) :
  preserves I body -> (forall e, preserves I (handler e)) ->
  preserves I (try_except body caught handler).
Proof.
  intros Hb Hh m H. unfold try_except. specialize (Hb m H).
  destruct (body m) as [m' [a|e]]; cbn [fst] in *; [done|].
  destruct (caught e); [by apply Hh|done].
Qed.

Lemma preserves_for_each {A S} (l : list A) (body : A -> S -> M S) :
  (forall x acc, preserves I (body x acc)) ->
  forall acc, preserves I (for_each l body acc).
Proof.
  intros Hb. induction l as [|x l IH]; intros acc; cbn [for_each].
  - apply preserves_ret.
  - apply preserves_bind; [apply Hb|]. intros a. apply IH.
Qed.

Lemma preserves_get_audio_state : preserves I get_audio_state.
Proof. intros m H. by rewrite get_audio_state_frame. Qed.
End Preservation.

(** ** The counters across the whole loop *)

Create HintDb keeps_counters.

Ltac preserves_counters :=
  repeat first
    [ solve [auto 1 with keeps_counters nocore]
    | apply preserves_ret | apply preserves_raise | apply preserves_lift
    | apply preserves_gets
    | apply preserves_modify; intros ? ?; assumption
    | apply preserves_bind; [|intros ?]
    | apply preserves_try_except; [|intros ?]
    | match goal with
      | |- preserves _ (if ?b then _ else _) => destruct b
      | |- preserves _ (match ?x with _ => _ end) => destruct x
      end ].

Lemma print_keeps_counters o : preserves counters_exclusive (print o).
Proof. unfold print. preserves_counters. Qed.

Lemma sleep_keeps_counters s : preserves counters_exclusive (sleep s).
Proof. unfold sleep. preserves_counters. Qed.

Lemma current_env_keeps_counters : preserves counters_exclusive current_env.
Proof. apply preserves_gets. Qed.

Lemma get_audio_state_keeps_counters : preserves counters_exclusive get_audio_state.
Proof. apply preserves_get_audio_state. Qed.

#[local] Hint Resolve print_keeps_counters sleep_keeps_counters
  current_env_keeps_counters get_audio_state_keeps_counters : keeps_counters.

Lemma write_status_file_keeps_counters score state trend :
  preserves counters_exclusive (write_status_file score state trend).
Proof. unfold write_status_file. preserves_counters. Qed.

#[local] Hint Resolve write_status_file_keeps_counters : keeps_counters.

Lemma report_keeps_counters state score trend :
  preserves counters_exclusive (report state score trend).
Proof. unfold report. preserves_counters. Qed.

(** Each branch of the transition handling leaves a counter at 0. *)
Lemma handle_transitions_counters score reasons m m' trend :
  handle_transitions score reasons m = (m', Ok trend) ->
  counters_exclusive m'.
Proof.
  intros Hh. unfold counters_exclusive.
  destruct (handle_transitions_done _ _ _ _ _ Hh) as (st & en & _ & _ & Hcase).
  destruct st; [|destruct en].
  - right. by destruct Hcase as [? _].
  - left. by destruct Hcase as [? _].
  - left. by destruct Hcase as [? _].
Qed.

Lemma handle_transitions_keeps_counters score reasons :
  preserves counters_exclusive (handle_transitions score reasons).
Proof.
  intros m H. destruct (handle_transitions score reasons m) as [m' [trend|e]] eqn:Hh.
  - eapply handle_transitions_counters, Hh.
  - apply handle_transitions_raised in Hh as (_ & _ & _ & _ & [(Hs & He & _)|(_ & _ & _ & He & _)]).
    + unfold counters_exclusive in *. cbn [fst]. by rewrite Hs, He.
    + by right.
Qed.

#[local] Hint Resolve report_keeps_counters handle_transitions_keeps_counters
  : keeps_counters.

Lemma iteration_keeps_counters : preserves counters_exclusive iteration.
Proof. unfold iteration. preserves_counters. Qed.

Lemma loop_keeps_counters fuel : preserves counters_exclusive (loop fuel).
Proof.
  induction fuel as [|fuel IH]; cbn [loop].
  - apply preserves_ret.
  - apply preserves_bind; [apply iteration_keeps_counters|].
    intros []; [apply IH|apply print_keeps_counters].
Qed.

Lemma calibrate_keeps_counters : preserves counters_exclusive calibrate.
Proof.
  unfold calibrate.
  apply preserves_bind; [apply print_keeps_counters|]. intros _.
  apply preserves_bind.
  { apply preserves_for_each. intros i acc. unfold calibration_sample.
    preserves_counters. }
  intros scores. preserves_counters.
Qed.

#[local] Hint Resolve loop_keeps_counters calibrate_keeps_counters : keeps_counters.

Lemma run_keeps_counters fuel : preserves counters_exclusive (run fuel).
Proof.
  unfold run.
  preserves_counters;
    first [ apply preserves_modify; intros ? _; by left
          | apply preserves_modify; intros ? _; by right ].
Qed.

(** C10. After the transition handling of a tick at most one of the two
    counters is non-zero: the branch that counts a start clears the end
    counter, the branch that counts an end clears the start counter, the
    remaining branch clears both; this is so also when the start
    announcement raises, which it cannot do with a baseline that fits a
    double.  Hence the same holds after every pass of the loop, however
    the pass ends, and at any point of [run]. *)
Theorem one_counter_at_most :
  (forall m m1 score reasons should_start should_end trend,
      detect_huddle_change score m = (m1, Ok (should_start, should_end, trend)) ->
      exists m' r,
        handle_transitions score reasons m = (m', r) /\
        (r = Ok trend \/ r = Raise OverflowError) /\
        (fits_double (baseline_score m) -> r = Ok trend) /\
        (should_start = true -> consecutive_ends m' = 0) /\
        (should_start = false -> should_end = true -> consecutive_starts m' = 0) /\
        (should_start = false -> should_end = false ->
         consecutive_starts m' = 0 /\ consecutive_ends m' = 0)) /\
  (forall m, counters_exclusive m -> counters_exclusive (fst (iteration m))) /\
  (forall fuel username world,
      counters_exclusive (fst (run fuel (new_detector username world)))).
Proof.
  split; [|split].
  - intros m m1 score reasons st en trend Hd.
    destruct (blocked_start m st) eqn:Hbl.
    + destruct (handle_transitions_blocked score reasons m _ _ _ _ Hd Hbl) as (-> & _ & Hh).
      eexists _, _. split; [exact Hh|]. split; [by right|].
      split; [intros Hb; by rewrite (blocked_start_fits _ _ Hb) in Hbl|].
      repeat split; done.
    + destruct (handle_transitions_ok score reasons m _ _ _ _ Hd Hbl)
        as (m' & Hh & _ & Hcase).
      exists m', (Ok trend). split; [done|]. split; [by left|]. split; [done|].
      destruct st; [|destruct en].
      * destruct Hcase as [? _]. repeat split; done.
      * destruct Hcase as [? _]. repeat split; done.
      * destruct Hcase as (? & ? & _). repeat split; done.
  - apply iteration_keeps_counters.
  - intros fuel username world. apply run_keeps_counters. by left.
Qed.

Lemma one_counter_at_most_witness : counters_exclusive (fst (iteration fresh)).
Proof.
  apply (proj1 (proj2 one_counter_at_most) fresh).
  left. reflexivity.
Defined.

(** ** Claims about the status file *)

(** Whatever the disk does, [write_status_file] prints nothing and
    changes nothing but the files. *)
Lemma write_status_file_frame score state trend m :
  exists fs,
    fst (write_status_file score state trend m) = set_files fs m.
Proof.
  unfold write_status_file, try_except, bind, current_env, gets, lift, ret, modify.
  repeat match goal with
         | |- context [match ?r with Ok _ => _ | Raise _ => _ end] =>
             destruct r as [?|?]
         | |- context [is_Exception ?e] => destruct (is_Exception e)
         end;
    first [by exists (files m) | eexists; reflexivity].
Qed.

(** When the file cannot be opened, nothing at all changes. *)
Lemma write_status_file_not_opened score state trend m e :
  file_open (envs m (clock m)) = Raise e ->
  is_Exception e = true ->
  write_status_file score state trend m = (m, Ok tt).
Proof.
  intros Hw He.
  unfold write_status_file, try_except, bind, current_env, gets, lift, ret, modify.
  unfold getitem.
  repeat match goal with
         | |- context [state !! ?k] => destruct (state !! k)
         end; rewrite ?Hw, ?He; reflexivity.
Qed.

(** When the dump fails after the file was opened, the file is left
    truncated. *)
Lemma write_status_file_not_dumped score state trend m e :
  has_indicators state ->
  file_open (envs m (clock m)) = Ok tt ->
  file_write (envs m (clock m)) = Raise e ->
  is_Exception e = true ->
  write_status_file score state trend m
  = (set_files (<[status_file_path m := Truncated]> (files m)) m, Ok tt).
Proof.
  intros Hs Ho Hw He. unfold has_indicators, indicator_keys in Hs.
  repeat (apply Forall_cons in Hs; destruct Hs as [[? ?] Hs]).
  unfold write_status_file, try_except, bind, current_env, gets, lift, ret, modify, getitem.
  repeat match goal with H : _ !! _ = Some _ |- _ => rewrite H; clear H end.
  rewrite Ho. cbn. rewrite Hw, He. reflexivity.
Qed.

(** After a call of [write_status_file] that returned, and when the
    sleep is not interrupted, the rest of the loop body prints the status
    line and sleeps; the baseline is formatted for the line only in
    IDLE. *)
Lemma report_continues state score trend m :
  has_indicators state ->
  snd (write_status_file score state trend m) = Ok tt ->
  in_huddle m = true \/ fits_double (baseline_score m) ->
  sleep_interrupted (envs m (clock m)) = false ->
  exists line,
    report state score trend m
    = (set_clock (S (clock m))
         (set_stdout (line :: stdout m) (fst (write_status_file score state trend m))),
       Ok tt).
Proof.
  intros Hs Hret Hfmt Hsl. unfold has_indicators, indicator_keys in Hs.
  repeat (apply Forall_cons in Hs; destruct Hs as [[? ?] Hs]).
  unfold report, bind.
  destruct (write_status_file_frame score state trend m) as [fs Hfr].
  destruct (write_status_file score state trend m) as [m2 r].
  cbn [fst snd] in Hfr, Hret. subst m2 r.
  assert (Hf : in_huddle m = false -> Py.format_f (baseline_score m) = Ok tt).
  { intros Hi. destruct Hfmt as [Ht|Hb]; [congruence|by apply format_f_fits]. }
  unfold current_env, gets, lift, getitem, print, sleep, modify, bind, gets, ret.
  cbn [in_huddle baseline_score set_files].
  destruct (in_huddle m); [|rewrite (Hf eq_refl)];
    repeat match goal with H : _ !! _ = Some _ |- _ => rewrite H end;
    cbn; rewrite Hsl; eexists; reflexivity.
Qed.

(** C7, as the code has it.  When the write of the status file fails
    with any [Exception], the failure is swallowed without a trace:
    [write_status_file] returns normally.  If the file could not be
    opened the whole state is as it was; if the dump failed after the
    file was opened, the file is left truncated and nothing else has
    changed.  Whatever the disk does, nothing is printed by
    [write_status_file], and the rest of the loop body then prints the
    status line and sleeps as usual. *)
Theorem write_failure_is_silent :
  (forall (m : machine) (score : Z) (state : gmap string Z) (trend : Py.num) (e : exn),
      file_open (envs m (clock m)) = Raise e ->
      is_Exception e = true ->
      write_status_file score state trend m = (m, Ok tt)) /\
  (forall (m : machine) (score : Z) (state : gmap string Z) (trend : Py.num) (e : exn),
      has_indicators state ->
      file_open (envs m (clock m)) = Ok tt ->
      file_write (envs m (clock m)) = Raise e ->
      is_Exception e = true ->
      write_status_file score state trend m
      = (set_files (<[status_file_path m := Truncated]> (files m)) m, Ok tt)) /\
  (forall (m : machine) (score : Z) (state : gmap string Z) (trend : Py.num),
      stdout (fst (write_status_file score state trend m)) = stdout m) /\
  (forall (m : machine) (score : Z) (state : gmap string Z) (trend : Py.num),
      has_indicators state ->
      snd (write_status_file score state trend m) = Ok tt ->
      in_huddle m = true \/ fits_double (baseline_score m) ->
      sleep_interrupted (envs m (clock m)) = false ->
      exists line,
        report state score trend m
        = (set_clock (S (clock m))
             (set_stdout (line :: stdout m)
                (fst (write_status_file score state trend m))),
           Ok tt)).
Proof.
  split; [|split; [|split]].
  - intros m score state trend e. apply write_status_file_not_opened.
  - intros m score state trend e. apply write_status_file_not_dumped.
  - intros m score state trend.
    destruct (write_status_file_frame score state trend m) as [fs ->]. reflexivity.
  - intros m score state trend. apply report_continues.
Qed.

Lemma write_failure_is_silent_witness :
  write_status_file 95 busy_state (Py.Int 0) (new_detector "user" (fun _ => read_only_env))
  = (new_detector "user" (fun _ => read_only_env), Ok tt).
Proof.
  apply (proj1 write_failure_is_silent _ 95 busy_state (Py.Int 0) OSError).
  - reflexivity.
  - reflexivity.
Defined.

(** On a read-only disk the write fails and nothing at all is printed. *)
Lemma write_failure_leaves_no_log : ~ write_failure_is_logged.
Proof.
  intros H.
  destruct (H (new_detector "user" (fun _ => read_only_env))
              95 busy_state (Py.Int 0) OSError (or_introl eq_refl) eq_refl) as [_ Hlog].
  apply Hlog. vm_compute. reflexivity.
Qed.

(** On a disk that fills up during the dump the status file is left
    truncated, and still nothing is printed. *)
Example full_disk_truncates :
  let m := new_detector "user" (fun _ => full_disk_env) in
  snd (write_status_file 95 busy_state (Py.Int 0) m) = Ok tt /\
  files (fst (write_status_file 95 busy_state (Py.Int 0) m)) !! status_file_path m
  = Some Truncated /\
  stdout (fst (write_status_file 95 busy_state (Py.Int 0) m)) = [].
Proof. vm_compute. repeat split. Qed.

(** ** Claims about calibration *)

(** One calibration sample: the snapshot of the current interval is
    scored, the step is printed and the next interval begins. *)
Lemma calibration_sample_spec i scores m :
  readable (envs m (clock m)) = true ->
  sleep_interrupted (envs m (clock m)) = false ->
  exists s reasons,
    calculate_score (snapshot (envs m (clock m))) = Ok (s, reasons) /\
    0 <= s <= 150 /\
    calibration_sample i scores m
    = (set_clock (S (clock m))
         (set_stdout (PrintCalibrationStep (i + 1) s :: stdout m) m),
       Ok (scores ++ [s])).
Proof.
  intros Hr Hsl.
  destruct (calculate_score_total _ (snapshot_has_indicators (envs m (clock m))))
    as (s & reasons & Hc & _ & _ & Hb).
  exists s, reasons. split; [done|]. split; [done|].
  unfold calibration_sample, bind. rewrite (get_audio_state_spec _ Hr).
  unfold lift. rewrite Hc. unfold print, sleep, modify, bind, current_env, gets.
  cbn. rewrite Hsl. reflexivity.
Qed.

(** Calibration in three intervals that can be sampled. *)
Lemma calibrate_outcome m :
  samplable (envs m) (clock m) 3 ->
  exists a b c mean m',
    0 <= a <= 150 /\ 0 <= b <= 150 /\ 0 <= c <= 150 /\
    (exists ra, calculate_score (snapshot (envs m (clock m))) = Ok (a, ra)) /\
    (exists rb, calculate_score (snapshot (envs m (S (clock m)))) = Ok (b, rb)) /\
    (exists rc, calculate_score (snapshot (envs m (S (S (clock m))))) = Ok (c, rc)) /\
    Py.int_truediv (a + b + c) 3 = Ok mean /\
    calibrate m = (m', Ok tt) /\
    baseline_score m' = Py.Float mean /\
    clock m' = S (S (S (clock m))) /\
    envs m' = envs m /\
    core m' = core m.
Proof.
  intros Hw.
  destruct (Hw (clock m) ltac:(lia)) as [Hr0 Hs0].
  destruct (Hw (S (clock m)) ltac:(lia)) as [Hr1 Hs1].
  destruct (Hw (S (S (clock m))) ltac:(lia)) as [Hr2 Hs2].
  unfold calibrate, bind, print, modify. cbn [for_each]. unfold bind.
  set (m0 := set_stdout (PrintCalibrating :: stdout m) m).
  destruct (calibration_sample_spec 0 [] m0 Hr0 Hs0) as (a & ra & Ha & Hab & ->).
  set (m1 := set_clock (S (clock m0)) _).
  destruct (calibration_sample_spec 1 ([] ++ [a]) m1 Hr1 Hs1) as (b & rb & Hb & Hbb & ->).
  set (m2 := set_clock (S (clock m1)) _).
  destruct (calibration_sample_spec 2 (([] ++ [a]) ++ [b]) m2 Hr2 Hs2)
    as (c & rc & Hc & Hcb & ->).
  cbn [app length]. unfold ret, lift.
  change (Py.int_truediv (Py.sum [a; b; c]) (Z.of_nat (length [a; b; c])))
    with (Py.int_truediv (a + b + c) 3).
  destruct (FloatFacts.int_truediv_ok (a + b + c) 3) as (mean & Hmean & _); [|lia|].
  { assert (2 ^ 10 <= 2 ^ 1023) by (apply Z.pow_le_mono_r; lia).
    change (2 ^ 10) with 1024 in *. lia. }
  rewrite Hmean.
  exists a, b, c, mean. eexists.
  split; [done|]. split; [done|]. split; [done|].
  split; [by exists ra|]. split; [by exists rb|]. split; [by exists rc|].
  split; [done|]. repeat split.
Qed.

(** C6. Where the probes of three sampling intervals can be read and no
    sleep is interrupted, calibration draws three snapshots, one per
    interval, scores them and sets the baseline to the float quotient
    [(a + b + c) / 3] of the three scores: the double nearest to the
    arithmetic mean, which compares with every integer exactly as the
    mean itself does. *)
Theorem calibration_sets_mean (m : machine) :
  samplable (envs m) (clock m) 3 ->
  exists sa sb sc a b c ra rb rc mean m',
    snd (get_audio_state m) = Ok sa /\
    snd (get_audio_state (set_clock (S (clock m)) m)) = Ok sb /\
    snd (get_audio_state (set_clock (S (S (clock m))) m)) = Ok sc /\
    calculate_score sa = Ok (a, ra) /\
    calculate_score sb = Ok (b, rb) /\
    calculate_score sc = Ok (c, rc) /\
    Py.int_truediv (a + b + c) 3 = Ok mean /\
    calibrate m = (m', Ok tt) /\
    baseline_score m' = Py.Float mean /\
    clock m' = S (S (S (clock m))) /\
    forall k : Z, Py.compare (Py.Int k) (Py.Float mean) = Some (3 * k ?= a + b + c).
Proof.
  intros Hw.
  destruct (calibrate_outcome m Hw)
    as (a & b & c & mean & m' & Ha & Hb & Hc & [ra Hsa] & [rb Hsb] & [rc Hsc]
        & Hmean & Hcal & Hbase & Hclk & _).
  destruct (Hw (clock m) ltac:(lia)) as [Hr0 _].
  destruct (Hw (S (clock m)) ltac:(lia)) as [Hr1 _].
  destruct (Hw (S (S (clock m))) ltac:(lia)) as [Hr2 _].
  rewrite !get_audio_state_cases. cbn [envs clock set_clock snd].
  rewrite Hr0, Hr1, Hr2.
  eexists _, _, _, a, b, c, ra, rb, rc, mean, m'.
  split; [reflexivity|]. split; [reflexivity|]. split; [reflexivity|].
  split; [exact Hsa|]. split; [exact Hsb|]. split; [exact Hsc|].
  split; [done|]. split; [done|]. split; [done|]. split; [done|].
  apply mean_compare; [lia|done].
Qed.

Lemma calibration_sets_mean_witness :
  exists sa sb sc a b c ra rb rc mean m',
    snd (get_audio_state fresh) = Ok sa /\
    snd (get_audio_state (set_clock (S (clock fresh)) fresh)) = Ok sb /\
    snd (get_audio_state (set_clock (S (S (clock fresh))) fresh)) = Ok sc /\
    calculate_score sa = Ok (a, ra) /\
    calculate_score sb = Ok (b, rb) /\
    calculate_score sc = Ok (c, rc) /\
    Py.int_truediv (a + b + c) 3 = Ok mean /\
    calibrate fresh = (m', Ok tt) /\
    baseline_score m' = Py.Float mean /\
    clock m' = S (S (S (clock fresh))) /\
    forall k : Z, Py.compare (Py.Int k) (Py.Float mean) = Some (3 * k ?= a + b + c).
Proof.
  apply (calibration_sets_mean fresh).
  intros k _. split; reflexivity.
Defined.

(** Calibration is cut short by a probe that [int] cannot read and by a
    Ctrl-C during its sleep; no baseline is set then. *)
Example calibration_cut_short :
  let m1 := new_detector "user" (fun _ => superscript_env) in
  let m2 := new_detector "user" (fun _ => with_interrupt quiet_env) in
  snd (calibrate m1) = Raise ValueError /\
  baseline_score (fst (calibrate m1)) = Py.Int 0 /\
  snd (calibrate m2) = Raise KeyboardInterrupt /\
  baseline_score (fst (calibrate m2)) = Py.Int 0.
Proof. vm_compute. repeat split. Qed.

(** In a quiet world every sample scores 0 and so does the baseline. *)
Example quiet_calibration :
  baseline_score (fst (calibrate fresh)) = Py.Float (S754_zero false) /\
  clock (fst (calibrate fresh)) = 3%nat.
Proof. vm_compute. split; reflexivity. Qed.

(* ===================================================================== *)
(** * Further properties of the code *)
(* ===================================================================== *)

(** ** The scorer: errors, range, monotonicity, saturation *)

Lemma score_rule_full state key test points label acc v :
  state !! key = Some v ->
  score_rule state key test points label acc
  = Ok (fst acc + (if test v then points v else 0),
        snd acc ++ (if test v then [(label +:+ pretty v)%string] else [])).
Proof.
  intros H. unfold score_rule, getitem. rewrite H. cbn [rbind].
  destruct acc as [s r]. destruct (test v); cbn [fst snd]; [reflexivity|].
  rewrite Z.add_0_r, app_nil_r. reflexivity.
Qed.

(** The points a rule adds on a snapshot. *)
Lemma calculate_score_explicit state :
  has_indicators state ->
  exists reasons,
    calculate_score state
    = Ok (total (map (fun r => if triggered state r
                               then rule_points r (value_of state r) else 0)
                     spec_rules),
          reasons) /\
    length reasons = length (contributions state).
Proof.
  intros H. unfold has_indicators, indicator_keys in H.
  repeat (apply Forall_cons in H; destruct H as [[? ?] H]).
  unfold calculate_score.
  repeat (erewrite score_rule_full by eassumption; cbn [rbind fst snd]).
  eexists. split.
  - f_equal. f_equal.
    unfold triggered, value_of, spec_rules.
    cbn [map rule_key rule_test rule_points total foldr].
    repeat match goal with H : _ !! _ = Some _ |- _ => rewrite H; clear H end.
    cbn [default from_option id].
    rewrite !(Z.mul_comm (Z.min _ _)). lia.
  - unfold contributions, triggered, value_of, spec_rules.
    rewrite length_map, !filter_cons, filter_nil.
    cbn [rule_key rule_test].
    repeat match goal with H : _ !! _ = Some _ |- _ => rewrite H; clear H end.
    cbn [default from_option id].
    rewrite !length_app.
    repeat match goal with
           | |- context [decide (?b = true)] =>
               destruct b; [rewrite decide_True by done|rewrite decide_False by done]
           end; reflexivity.
Qed.


(** X1. [calculate_score] returns a score exactly when the snapshot has
    all seven keys; otherwise it raises [KeyError] for the first key, in
    the order the rules are evaluated, that is missing. *)
Theorem calculate_score_raises_first_missing (state : gmap string Z) :
  match first_missing state (map rule_key spec_rules) with
  | Some k => state !! k = None /\ calculate_score state = Raise (KeyError k)
  | None =>
      has_indicators state /\
      exists score reasons, calculate_score state = Ok (score, reasons)
  end.
Proof.
  unfold spec_rules. cbn [map rule_key first_missing].
  repeat
    match goal with
    | |- match match state !! ?k with _ => _ end with _ => _ end =>
        let E := fresh "E" in
        destruct (state !! k) eqn:E;
        [|split; [done|]; unfold calculate_score;
          repeat (erewrite score_rule_full by eassumption; cbn [rbind]);
          unfold score_rule, getitem; rewrite E; reflexivity]
    end.
  assert (H : has_indicators state).
  { unfold has_indicators, indicator_keys.
    repeat (apply Forall_cons; split; [eauto|]). apply Forall_nil. done. }
  split; [done|].
  destruct (calculate_score_total state H) as (score & reasons & Hc & _). eauto.
Qed.

Lemma rule_points_steps state r :
  r ∈ spec_rules -> triggered state r = true ->
  5 <= rule_points r (value_of state r) /\
  (5 | rule_points r (value_of state r)).
Proof.
  unfold spec_rules, triggered. intros Hr Ht.
  repeat (apply elem_of_cons in Hr; destruct Hr as [->|Hr]);
    [..|by apply elem_of_nil in Hr]; cbn [rule_points rule_test] in *;
    apply Z.ltb_lt in Ht; (split; [lia|]);
    first [ by exists 5 | by exists 2 | by exists 1
          | apply Z.divide_mul_r; by exists 4
          | apply Z.divide_mul_r; by exists 3 ].
Qed.

Lemma contributions_steps state :
  Forall (fun c => 5 <= c /\ (5 | c)) (contributions state).
Proof.
  unfold contributions. apply Forall_map, Forall_forall.
  intros r [Ht Hr]%list_elem_of_filter. by apply rule_points_steps.
Qed.

Lemma total_steps (l : list Z) :
  Forall (fun c => 5 <= c /\ (5 | c)) l ->
  (5 | total l) /\ (total l = 0 <-> l = []) /\ 0 <= total l.
Proof.
  unfold total. induction 1 as [|c l [Hc Hd] Hl (IHd & IH0 & IHn)]; cbn [foldr].
  - split; [apply Z.divide_0_r|]. split; [done|lia].
  - split; [by apply Z.divide_add_r|]. split; [|lia].
    split; [lia|discriminate].
Qed.

(** X2. On a complete snapshot the score is a multiple of 5 between 0 and
    150, there is one reason per triggered rule, and the score is 0
    exactly when no reason is given. *)
Theorem score_range_and_reasons (state : gmap string Z) :
  has_indicators state ->
  exists score reasons,
    calculate_score state = Ok (score, reasons) /\
    0 <= score <= 150 /\ (5 | score) /\
    length reasons = length (contributions state) /\
    (score = 0 <-> reasons = []).
Proof.
  intros H.
  destruct (calculate_score_total state H) as (score & reasons & Hc & Hs & _ & Hb).
  destruct (calculate_score_explicit state H) as (reasons' & Hc' & Hlen).
  assert (reasons' = reasons) by congruence. subst reasons'.
  destruct (total_steps _ (contributions_steps state)) as (Hd & H0 & _).
  exists score, reasons. split; [done|]. split; [done|]. rewrite Hs.
  split; [done|]. split; [done|].
  rewrite H0. split.
  - intros E. rewrite E in Hlen. by destruct reasons.
  - intros ->. by destruct (contributions state).
Qed.

Lemma score_range_and_reasons_witness :
  exists score reasons,
    calculate_score busy_state = Ok (score, reasons) /\
    0 <= score <= 150 /\ (5 | score) /\
    length reasons = length (contributions busy_state) /\
    (score = 0 <-> reasons = []).
Proof.
  apply (score_range_and_reasons busy_state).
  unfold has_indicators, indicator_keys.
  repeat (apply Forall_cons; split; [eexists; vm_compute; reflexivity|]).
  apply Forall_nil. exact I.
Defined.


Lemma total_map_le {A} (f g : A -> Z) (l : list A) :
  Forall (fun x => f x <= g x) l -> total (map f l) <= total (map g l).
Proof.
  unfold total. induction 1 as [|x l Hx Hl IH]; cbn [map foldr]; lia.
Qed.

Lemma total_map_eq {A} (f g : A -> Z) (l : list A) :
  Forall (fun x => f x = g x) l -> total (map f l) = total (map g l).
Proof.
  unfold total. induction 1 as [|x l Hx Hl IH]; cbn [map foldr]; lia.
Qed.

Lemma rule_key_is_indicator r : r ∈ spec_rules -> rule_key r ∈ indicator_keys.
Proof.
  unfold spec_rules, indicator_keys. intros Hr.
  repeat (apply elem_of_cons in Hr; destruct Hr as [->|Hr]);
    [..|by apply elem_of_nil in Hr]; cbn [rule_key];
    repeat first [apply list_elem_of_here | apply list_elem_of_further].
Qed.

(** X3. Raising indicator values never lowers the score. *)
Theorem score_is_monotone (s1 s2 : gmap string Z) :
  has_indicators s1 -> has_indicators s2 ->
  (forall k, k ∈ indicator_keys -> default 0 (s1 !! k) <= default 0 (s2 !! k)) ->
  exists a b r1 r2,
    calculate_score s1 = Ok (a, r1) /\ calculate_score s2 = Ok (b, r2) /\ a <= b.
Proof.
  intros H1 H2 Hle.
  destruct (calculate_score_explicit s1 H1) as (r1 & -> & _).
  destruct (calculate_score_explicit s2 H2) as (r2 & -> & _).
  eexists _, _, r1, r2. split; [reflexivity|]. split; [reflexivity|].
  apply total_map_le, Forall_forall. intros r Hr.
  pose proof (Hle _ (rule_key_is_indicator r Hr)) as Hv.
  unfold triggered. fold (value_of s1 r) (value_of s2 r) in Hv.
  generalize dependent (value_of s2 r). generalize dependent (value_of s1 r).
  intros v w Hv. unfold spec_rules in Hr.
  repeat (apply elem_of_cons in Hr; destruct Hr as [->|Hr]);
    [..|by apply elem_of_nil in Hr]; cbn [rule_points rule_test];
    repeat match goal with
           | |- context [?a <? ?b] => destruct (Z.ltb_spec a b)
           end; lia.
Qed.

Lemma score_is_monotone_witness :
  exists a b r1 r2,
    calculate_score (<["audio_fds" := 0]> busy_state) = Ok (a, r1) /\
    calculate_score busy_state = Ok (b, r2) /\ a <= b.
Proof.
  apply (score_is_monotone (<["audio_fds" := 0]> busy_state) busy_state).
  - unfold has_indicators, indicator_keys.
    repeat (apply Forall_cons; split; [eexists; vm_compute; reflexivity|]).
    apply Forall_nil. exact I.
  - unfold has_indicators, indicator_keys.
    repeat (apply Forall_cons; split; [eexists; vm_compute; reflexivity|]).
    apply Forall_nil. exact I.
  - intros k Hk. unfold indicator_keys in Hk.
    repeat (apply elem_of_cons in Hk; destruct Hk as [->|Hk]);
      [..|by apply elem_of_nil in Hk]; vm_compute; discriminate.
Defined.

Lemma has_indicators_insert state k v :
  has_indicators state -> has_indicators (<[k:=v]> state).
Proof.
  unfold has_indicators. intros H. eapply Forall_impl; [exact H|]. intros key [x Hx].
  rewrite lookup_insert. case_decide; eauto.
Qed.

(** X4. Beyond its saturation point (3 Slack assertions, 2 audio units,
    4 audio file descriptors, 1 for the others) an indicator adds nothing:
    two values at or above the point give the same score. *)
Theorem score_saturates (state : gmap string Z) (key : string) (v w : Z) :
  has_indicators state ->
  saturation_point key <= v -> saturation_point key <= w ->
  exists score r1 r2,
    calculate_score (<[key:=v]> state) = Ok (score, r1) /\
    calculate_score (<[key:=w]> state) = Ok (score, r2).
Proof.
  intros H Hv Hw.
  destruct (calculate_score_explicit _ (has_indicators_insert state key v H))
    as (r1 & -> & _).
  destruct (calculate_score_explicit _ (has_indicators_insert state key w H))
    as (r2 & -> & _).
  eexists _, r1, r2. split; [reflexivity|]. f_equal. f_equal.
  apply total_map_eq, Forall_forall. intros r Hr.
  unfold triggered, value_of.
  destruct (decide (key = rule_key r)) as [->|Hne].
  - rewrite !lookup_insert_eq. cbn [default from_option id].
    unfold spec_rules in Hr.
    repeat (apply elem_of_cons in Hr; destruct Hr as [->|Hr]);
      [..|by apply elem_of_nil in Hr];
      cbn [rule_points rule_test rule_key] in *;
      repeat match goal with
             | H : context [saturation_point ?k] |- _ =>
                 let x := eval vm_compute in (saturation_point k) in
                 change (saturation_point k) with x in H
             end;
      repeat match goal with
             | |- context [?a <? ?b] => destruct (Z.ltb_spec a b)
             end; lia.
  - rewrite !lookup_insert_ne by done. reflexivity.
Qed.

Lemma score_saturates_witness :
  exists score r1 r2,
    calculate_score (<["slack_assertions" := 3]> busy_state) = Ok (score, r1) /\
    calculate_score (<["slack_assertions" := 7]> busy_state) = Ok (score, r2).
Proof.
  apply (score_saturates busy_state "slack_assertions" 3 7).
  - unfold has_indicators, indicator_keys.
    repeat (apply Forall_cons; split; [eexists; vm_compute; reflexivity|]).
    apply Forall_nil. exact I.
  - vm_compute. discriminate.
  - vm_compute. discriminate.
Defined.

(** ** The indicator source: what a snapshot can hold *)

Lemma decimal_value_range c d : PyStr.decimal_value c = Some d -> 0 <= d <= 9.
Proof.
  unfold PyStr.decimal_value.
  destruct (find _ PyStr.decimal_zeros) as [z|] eqn:E; [|discriminate].
  apply find_some in E as [_ E]. unfold PyStr.in_range in E. cbn [fst snd] in E.
  apply andb_prop in E as [H1 H2]. apply N.leb_le in H1, H2.
  intros [= <-]. lia.
Qed.

Lemma int_digits_nonneg s : forall acc n b v k,
  PyStr.int_digits acc n b s = Some (v, k) -> 0 <= acc -> 0 <= v.
Proof.
  induction s as [|c s IH]; intros acc n b v k; cbn [PyStr.int_digits].
  - destruct b; [|discriminate]. intros [= <- <-]. done.
  - destruct (PyStr.decimal_value c) as [d|] eqn:E.
    + intros H Hacc. apply (IH _ _ _ _ _ H).
      pose proof (decimal_value_range _ _ E). lia.
    + destruct ((c =? 95)%N && b); [|discriminate]. apply IH.
Qed.

(** No digit is white space. *)
Lemma digits_apart_low :
  forallb (fun c => negb (PyStr.is_digit_char c && PyStr.is_space c)) low_points = true.
Proof. vm_compute. reflexivity. Qed.

Lemma is_space_low c : PyStr.is_space c = true -> (c <= 12288)%N.
Proof.
  unfold PyStr.is_space, PyStr.space_ranges, PyStr.in_range. cbn [existsb fst snd].
  intros H.
  repeat (apply orb_prop in H as [H|H];
          [apply andb_prop in H as [_ H]; apply N.leb_le in H; lia|]).
  discriminate.
Qed.

Lemma digit_not_space c : PyStr.is_digit_char c = true -> PyStr.is_space c = false.
Proof.
  intros Hd. destruct (PyStr.is_space c) eqn:Hs; [|done].
  pose proof (is_space_low c Hs) as Hlow.
  pose proof digits_apart_low as Hall. rewrite forallb_forall in Hall.
  specialize (Hall c). rewrite Hd, Hs in Hall.
  assert (Hin : In c low_points).
  { unfold low_points. apply in_map_iff. exists (Z.of_N c).
    split; [lia|]. apply list_elem_of_In, elem_of_seqZ. lia. }
  apply Hall in Hin. discriminate.
Qed.

Lemma digit_not_int_space c : PyStr.is_digit_char c = true -> PyStr.int_space c = false.
Proof. intros H. unfold PyStr.int_space. by rewrite (digit_not_space c H). Qed.

Lemma lstrip_with_head sp c s : sp c = false -> PyStr.lstrip_with sp (c :: s) = c :: s.
Proof. intros H. cbn. by rewrite H. Qed.

Lemma rstrip_with_none sp s :
  forallb (fun c => negb (sp c)) s = true -> PyStr.rstrip_with sp s = s.
Proof.
  induction s as [|c s IH]; [done|]. cbn [forallb PyStr.rstrip_with].
  intros [Hc Hs]%andb_prop. rewrite (IH Hs).
  destruct s; [|done]. apply negb_true_iff in Hc. by rewrite Hc.
Qed.

Lemma digits_no_space sp s :
  (forall c, PyStr.is_digit_char c = true -> sp c = false) ->
  forallb PyStr.is_digit_char s = true ->
  forallb (fun c => negb (sp c)) s = true.
Proof.
  intros Hsp. induction s as [|c s IH]; [done|]. cbn [forallb].
  intros [Hc Hs]%andb_prop. rewrite (Hsp c Hc). by apply IH.
Qed.

(** On a string that [isdigit] accepts, [int] reads the digits as they
    stand: nothing is stripped and there is no sign. *)
Lemma int_of_digits s :
  PyStr.isdigit s = true ->
  PyStr.int s
  = match PyStr.int_digits 0 0 false s with
    | Some (v, n) =>
        if (PyStr.int_max_str_digits <? n)%nat then Raise ValueError else Ok v
    | None => Raise ValueError
    end.
Proof.
  intros Hd. destruct s as [|c s]; [discriminate|].
  cbn [PyStr.isdigit] in Hd. pose proof Hd as Hall.
  cbn [forallb] in Hd. apply andb_prop in Hd as [Hc Hs].
  unfold PyStr.int.
  rewrite (lstrip_with_head _ _ _ (digit_not_int_space c Hc)).
  rewrite (rstrip_with_none PyStr.int_space (c :: s))
    by (apply digits_no_space; [apply digit_not_int_space|done]).
  destruct (N.eqb_spec c 45) as [->|_]; [discriminate|].
  destruct (N.eqb_spec c 43) as [->|_]; [discriminate|].
  reflexivity.
Qed.

Lemma count_of_nonneg output v : count_of output = Ok v -> 0 <= v.
Proof.
  unfold count_of. destruct (PyStr.isdigit output) eqn:E; [|by intros [= <-]].
  rewrite (int_of_digits _ E).
  destruct (PyStr.int_digits 0 0 false output) as [[w n]|] eqn:Hw; [|discriminate].
  destruct (_ <? _)%nat; [discriminate|]. intros [= <-].
  by apply (int_digits_nonneg _ _ _ _ _ _ Hw).
Qed.

Lemma count_or_zero_nonneg output : 0 <= count_or_zero output.
Proof.
  unfold count_or_zero. destruct (count_of output) eqn:E; [|done].
  by apply (count_of_nonneg _ _ E).
Qed.

(** A probe that cannot be read printed something [isdigit] accepts and
    [int] rejects. *)
Lemma unreadable_probe e :
  readable e = false ->
  exists key cmd timeout,
    (key, cmd, timeout) ∈ probes /\
    PyStr.isdigit (probe_output e cmd timeout) = true /\
    PyStr.int (probe_output e cmd timeout) = Raise ValueError.
Proof.
  unfold readable, probes. cbn [forallb fst snd]. intros H.
  repeat match type of H with
         | context [count_of (probe_output e ?cmd ?t)] =>
             let E := fresh "E" in
             destruct (count_of (probe_output e cmd t)) as [?|x] eqn:E;
             cbn [andb] in H;
             [clear E
             |clear H; eexists _, cmd, t;
              split; [repeat first [apply list_elem_of_here | apply list_elem_of_further]|];
              pose proof (count_of_raises _ _ E) as ->;
              unfold count_of in E;
              destruct (PyStr.isdigit (probe_output e cmd t)); [done|discriminate]]
         end.
  discriminate.
Qed.

(** X5. Taking a snapshot leaves the detector as it was.  It raises
    nothing but [ValueError], and that only when some probe printed a
    text that [isdigit] accepts and [int] rejects; otherwise the snapshot
    holds the seven indicator keys and nothing else, and every value in
    it is a count: never negative. *)
Theorem snapshot_holds_counts (m : machine) :
  exists r,
    get_audio_state m = (m, r) /\
    match r with
    | Ok state =>
        readable (envs m (clock m)) = true /\
        forall key,
          match state !! key with
          | Some v => key ∈ indicator_keys /\ 0 <= v
          | None => key ∉ indicator_keys
          end
    | Raise x =>
        x = ValueError /\
        exists key cmd timeout,
          (key, cmd, timeout) ∈ probes /\
          PyStr.isdigit (probe_output (envs m (clock m)) cmd timeout) = true /\
          PyStr.int (probe_output (envs m (clock m)) cmd timeout) = Raise ValueError
    end.
Proof.
  rewrite get_audio_state_cases. eexists. split; [reflexivity|].
  destruct (readable (envs m (clock m))) eqn:Hr.
  - split; [done|].
    intros key. unfold snapshot, probes, indicator_keys.
    cbn [map list_to_map foldr fst snd].
    repeat (rewrite lookup_insert; case_decide;
            [subst key; split;
             [repeat first [apply list_elem_of_here | apply list_elem_of_further]
             |apply count_or_zero_nonneg]|]).
    rewrite lookup_empty.
    intros Hin. repeat (apply elem_of_cons in Hin; destruct Hin as [->|Hin]; [done|]).
    by apply elem_of_nil in Hin.
  - split; [done|]. by apply unreadable_probe.
Qed.

(** Decimal digits of any script are read, the other digits that
    [isdigit] accepts are not, and what [isdigit] rejects counts 0
    without [int] being asked. *)
Example digits_of_other_scripts :
  count_of [0x661; 0x662]%N = Ok 12 /\
  count_of [0xb2]%N = Raise ValueError /\
  count_of (PyStr.of_string "12a") = Ok 0 /\
  count_of (PyStr.of_string "-3") = Ok 0 /\
  count_of [] = Ok 0.
Proof. vm_compute. repeat split. Qed.

(** ** The state machine: what every reachable state looks like *)

(** An int below a float and an int at or above it are in that order. *)
Lemma compare_int_float_between (a b : Z) (f : spec_float) :
  Py.compare_int_float a f = Some Lt ->
  Py.compare_int_float b f = Some Gt \/ Py.compare_int_float b f = Some Eq ->
  a < b.
Proof.
  assert (Hord : forall x y z : Z,
             (x ?= z) = Lt -> (y ?= z) = Gt \/ (y ?= z) = Eq -> x < y).
  { intros x y z Hx Hy. change (x < z) in Hx.
    destruct Hy as [Hy%Z.compare_gt_iff|Hy%Z.compare_eq_iff]; lia. }
  destruct f as [s|[]| |s mant e]; cbn [Py.compare_int_float];
    try (intros ? [?|?]; discriminate).
  - intros [= Ha] [[= Hb]|[= Hb]]; eapply Hord; eauto.
  - destruct (Z.leb_spec 0 e).
    + intros [= Ha] [[= Hb]|[= Hb]]; eapply Hord; eauto.
    + assert (0 < 2 ^ (- e)) by (apply Z.pow_pos_nonneg; lia).
      intros [= Ha] Hb.
      assert (Hab : a * 2 ^ (- e) < b * 2 ^ (- e)).
      { eapply Hord; [exact Ha|]. destruct Hb as [[= Hb]|[= Hb]]; auto. }
      nia.
Qed.

(** Whatever the baseline, the start threshold is at least 50. *)
Lemma start_threshold_floor (score : Z) (raised : Py.num) :
  Py.ge (Py.Int score) (Py.max (Py.Int 50) raised) = true -> 50 <= score.
Proof.
  unfold Py.max, Py.gt, Py.ge.
  destruct raised as [b|f]; cbn [Py.compare option_map].
  - destruct (Z.compare_spec b 50); cbn [Py.compare];
      destruct (Z.compare_spec score 50), (Z.compare_spec score b);
      try discriminate; lia.
  - destruct (Py.compare_int_float 50 f) as [[]|] eqn:E50; cbn [option_map CompOpp Py.compare];
      try (destruct (Z.compare_spec score 50); try discriminate; lia).
    destruct (Py.compare_int_float score f) as [[]|] eqn:Es; try discriminate; intros _.
    + pose proof (compare_int_float_between 50 score f E50 (or_intror Es)). lia.
    + pose proof (compare_int_float_between 50 score f E50 (or_introl Es)). lia.
Qed.

Lemma detect_huddle_change_start_floor score m m1 should_end trend :
  detect_huddle_change score m = (m1, Ok (true, should_end, trend)) ->
  50 <= score.
Proof.
  unfold detect_huddle_change, bind, modify, gets, lift, ret.
  cbn [score_history set_score_history baseline_score in_huddle huddle_peak_score].
  destruct (compute_trend _); [|discriminate].
  destruct (Py.add _ (Py.Int 25)) as [raised|]; [|discriminate].
  destruct (in_huddle m).
  - cbn [huddle_peak_score set_score_history].
    destruct (Py.mul _ _); [|discriminate].
    destruct (Py.add _ (Py.Int 10)); discriminate.
  - intros [= _ H _ _]. cbn [negb andb] in H.
    apply andb_true_iff in H as [H _]. by apply start_threshold_floor in H.
Qed.

Lemma deque_append_length d x :
  (length d <= PyList.maxlen)%nat ->
  (length (PyList.deque_append d x) <= PyList.maxlen)%nat.
Proof.
  intros H. rewrite deque_append_spec by done.
  rewrite length_drop, length_app. cbn [length]. lia.
Qed.

Lemma updated_peak_ge m score : huddle_peak_score m <= updated_peak m score.
Proof.
  unfold updated_peak.
  destruct (in_huddle m); cbn [andb]; [|lia].
  destruct (Z.ltb_spec (huddle_peak_score m) score); lia.
Qed.

Lemma updated_peak_idle m score :
  in_huddle m = false -> updated_peak m score = huddle_peak_score m.
Proof. unfold updated_peak. intros ->. reflexivity. Qed.

(** A tick keeps the peak in step with the phase, however it ends. *)
Lemma handle_transitions_phase_peak score reasons :
  preserves phase_peak (handle_transitions score reasons).
Proof.
  intros m [Hi Ha].
  destruct (handle_transitions score reasons m) as [m' [trend|e]] eqn:Hh; cbn [fst].
  - destruct (handle_transitions_done _ _ _ _ _ Hh) as (st & en & Hd & _ & Hcase).
    destruct (detect_huddle_change_phase _ _ _ _ _ _ Hd) as [Hst Hen].
    pose proof (updated_peak_ge m score) as Hup.
    pose proof (updated_peak_idle m score) as Hui.
    unfold phase_peak.
    destruct st; [|destruct en].
    + pose proof (detect_huddle_change_start_floor _ _ _ _ _ Hd) as H50.
      assert (Hidle : in_huddle m = false)
        by (destruct (in_huddle m); [by specialize (Hst eq_refl)|done]).
      destruct Hcase as [_ Hcase].
      destruct (2 <=? consecutive_starts m + 1).
      * destruct Hcase as (-> & -> & _). split; [discriminate|done].
      * destruct Hcase as (-> & -> & _). rewrite Hui by done.
        split; [done|]. rewrite Hidle. discriminate.
    + destruct Hcase as [_ Hcase].
      destruct (2 <=? consecutive_ends m + 1).
      * destruct Hcase as (-> & -> & _). split; [done|discriminate].
      * destruct Hcase as (-> & -> & _). split.
        -- intros Hii. rewrite Hui by done. auto.
        -- intros Haa. specialize (Ha Haa). lia.
    + destruct Hcase as (_ & _ & -> & -> & _). split.
      * intros Hii. rewrite Hui by done. auto.
      * intros Haa. specialize (Ha Haa). lia.
  - apply handle_transitions_raised in Hh as (_ & Hp & Hk & _).
    unfold phase_peak. by rewrite Hp, Hk.
Qed.

(** A tick that completes keeps the shape. *)
Lemma handle_transitions_done_well_formed score reasons m m' trend :
  handle_transitions score reasons m = (m', Ok trend) ->
  well_formed m -> well_formed m'.
Proof.
  intros Hh (Hs & He & Hi & Ha & Hl).
  pose proof (handle_transitions_phase_peak score reasons m (conj Hi Ha)) as Hpp.
  rewrite Hh in Hpp. cbn [fst] in Hpp. destruct Hpp as [Hi' Ha'].
  destruct (handle_transitions_done _ _ _ _ _ Hh) as (st & en & Hd & Hhist & Hcase).
  destruct (detect_huddle_change_phase _ _ _ _ _ _ Hd) as [Hst Hen].
  unfold well_formed. rewrite Hhist.
  pose proof (deque_append_length (score_history m) score Hl) as Hl'.
  do 2 (try split); [| |done].
  - destruct st; [|destruct en].
    + assert (Hidle : in_huddle m = false)
        by (destruct (in_huddle m); [by specialize (Hst eq_refl)|done]).
      destruct Hcase as [_ Hcase].
      destruct (Z.leb_spec 2 (consecutive_starts m + 1)).
      * destruct Hcase as (_ & _ & -> & _). by left.
      * destruct Hcase as (-> & _ & -> & _). right. split; [lia|done].
    + destruct Hcase as [-> _]. by left.
    + destruct Hcase as [-> _]. by left.
  - destruct st; [|destruct en].
    + destruct Hcase as [-> _]. by left.
    + assert (Hact : in_huddle m = true)
        by (destruct (in_huddle m); [done|by specialize (Hen eq_refl)]).
      destruct Hcase as [_ Hcase].
      destruct (Z.leb_spec 2 (consecutive_ends m + 1)).
      * destruct Hcase as (_ & _ & -> & _). by left.
      * destruct Hcase as (-> & _ & -> & _). right. split; [lia|done].
    + destruct Hcase as (_ & -> & _). by left.
Qed.

Lemma scorer_small s : 0 <= s <= 150 -> small s.
Proof. intros H. apply small_const. lia. Qed.

(** On numbers that fit a double the detection answers. *)
Lemma detect_huddle_change_fits score m :
  fits m -> small score ->
  exists st en trend,
    detect_huddle_change score m
    = (set_score_history (PyList.deque_append (score_history m) score) m,
       Ok (st, en, trend)).
Proof.
  intros [Hh Hp] Hs.
  destruct (in_huddle m) eqn:Hact.
  - destruct (detect_huddle_change_active score m Hact) as (t & _ & ->); [|eauto].
    by repeat constructor.
  - destruct (detect_huddle_change_idle score m Hact) as (t & _ & ->); [|eauto].
    by repeat constructor.
Qed.

(** A tick that completes on a score that fits leaves numbers that
    fit, and a baseline that can be formatted if it could before. *)
Lemma handle_transitions_done_fits score reasons m m' trend :
  handle_transitions score reasons m = (m', Ok trend) ->
  small score -> fits m -> fits m'.
Proof.
  intros Hh Hs [Hhist Hp].
  destruct (handle_transitions_done _ _ _ _ _ Hh) as (st & en & _ & Hh' & Hcase).
  assert (Hup : small (updated_peak m score)).
  { unfold updated_peak. by destruct (_ && _). }
  assert (H0 : small 0) by (by apply small_const).
  unfold fits. rewrite Hh'.
  pose proof (deque_append_small _ _ Hhist Hs) as Hhist'.
  destruct st; [|destruct en].
  - destruct Hcase as [_ Hcase]. destruct (2 <=? consecutive_starts m + 1).
    + by destruct Hcase as (_ & -> & _).
    + by destruct Hcase as (_ & -> & _).
  - destruct Hcase as [_ Hcase]. destruct (2 <=? consecutive_ends m + 1).
    + by destruct Hcase as (_ & -> & _).
    + by destruct Hcase as (_ & -> & _).
  - by destruct Hcase as (_ & _ & _ & -> & _).
Qed.

Lemma handle_transitions_done_baseline score reasons m m' trend :
  handle_transitions score reasons m = (m', Ok trend) ->
  small score -> fits_double (baseline_score m) -> fits_double (baseline_score m').
Proof.
  intros Hh Hs Hb.
  destruct (handle_transitions_done _ _ _ _ _ Hh) as (st & en & _ & _ & Hcase).
  destruct st; [|destruct en].
  - destruct Hcase as [_ Hcase]. destruct (2 <=? consecutive_starts m + 1).
    + by destruct Hcase as (_ & _ & _ & ->).
    + by destruct Hcase as (_ & _ & _ & ->).
  - destruct Hcase as [_ Hcase]. destruct (2 <=? consecutive_ends m + 1).
    + by destruct Hcase as (_ & _ & _ & ->).
    + by destruct Hcase as (_ & _ & _ & ->).
  - by destruct Hcase as (_ & _ & _ & _ & ->).
Qed.

(** On numbers that fit a double and with a baseline that can be
    formatted a tick completes, and it leaves such numbers and such a
    baseline. *)
Lemma handle_transitions_completes score reasons m :
  fits m -> fits_double (baseline_score m) -> small score ->
  exists trend m',
    handle_transitions score reasons m = (m', Ok trend) /\
    fits m' /\ fits_double (baseline_score m').
Proof.
  intros Hf Hb Hs.
  destruct (detect_huddle_change_fits score m Hf Hs) as (st & en & trend & Hd).
  destruct (handle_transitions_ok score reasons m _ _ _ _ Hd (blocked_start_fits m st Hb))
    as (m' & Hh & _).
  exists trend, m'. split; [done|]. split.
  - by apply (handle_transitions_done_fits _ _ _ _ _ Hh).
  - by apply (handle_transitions_done_baseline _ _ _ _ _ Hh).
Qed.

(** In a sound state a tick on a score that fits completes, and the
    state it leaves is sound. *)
Lemma handle_transitions_sound score reasons m :
  sound m -> small score ->
  exists trend m',
    handle_transitions score reasons m = (m', Ok trend) /\ sound m'.
Proof.
  intros (Hw & Hf & Hb) Hs.
  destruct (handle_transitions_completes score reasons m Hf Hb Hs)
    as (trend & m' & Hh & Hf' & Hb').
  exists trend, m'. split; [done|].
  split; [|done]. eapply handle_transitions_done_well_formed; eauto.
Qed.

(** An invariant kept by a pass of the loop and by the farewell is kept
    by the loop. *)
Lemma preserves_loop (I : machine -> Prop) :
  preserves I iteration -> preserves I (print PrintStopped) ->
  forall fuel, preserves I (loop fuel).
Proof.
  intros Hit Hstop. induction fuel as [|fuel IH]; cbn [loop].
  - apply preserves_ret.
  - apply preserves_bind; [exact Hit|]. intros []; [exact IH|exact Hstop].
Qed.

(** An invariant is carried through a program step by step; [hint]
    settles the steps that are particular to the invariant. *)
Ltac preserves_with hint :=
  repeat first
    [ solve [hint]
    | apply preserves_ret | apply preserves_raise | apply preserves_lift
    | apply preserves_gets
    | apply preserves_modify; intros ? ?; assumption
    | match goal with
      | |- preserves _ (bind _ _) => apply preserves_bind; [|intros ?]
      | |- preserves _ (try_except _ _ _) => apply preserves_try_except; [|intros ?]
      | |- preserves _ (for_each _ _ _) => apply preserves_for_each; intros ? ?
      | |- preserves _ (loop _) => apply preserves_loop
      | |- preserves _ (if ?b then _ else _) => destruct b
      | |- preserves _ (match ?x with _ => _ end) => destruct x
      | |- preserves _ get_audio_state => apply preserves_get_audio_state
      | |- preserves _ current_env => apply preserves_gets
      | |- preserves _ (sleep _) => unfold sleep
      | |- preserves _ (print _) => unfold print
      | |- preserves _ (write_status_file _ _ _) => unfold write_status_file
      | |- preserves _ (report _ _ _) => unfold report
      | |- preserves _ (error_branch _) => unfold error_branch
      | |- preserves _ (calibration_sample _ _) => unfold calibration_sample
      | |- preserves _ calibrate => unfold calibrate
      | |- preserves _ (detect_huddle_change _) => unfold detect_huddle_change
      | |- preserves _ (handle_transitions _ _) => unfold handle_transitions
      | |- preserves _ iteration => unfold iteration
      | |- preserves _ (run _) => unfold run
      end ].

(** Code outside the transition handling does not touch what the state
    machine owns. *)
Lemma report_keeps_core k b state score trend :
  preserves (fun x => core x = k /\ baseline_score x = b) (report state score trend).
Proof. preserves_with fail. Qed.

Lemma error_branch_keeps_core k b x :
  preserves (fun x => core x = k /\ baseline_score x = b) (error_branch x).
Proof. preserves_with fail. Qed.

Lemma print_keeps_core k b o :
  preserves (fun x => core x = k /\ baseline_score x = b) (print o).
Proof. preserves_with fail. Qed.

Lemma calibrate_keeps_core k : preserves (fun x => core x = k) calibrate.
Proof. preserves_with fail. Qed.

Lemma well_formed_core m m' : core m' = core m -> well_formed m -> well_formed m'.
Proof.
  unfold core, well_formed. intros [= -> -> -> -> ->]. done.
Qed.

Lemma fits_core m m' : core m' = core m -> fits m -> fits m'.
Proof. unfold core, fits. intros [= Hi Hp Hs He Hh]. by rewrite Hp, Hh. Qed.

Lemma sound_agree a b : agree a b -> sound b -> sound a.
Proof.
  intros [Hc Hb] (Hw & Hf & Hd). split; [|split].
  - by apply (well_formed_core b).
  - by apply (fits_core b).
  - unfold fits_double. by rewrite Hb.
Qed.

Lemma keeps_agree {A} (c : M A) m :
  (forall k b, preserves (fun x => core x = k /\ baseline_score x = b) c) ->
  agree (fst (c m)) m.
Proof. intros H. by apply (H (core m) (baseline_score m) m). Qed.

(** The transition handling neither moves the clock nor changes the
    world it reads. *)
Lemma handle_transitions_keeps_env w n score reasons :
  preserves (fun x => envs x = w /\ clock x = n) (handle_transitions score reasons).
Proof. preserves_with fail. Qed.

(** The snapshot of a complete probe table is scored, between 0 and
    150. *)
Lemma snapshot_score e :
  exists s rs, calculate_score (snapshot e) = Ok (s, rs) /\ 0 <= s <= 150.
Proof.
  destruct (calculate_score_total _ (snapshot_has_indicators e)) as (s & rs & Hc & _ & _ & Hb).
  by exists s, rs.
Qed.

(** One pass of the loop, by what the [try] body does: the probes are
    read (or [int] raises), the snapshot is scored, the tick is handled
    and reported; the two [except] clauses see to the rest. *)
Lemma iteration_cases m :
  iteration m
  = handled
      (if readable (envs m (clock m)) then
         match calculate_score (snapshot (envs m (clock m))) with
         | Ok sr =>
             match handle_transitions (fst sr) (snd sr) m with
             | (m1, Ok trend) =>
                 match report (snapshot (envs m (clock m))) (fst sr) trend m1 with
                 | (m2, Ok _) => (m2, Ok true)
                 | (m2, Raise x) => (m2, Raise x)
                 end
             | (m1, Raise x) => (m1, Raise x)
             end
         | Raise x => (m, Raise x)
         end
       else (m, Raise ValueError)).
Proof.
  unfold iteration, try_except at 1 2, handled.
  unfold bind at 1. rewrite get_audio_state_cases.
  destruct (readable (envs m (clock m))); [|reflexivity].
  unfold bind at 1, lift at 1.
  destruct (calculate_score _) as [sr|x]; [|by destruct x].
  unfold bind at 1.
  destruct (handle_transitions (fst sr) (snd sr) m) as [m1 [t|x]]; [|by destruct x].
  unfold bind at 1.
  destruct (report _ (fst sr) t m1) as [m2 [[]|x]]; [reflexivity|by destruct x].
Qed.

(** What the two [except] clauses leave of the state machine. *)
Lemma handled_agree r : agree (fst (handled r)) (fst r).
Proof.
  destruct r as [m [b|x]]; [done|].
  destruct x; try done;
    apply (keeps_agree (error_branch _)); intros k b; apply error_branch_keeps_core.
Qed.

(** A pass of the loop is, for the state machine, one tick on the score
    of the snapshot, or nothing at all when the probes cannot be
    read. *)
Lemma iteration_agree m :
  let e := envs m (clock m) in
  if readable e then
    exists s rs, calculate_score (snapshot e) = Ok (s, rs) /\ 0 <= s <= 150 /\
      agree (fst (iteration m)) (fst (handle_transitions s rs m))
  else agree (fst (iteration m)) m.
Proof.
  intros e. pose proof (iteration_cases m) as Hit. fold e in Hit.
  pose proof (handled_agree) as Hag.
  destruct (readable e).
  - destruct (snapshot_score e) as (s & rs & Hc & Hb). exists s, rs.
    split; [done|]. split; [done|].
    rewrite Hc in Hit. cbn [fst snd] in Hit. rewrite Hit.
    destruct (handle_transitions s rs m) as [m1 [t|x]]; [|apply Hag].
    pose proof (keeps_agree (report (snapshot e) s t) m1
                  (fun k b => report_keeps_core k b _ _ _)) as Hrep.
    destruct (report (snapshot e) s t m1) as [m2 [[]|x]]; cbn [fst] in *.
    + exact Hrep.
    + destruct (Hag (m2, Raise x)) as [H1 H2]. destruct Hrep as [H3 H4].
      cbn [fst] in H1, H2. split; congruence.
  - rewrite Hit. apply Hag.
Qed.

Lemma iteration_sound : preserves sound iteration.
Proof.
  intros m Hm. pose proof (iteration_agree m) as H. cbv zeta in H.
  destruct (readable (envs m (clock m))).
  - destruct H as (s & rs & _ & Hb & Hag).
    apply (sound_agree _ _ Hag).
    destruct (handle_transitions_sound s rs m Hm (scorer_small s Hb)) as (t & m' & -> & Hm').
    exact Hm'.
  - by apply (sound_agree _ _ H).
Qed.

Lemma print_sound o : preserves sound (print o).
Proof.
  intros m Hm. refine (sound_agree _ _ _ Hm).
  apply (keeps_agree (print o)). intros k b. apply print_keeps_core.
Qed.

Lemma loop_sound fuel : preserves sound (loop fuel).
Proof. apply preserves_loop; [apply iteration_sound|apply print_sound]. Qed.

(** Calibration leaves a float as the baseline wherever it stops. *)
Lemma calibrate_sound : preserves sound calibrate.
Proof.
  intros m (Hw & Hf & Hb).
  pose proof (calibrate_keeps_core (core m) m eq_refl) as Hc.
  split; [by apply (well_formed_core m)|]. split; [by apply (fits_core m)|].
  revert Hb. generalize m.
  change (preserves (fun x => fits_double (baseline_score x)) calibrate).
  preserves_with ltac:(apply preserves_modify; intros ? ?; exact I).
Qed.

Lemma run_sound fuel : preserves sound (run fuel).
Proof.
  unfold run.
  preserves_with ltac:(first
    [ apply calibrate_sound | apply loop_sound | apply print_sound
    | apply preserves_modify; intros ? ((Hs & He & Hrest) & Hf & Hb);
      (split; [|by split]); split; [by left|done]
    | apply preserves_modify; intros ? ((Hs & He & Hrest) & Hf & Hb);
      (split; [|by split]); split; [done|]; split; [by left|done] ]).
Qed.

Lemma new_detector_sound username world : sound (new_detector username world).
Proof.
  split; [|split].
  - unfold well_formed, new_detector, PyList.maxlen. cbn.
    repeat split; (by left) || done || lia.
  - split; [constructor|by apply small_const].
  - by apply small_const.
Qed.

Lemma feed_sound scores : forall m,
  Forall small scores -> sound m -> sound (feed scores m).
Proof.
  unfold feed. induction scores as [|s scores IH]; intros m Hs Hm; cbn [fold_left]; [done|].
  apply Forall_cons in Hs as [Hs Hrest].
  apply IH; [done|].
  by destruct (handle_transitions_sound s [] m Hm Hs) as (t & m' & -> & Hm').
Qed.

(** X6. At every point the loop can reach from a new detector, whatever
    the world does, each debounce counter is 0 or 1; a counted start is
    pending only in IDLE and a counted end only in ACTIVE.  The same
    holds when the state machine of a new detector is fed scores that are
    far inside the range of a double. *)
Theorem counters_are_zero_or_one :
  (forall fuel username world,
      let m := fst (run fuel (new_detector username world)) in
      (consecutive_starts m = 0 \/ consecutive_starts m = 1 /\ in_huddle m = false) /\
      (consecutive_ends m = 0 \/ consecutive_ends m = 1 /\ in_huddle m = true)) /\
  (forall scores username world,
      Forall small scores ->
      let m := feed scores (new_detector username world) in
      (consecutive_starts m = 0 \/ consecutive_starts m = 1 /\ in_huddle m = false) /\
      (consecutive_ends m = 0 \/ consecutive_ends m = 1 /\ in_huddle m = true)).
Proof.
  split.
  - intros fuel username world.
    destruct (run_sound fuel _ (new_detector_sound username world))
      as ((Hs & He & _) & _). done.
  - intros scores username world Hsc.
    destruct (feed_sound scores _ Hsc (new_detector_sound username world))
      as ((Hs & He & _) & _). done.
Qed.

Lemma counters_are_zero_or_one_witness :
  let m := feed [60; 60; 0; 0; 60] (new_detector "user" (fun _ => quiet_env)) in
  (consecutive_starts m = 0 \/ consecutive_starts m = 1 /\ in_huddle m = false) /\
  (consecutive_ends m = 0 \/ consecutive_ends m = 1 /\ in_huddle m = true).
Proof.
  apply (proj2 counters_are_zero_or_one [60; 60; 0; 0; 60] "user" (fun _ => quiet_env)).
  repeat constructor; by apply small_const.
Defined.

(** Fed with scores too large for a double the counter can pass 1: the
    re-anchored baseline cannot be formatted, so the start announcement
    raises after the start was counted. *)
Example start_counter_reaches_two :
  let big := - 2 ^ 1024 in
  let m := feed [60; 60; big; big; 60; 60] (new_detector "user" (fun _ => quiet_env)) in
  consecutive_starts m = 2 /\ in_huddle m = false /\ baseline_score m = Py.Int big.
Proof. vm_compute. repeat split. Qed.

Lemma phase_peak_core m m' : core m' = core m -> phase_peak m -> phase_peak m'.
Proof. unfold core, phase_peak. intros [= -> -> _ _ _]. done. Qed.

Lemma iteration_phase_peak : preserves phase_peak iteration.
Proof.
  intros m Hm. pose proof (iteration_agree m) as H. cbv zeta in H.
  destruct (readable (envs m (clock m))).
  - destruct H as (s & rs & _ & _ & [Hag _]).
    apply (phase_peak_core _ _ Hag). by apply handle_transitions_phase_peak.
  - destruct H as [Hag _]. by apply (phase_peak_core _ _ Hag).
Qed.

Lemma run_phase_peak fuel : preserves phase_peak (run fuel).
Proof. preserves_with ltac:(apply iteration_phase_peak). Qed.

Lemma feed_phase_peak scores : forall m, phase_peak m -> phase_peak (feed scores m).
Proof.
  unfold feed. induction scores as [|s scores IH]; intros m Hm; cbn [fold_left]; [done|].
  apply IH. by apply handle_transitions_phase_peak.
Qed.

(** X7. At every point the loop can reach, the peak is 0 while IDLE and
    at least 50 while ACTIVE (a huddle can only have started on a score
    of 50 or more, and the peak never falls during it). *)
Theorem peak_follows_phase :
  (forall fuel username world,
      let m := fst (run fuel (new_detector username world)) in
      (in_huddle m = false -> huddle_peak_score m = 0) /\
      (in_huddle m = true -> 50 <= huddle_peak_score m)) /\
  (forall scores username world,
      let m := feed scores (new_detector username world) in
      (in_huddle m = false -> huddle_peak_score m = 0) /\
      (in_huddle m = true -> 50 <= huddle_peak_score m)).
Proof.
  assert (H0 : forall username world, phase_peak (new_detector username world)).
  { intros. split; [done|discriminate]. }
  split.
  - intros fuel username world. apply (run_phase_peak fuel _ (H0 username world)).
  - intros scores username world. apply (feed_phase_peak scores _ (H0 username world)).
Qed.

(** However a tick ends, the score is in the history afterwards. *)
Lemma handle_transitions_history score reasons m :
  score_history (fst (handle_transitions score reasons m))
  = PyList.deque_append (score_history m) score.
Proof.
  destruct (handle_transitions score reasons m) as [m' [trend|e]] eqn:Hh; cbn [fst].
  - by destruct (handle_transitions_done _ _ _ _ _ Hh) as (st & en & _ & Hhist & _).
  - by apply handle_transitions_raised in Hh as (Hhist & _).
Qed.

Lemma feed_history scores : forall m l,
  score_history m = pushed l ->
  score_history (feed scores m) = pushed (l ++ scores).
Proof.
  unfold feed. induction scores as [|s scores IH]; intros m l Hm; cbn [fold_left].
  - by rewrite app_nil_r.
  - rewrite (IH _ (l ++ [s])).
    + by rewrite <- app_assoc.
    + rewrite handle_transitions_history, Hm. symmetry. apply pushed_snoc.
Qed.

(** X8. The history is a sliding window: after any scores were fed to the
    state machine it holds the last ten of all scores ever pushed, oldest
    first, also those of ticks that raised. *)
Theorem history_is_last_ten (m : machine) (before scores : list Z) :
  score_history m = pushed before ->
  let all := before ++ scores in
  score_history (feed scores m) = drop (length all - 10) all /\
  (length (score_history (feed scores m)) <= 10)%nat.
Proof.
  intros Hm all. rewrite (feed_history scores m before Hm).
  rewrite pushed_spec. split; [reflexivity|].
  rewrite length_drop. unfold PyList.maxlen. lia.
Qed.

Lemma history_is_last_ten_witness :
  let scores : list Z := [1; 2; 3; 4; 5; 6; 7; 8; 9; 10; 11; 12] in
  let all := [] ++ scores in
  score_history (feed scores fresh) = drop (length all - 10) all /\
  (length (score_history (feed scores fresh)) <= 10)%nat.
Proof.
  intros scores.
  apply (history_is_last_ten fresh [] scores).
  reflexivity.
Defined.

(** After a tick that changed the phase both counters are 0. *)
Lemma phase_change_clears_counters score reasons m m' r :
  handle_transitions score reasons m = (m', r) ->
  in_huddle m' <> in_huddle m ->
  consecutive_starts m' = 0 /\ consecutive_ends m' = 0.
Proof.
  intros Hh Hflip. destruct r as [t|e].
  - destruct (handle_transitions_done _ _ _ _ _ Hh) as (st & en & _ & _ & Hcase).
    destruct st; [|destruct en].
    + destruct Hcase as [? Hcase].
      destruct (2 <=? consecutive_starts m + 1); [by destruct Hcase as (_ & _ & ? & _)|].
      by destruct Hcase as (? & _).
    + destruct Hcase as [? Hcase].
      destruct (2 <=? consecutive_ends m + 1); [by destruct Hcase as (_ & _ & ? & _)|].
      by destruct Hcase as (? & _).
    + by destruct Hcase as (_ & _ & ? & _).
  - by apply handle_transitions_raised in Hh as (_ & ? & _).
Qed.

(** With both counters at 0 a tick leaves the phase as it is. *)
Lemma first_tick_keeps_phase score reasons m m' r :
  handle_transitions score reasons m = (m', r) ->
  consecutive_starts m = 0 -> consecutive_ends m = 0 ->
  in_huddle m' = in_huddle m.
Proof.
  intros Hh Hs He. destruct r as [t|e].
  - destruct (handle_transitions_done _ _ _ _ _ Hh) as (st & en & _ & _ & Hcase).
    rewrite Hs, He in Hcase. cbn in Hcase.
    destruct st; [|destruct en].
    + by destruct Hcase as (_ & ? & _).
    + by destruct Hcase as (_ & ? & _).
    + by destruct Hcase as (_ & _ & ? & _).
  - by apply handle_transitions_raised in Hh as (_ & ? & _).
Qed.

(** X9. A confirmed transition cannot be reversed by the very next tick:
    after the phase changed, one more tick, whatever its score, leaves
    the new phase in place. *)
Theorem no_reversal_on_next_tick (m m1 m2 : machine) (s1 s2 : Z)
    (r1 r2 : list string) (res1 res2 : result Py.num) :
  handle_transitions s1 r1 m = (m1, res1) ->
  in_huddle m1 <> in_huddle m ->
  handle_transitions s2 r2 m1 = (m2, res2) ->
  in_huddle m2 = in_huddle m1.
Proof.
  intros H1 Hflip H2.
  destruct (phase_change_clears_counters _ _ _ _ _ H1 Hflip) as [Hs He].
  by apply (first_tick_keeps_phase _ _ _ _ _ H2).
Qed.

Lemma no_reversal_on_next_tick_witness :
  in_huddle (feed [69; 0] (set_consecutive_ends 1 in_session))
  = in_huddle (feed [69] (set_consecutive_ends 1 in_session)).
Proof.
  apply (no_reversal_on_next_tick (set_consecutive_ends 1 in_session)
           (feed [69] (set_consecutive_ends 1 in_session))
           (feed [69; 0] (set_consecutive_ends 1 in_session)) 69 0 [] []
           (snd (handle_transitions 69 [] (set_consecutive_ends 1 in_session)))
           (snd (handle_transitions 0 [] (feed [69] (set_consecutive_ends 1 in_session))))).
  - vm_compute. reflexivity.
  - vm_compute. discriminate.
  - vm_compute. reflexivity.
Defined.

(** X10. A score below 50 never counts towards a start, whatever the
    baseline and the trend; and with an integer baseline [b] (as after a
    re-anchoring) neither does a score below [b + 25]. *)
Theorem low_score_never_starts (m m' : machine) (score : Z)
    (reasons : list string) (trend : Py.num) :
  in_huddle m = false ->
  score < 50 \/ (exists b, baseline_score m = Py.Int b /\ score < b + 25) ->
  handle_transitions score reasons m = (m', Ok trend) ->
  in_huddle m' = false /\ consecutive_starts m' = 0.
Proof.
  intros Hidle Hlow Hh.
  destruct (handle_transitions_done _ _ _ _ _ Hh) as (st & en & Hd & _ & Hcase).
  destruct (detect_huddle_change_phase _ _ _ _ _ _ Hd) as [_ Hen].
  specialize (Hen Hidle). subst en.
  destruct st.
  - exfalso. destruct Hlow as [Hlow|(b & Hb & Hlow)].
    + pose proof (detect_huddle_change_start_floor _ _ _ _ _ Hd). lia.
    + revert Hd. unfold detect_huddle_change, bind, modify, gets, lift, ret.
      cbn [score_history set_score_history baseline_score in_huddle huddle_peak_score].
      rewrite Hb, Hidle. cbn [Py.add].
      destruct (compute_trend _); [|discriminate].
      intros [= H]. cbn [negb andb] in H.
      apply andb_true_iff in H as [H _].
      unfold Py.ge, Py.max, Py.gt in H. cbn [Py.compare] in H.
      destruct (Z.compare_spec (b + 25) 50); cbn [Py.compare] in H;
        destruct (Z.compare_spec score 50), (Z.compare_spec score (b + 25));
        try discriminate; lia.
  - destruct Hcase as (? & _ & Hi & _). rewrite Hi. done.
Qed.

Lemma low_score_never_starts_witness :
  in_huddle (feed [49] fresh) = false /\ consecutive_starts (feed [49] fresh) = 0.
Proof.
  apply (low_score_never_starts fresh (feed [49] fresh) 49 [] (Py.Int 0)).
  - reflexivity.
  - left. vm_compute. reflexivity.
  - vm_compute. reflexivity.
Defined.

(** ** Exceptions: what can be raised and where it is caught *)

Lemma int_truediv_exn a e : Py.int_truediv a 3 = Raise e -> e = OverflowError.
Proof.
  unfold Py.int_truediv. cbn [Z.eqb].
  destruct (SFdiv _ _ _ _); intros [=]; done.
Qed.

Lemma int_to_float_exn z e : Py.int_to_float z = Raise e -> e = OverflowError.
Proof.
  unfold Py.int_to_float. destruct (binary_normalize _ _ _ _ _); intros [=]; done.
Qed.

Lemma compute_trend_exn history e :
  compute_trend history = Raise e -> e = OverflowError.
Proof.
  unfold compute_trend. destruct (3 <=? length history)%nat; [|discriminate].
  destruct (Py.int_truediv _ 3) as [r|e1] eqn:E1; cbn [rbind];
    [|intros [= <-]; by apply int_truediv_exn in E1].
  destruct (6 <=? length history)%nat; cbv beta iota; [|discriminate].
  destruct (Py.int_truediv (Py.sum (PyList.slice history (Some (-6)) (Some (-3)))) 3)
    as [o|e2] eqn:E2; cbn [rbind];
    [discriminate|intros [= <-]; by apply int_truediv_exn in E2].
Qed.

Lemma detect_huddle_change_exn score m m1 e :
  detect_huddle_change score m = (m1, Raise e) -> e = OverflowError.
Proof.
  unfold detect_huddle_change, bind, modify, gets, lift, ret.
  cbn [score_history set_score_history baseline_score in_huddle huddle_peak_score].
  destruct (compute_trend _) as [t|e1] eqn:Et;
    [|intros [= _ <-]; by apply compute_trend_exn in Et].
  destruct (add_int_ok (baseline_score m) 25) as [raised ->]; [by apply small_const|].
  destruct (in_huddle m); [|discriminate].
  cbn [huddle_peak_score set_score_history].
  destruct (Py.mul _ _) as [ratio|e2] eqn:Em.
  - destruct (add_int_ok (baseline_score m) 10) as [near ->]; [by apply small_const|].
    discriminate.
  - intros [= _ <-]. cbn [Py.mul Py.to_float] in Em.
    destruct (Py.int_to_float (huddle_peak_score m)) as [f|e3] eqn:Ef; cbn [rbind] in Em;
      [discriminate|].
    injection Em as <-. by apply int_to_float_exn in Ef.
Qed.

(** X11. The only exception a tick of the state machine on a score far
    inside the range of a double can raise is [OverflowError], and it is
    raised in one of two places.  Either in [detect_huddle_change],
    because a score of the history or the peak is too large for a float:
    then the score was pushed and nothing else has changed.  Or on the
    start announcement, because the baseline is an int too large for
    [:.0f]: then the detector is in IDLE, the start was counted (the
    counter is 2 or more now), the end counter was cleared and the first
    line of the announcement was printed, while phase, peak and baseline
    are as they were. *)
Theorem tick_raises_only_overflow (m m' : machine) (score : Z)
    (reasons : list string) (e : exn) :
  small score ->
  handle_transitions score reasons m = (m', Raise e) ->
  e = OverflowError /\
  score_history m' = PyList.deque_append (score_history m) score /\
  in_huddle m' = in_huddle m /\
  huddle_peak_score m' = huddle_peak_score m /\
  baseline_score m' = baseline_score m /\
  (m' = set_score_history (PyList.deque_append (score_history m) score) m /\
   ~ fits m
   \/
   in_huddle m = false /\
   2 <= consecutive_starts m + 1 /\
   m' = set_stdout (PrintStartedHeader (now (envs m (clock m))) :: stdout m)
          (set_consecutive_ends 0
             (set_consecutive_starts (consecutive_starts m + 1)
                (set_score_history (PyList.deque_append (score_history m) score) m))) /\
   ~ fits_double (baseline_score m)).
Proof.
  intros Hs Hh.
  pose proof (handle_transitions_raised _ _ _ _ _ Hh) as (Hhist & Hp & Hk & Hb & Hcase).
  assert (He : e = OverflowError).
  { destruct Hcase as [(_ & _ & Hd)|(_ & _ & _ & _ & Hf)].
    - by apply detect_huddle_change_exn in Hd.
    - by apply format_f_raises in Hf. }
  do 5 (split; [done|]).
  pose proof (detect_huddle_change_frame score m) as Hfr.
  destruct (detect_huddle_change score m) as [m1 [[[st en] tr]|e']] eqn:Hd;
    cbn [fst] in Hfr; subst m1.
  - right. destruct (blocked_start m st) eqn:Hbl.
    + destruct (handle_transitions_blocked score reasons m _ _ _ _ Hd Hbl) as (-> & H2 & Hh').
      destruct (detect_huddle_change_phase _ _ _ _ _ _ Hd) as [Hst _].
      split; [destruct (in_huddle m); [by specialize (Hst eq_refl)|done]|].
      split; [done|]. split; [congruence|].
      intros Hfit. by rewrite (blocked_start_fits m true Hfit) in Hbl.
    + destruct (handle_transitions_ok score reasons m _ _ _ _ Hd Hbl) as (m'' & Hh' & _).
      congruence.
  - left. rewrite (handle_transitions_raise _ _ _ _ _ Hd) in Hh. split; [congruence|].
    intros Hfit. destruct (detect_huddle_change_fits score m Hfit Hs) as (st & en & t & Hd').
    congruence.
Qed.

Lemma tick_raises_only_overflow_witness :
  let m := set_consecutive_starts 1 (set_baseline_score (Py.Int (- 2 ^ 1100)) fresh) in
  let m' := fst (handle_transitions 60 [] m) in
  OverflowError = OverflowError /\
  score_history m' = PyList.deque_append (score_history m) 60 /\
  in_huddle m' = in_huddle m /\
  huddle_peak_score m' = huddle_peak_score m /\
  baseline_score m' = baseline_score m /\
  (m' = set_score_history (PyList.deque_append (score_history m) 60) m /\
   ~ fits m
   \/
   in_huddle m = false /\
   2 <= consecutive_starts m + 1 /\
   m' = set_stdout (PrintStartedHeader (now (envs m (clock m))) :: stdout m)
          (set_consecutive_ends 0
             (set_consecutive_starts (consecutive_starts m + 1)
                (set_score_history (PyList.deque_append (score_history m) 60) m))) /\
   ~ fits_double (baseline_score m)).
Proof.
  intros m m'.
  apply (tick_raises_only_overflow m m' 60 [] OverflowError).
  - by apply small_const.
  - vm_compute. reflexivity.
Defined.

(** The other place: a score of the history is too large, and the tick
    raises before anything is counted. *)
Example tick_raises_in_detection :
  let m := set_score_history [2 ^ 1100; 0] fresh in
  handle_transitions 0 [] m
  = (set_score_history [2 ^ 1100; 0; 0] m, Raise OverflowError).
Proof. vm_compute. reflexivity. Qed.

(** [write_status_file] ends normally unless a disk operation itself was
    interrupted from the keyboard. *)
Lemma write_status_file_result score state trend m :
  snd (write_status_file score state trend m) = Ok tt \/
  snd (write_status_file score state trend m) = Raise KeyboardInterrupt /\
  (file_open (envs m (clock m)) = Raise KeyboardInterrupt \/
   file_write (envs m (clock m)) = Raise KeyboardInterrupt \/
   file_chmod (envs m (clock m)) = Raise KeyboardInterrupt).
Proof.
  unfold write_status_file, try_except, bind, current_env, gets, lift, ret, modify, getitem.
  repeat match goal with
         | |- context [state !! ?k] => destruct (state !! k)
         end; cbn; try (by left).
  destruct (file_open (envs m (clock m))) as [[]|[]]; cbn; try (by left);
    [|right; split; [reflexivity|by left]].
  destruct (file_write (envs m (clock m))) as [[]|[]]; cbn; try (by left);
    [|right; split; [reflexivity|right; by left]].
  destruct (file_chmod (envs m (clock m))) as [[]|[]]; cbn; try (by left).
  right. split; [reflexivity|right; by right].
Qed.

(** When the rest of the loop body raises, the interval has not ended;
    and [KeyboardInterrupt] is raised only if it arrived in a disk
    operation or in the sleep. *)
Lemma report_raised state score trend m m2 x :
  report state score trend m = (m2, Raise x) ->
  envs m2 = envs m /\ clock m2 = clock m /\
  (x = KeyboardInterrupt -> interrupted (envs m (clock m))).
Proof.
  unfold report, bind at 1.
  destruct (write_status_file_frame score state trend m) as [fs Hfr].
  pose proof (write_status_file_result score state trend m) as Hres.
  destruct (write_status_file score state trend m) as [m1 r].
  cbn [fst snd] in Hfr, Hres. subst m1.
  destruct Hres as [->|[-> Hki]].
  - unfold bind, gets, lift, getitem, print, sleep, modify, current_env, gets, ret, raise.
    cbn [in_huddle baseline_score huddle_peak_score set_files envs clock].
    destruct (in_huddle m); [|destruct (Py.format_f (baseline_score m)) as [[]|ef] eqn:Ef];
      repeat match goal with
             | |- context [state !! ?k] => destruct (state !! k)
             end; cbn;
      try destruct (sleep_interrupted (envs m (clock m))) eqn:Hsl; cbn;
      intros [= <- <-]; cbn; (split; [done|]); (split; [done|]); try discriminate;
      try (intros _; right; right; by right).
    intros ->. by apply format_f_raises in Ef.
  - intros [= <- <-]. cbn. split; [done|]. split; [done|]. intros _.
    destruct Hki as [?|[?|?]]; [by left|right; by left|right; right; by left].
Qed.

(** With a complete snapshot and a baseline that can be formatted, only
    [KeyboardInterrupt] stops the rest of the loop body. *)
Lemma report_result state score trend m m2 x :
  has_indicators state ->
  in_huddle m = true \/ fits_double (baseline_score m) ->
  report state score trend m = (m2, Raise x) ->
  x = KeyboardInterrupt.
Proof.
  intros Hs Hfmt. unfold has_indicators, indicator_keys in Hs.
  repeat (apply Forall_cons in Hs; destruct Hs as [[? ?] Hs]).
  assert (Hf : in_huddle m = false -> Py.format_f (baseline_score m) = Ok tt).
  { intros Hi. destruct Hfmt as [Ht|Hb]; [congruence|by apply format_f_fits]. }
  unfold report, bind at 1.
  destruct (write_status_file_frame score state trend m) as [fs Hfr].
  pose proof (write_status_file_result score state trend m) as Hres.
  destruct (write_status_file score state trend m) as [m1 r].
  cbn [fst snd] in Hfr, Hres. subst m1.
  destruct Hres as [->|[-> Hki]]; [|by intros [= _ <-]].
  unfold bind, gets, lift, getitem, print, sleep, modify, current_env, gets, ret, raise.
  cbn [in_huddle baseline_score huddle_peak_score set_files envs clock].
  destruct (in_huddle m); [|rewrite (Hf eq_refl)];
    repeat match goal with H : _ !! _ = Some _ |- _ => rewrite H end;
    cbn; destruct (sleep_interrupted (envs m (clock m))); cbn; intros [= _ <-]; done.
Qed.

(** The [except Exception] branch: the error line, then the sleep. *)
Lemma error_branch_cases x m :
  error_branch x m
  = if sleep_interrupted (envs m (clock m))
    then (set_stdout (PrintError x :: stdout m) m, Raise KeyboardInterrupt)
    else (set_clock (S (clock m)) (set_stdout (PrintError x :: stdout m) m), Ok true).
Proof.
  unfold error_branch, bind, print, sleep, modify, current_env, gets, bind, raise, ret.
  cbn. by destruct (sleep_interrupted (envs m (clock m))).
Qed.

(** The ways a pass of the loop can end, with the interrupts of the
    interval that lead to them. *)
Lemma iteration_result m :
  snd (iteration m) = Ok true \/
  snd (iteration m) = Ok false /\ interrupted (envs m (clock m)) \/
  snd (iteration m) = Raise KeyboardInterrupt /\
  sleep_interrupted (envs m (clock m)) = true.
Proof.
  rewrite iteration_cases.
  assert (Herr : forall x m1,
    envs m1 = envs m -> clock m1 = clock m ->
    (x = KeyboardInterrupt -> interrupted (envs m (clock m))) ->
    snd (handled (m1, Raise x)) = Ok true \/
    snd (handled (m1, Raise x)) = Ok false /\ interrupted (envs m (clock m)) \/
    snd (handled (m1, Raise x)) = Raise KeyboardInterrupt /\
    sleep_interrupted (envs m (clock m)) = true).
  { intros x m1 Hw Hn Hki. unfold handled.
    destruct x; try (rewrite error_branch_cases, Hw, Hn;
      destruct (sleep_interrupted (envs m (clock m))); cbn; [right; right|left]; done).
    right. left. split; [done|]. by apply Hki. }
  destruct (readable (envs m (clock m))); [|by apply Herr].
  destruct (calculate_score _) as [sr|x] eqn:Hc.
  - pose proof (handle_transitions_keeps_env (envs m) (clock m) (fst sr) (snd sr) m
                  (conj eq_refl eq_refl)) as Henv.
    destruct (handle_transitions (fst sr) (snd sr) m) as [m1 [t|x]] eqn:Hh;
      cbn [fst] in Henv; destruct Henv as [Hw Hn].
    + destruct (report _ (fst sr) t m1) as [m2 [[]|x]] eqn:Hrep; [by left|].
      apply report_raised in Hrep as (Hw2 & Hn2 & Hki).
      rewrite Hw, Hn in Hki. rewrite Hw in Hw2. rewrite Hn in Hn2. by apply Herr.
    + apply Herr; [done|done|]. intros ->.
      apply handle_transitions_raised in Hh as (_ & _ & _ & _ & [(_ & _ & Hd)|(_ & _ & _ & _ & Hf)]).
      * by apply detect_huddle_change_exn in Hd.
      * by apply format_f_raises in Hf.
  - destruct (snapshot_score (envs m (clock m))) as (s & rs & Hc' & _). congruence.
Qed.

(** A pass that asks to go on has slept: the sleep was not interrupted
    and the next interval has begun, in the same world. *)
Lemma report_done state score trend m m2 :
  report state score trend m = (m2, Ok tt) ->
  envs m2 = envs m /\ clock m2 = S (clock m) /\
  sleep_interrupted (envs m (clock m)) = false.
Proof.
  unfold report, bind at 1.
  destruct (write_status_file_frame score state trend m) as [fs Hfr].
  destruct (write_status_file score state trend m) as [m1 [[]|x]];
    cbn [fst] in Hfr; subst m1; [|discriminate].
  unfold bind, gets, lift, getitem, print, sleep, modify, current_env, gets, ret, raise.
  cbn [in_huddle baseline_score huddle_peak_score set_files envs clock].
  destruct (in_huddle m); [|destruct (Py.format_f (baseline_score m)) as [[]|ef]];
    repeat match goal with
           | |- context [state !! ?k] => destruct (state !! k)
           end; cbn;
    try destruct (sleep_interrupted (envs m (clock m))); cbn;
    try discriminate; intros [= <-]; done.
Qed.

Lemma iteration_done m :
  snd (iteration m) = Ok true ->
  envs (fst (iteration m)) = envs m /\ clock (fst (iteration m)) = S (clock m) /\
  sleep_interrupted (envs m (clock m)) = false.
Proof.
  rewrite iteration_cases.
  assert (Herr : forall x m1,
    envs m1 = envs m -> clock m1 = clock m ->
    snd (handled (m1, Raise x)) = Ok true ->
    envs (fst (handled (m1, Raise x))) = envs m /\
    clock (fst (handled (m1, Raise x))) = S (clock m) /\
    sleep_interrupted (envs m (clock m)) = false).
  { intros x m1 Hw Hn. unfold handled.
    destruct x; cbn [fst snd]; try discriminate;
      rewrite error_branch_cases, Hw, Hn;
      (destruct (sleep_interrupted (envs m (clock m))); cbn;
       [discriminate|intros _; repeat split; congruence]). }
  destruct (readable (envs m (clock m))); [|by apply Herr].
  destruct (calculate_score _) as [sr|x]; [|by apply Herr].
  pose proof (handle_transitions_keeps_env (envs m) (clock m) (fst sr) (snd sr) m
                (conj eq_refl eq_refl)) as Henv.
  destruct (handle_transitions (fst sr) (snd sr) m) as [m1 [t|x]];
    cbn [fst] in Henv; destruct Henv as [Hw Hn]; [|by apply Herr].
  destruct (report _ (fst sr) t m1) as [m2 [[]|x]] eqn:Hrep.
  - intros _. apply report_done in Hrep as (Hw2 & Hn2 & Hs2). cbn.
    rewrite Hw, Hn in Hs2. repeat split; congruence.
  - apply report_raised in Hrep as (Hw2 & Hn2 & _). apply Herr; congruence.
Qed.

(** In an interval in which no interrupt arrives the pass asks to go
    on. *)
Lemma iteration_goes_on m :
  uninterrupted (envs m) (clock m) 1 -> snd (iteration m) = Ok true.
Proof.
  intros Hu. destruct (Hu (clock m) ltac:(lia)) as (Ho & Hw & Hc & Hs).
  destruct (iteration_result m) as [H|[[_ Hi]|[_ Hi]]]; [done| |congruence].
  destruct Hi as [?|[?|[?|?]]]; congruence.
Qed.
















(** Each way out is taken: Ctrl-C during the sleep of a pass breaks the
    loop, during calibration it escapes [run], and so does the
    [ValueError] of a probe that [int] cannot read; after an
    [Error: ...] line, Ctrl-C escapes the pass. *)
Example ways_out_of_the_loop :
  snd (iteration (new_detector "user" (fun _ => with_interrupt quiet_env))) = Ok false /\
  snd (run 1 (new_detector "user" (fun _ => with_interrupt quiet_env)))
  = Raise KeyboardInterrupt /\
  snd (run 1 (new_detector "user" (fun _ => superscript_env))) = Raise ValueError /\
  snd (iteration (new_detector "user" (fun _ => with_interrupt superscript_env)))
  = Raise KeyboardInterrupt.
Proof. vm_compute. repeat split. Qed.

(** ** The loop from a new detector *)

Section Printed.
(** A property [P] of the printed lines that every line but an
    [Error: ...] has; the error line of an unreadable probe has it if
    the world [world] has an interval with such a probe. *)
Variable P : output -> Prop.
Variable world : nat -> env.
Hypothesis P_plain : forall o, is_error o = false -> P o.
Hypothesis P_unreadable :
  forall k, readable (world k) = false -> P (PrintError ValueError).







End Printed.



(** A probe that prints a superscript two during the loop costs an error
    line in every pass. *)
Example unreadable_probe_is_reported :
  let world := fun k : nat => if (k <? 3)%nat then quiet_env else superscript_env in
  filter (fun o => is_error o = true)
    (stdout (fst (run 2 (new_detector "user" world))))
  = [PrintError ValueError; PrintError ValueError].
Proof. vm_compute. reflexivity. Qed.

(** ** The status file *)

(** When the file can be opened and the disk takes the dump, the status
    object of the moment is at the status path afterwards, whatever
    [chmod] does. *)
Lemma write_status_file_written score state trend m :
  has_indicators state ->
  file_open (envs m (clock m)) = Ok tt ->
  file_write (envs m (clock m)) = Ok tt ->
  fst (write_status_file score state trend m)
  = set_files (<[status_file_path m := Dumped (status_of m score state trend)]> (files m)) m.
Proof.
  intros Hs Ho Hw. unfold has_indicators, indicator_keys in Hs.
  repeat (apply Forall_cons in Hs; destruct Hs as [[? ?] Hs]).
  unfold write_status_file, status_of, try_except, bind, current_env, gets, lift,
    ret, modify, getitem.
  repeat match goal with H : _ !! _ = Some _ |- _ => rewrite H; clear H end.
  rewrite Ho. cbn. rewrite Hw. cbn. rewrite insert_insert_eq.
  destruct (file_chmod (envs m (clock m))) as [[]|[]]; reflexivity.
Qed.

(** After the write, the rest of the loop body touches neither the files
    nor the detector. *)
Lemma report_after_write state score trend m :
  let m2 := fst (write_status_file score state trend m) in
  let m3 := fst (report state score trend m) in
  files m3 = files m2 /\ status_file_path m3 = status_file_path m /\ agree m3 m.
Proof.
  cbv zeta. split; [|split].
  - unfold report, bind at 1.
    destruct (write_status_file score state trend m) as [m2 [[]|e]]; cbn [fst];
      [|reflexivity].
    refine ((_ : preserves (fun x => files x = files m2) _) m2 eq_refl).
    preserves_with fail.
  - refine ((_ : preserves (fun x => status_file_path x = status_file_path m) _) m eq_refl).
    preserves_with fail.
  - apply (keeps_agree (report state score trend)). intros k b. apply report_keeps_core.
Qed.

Lemma handle_transitions_keeps_files fs p score reasons :
  preserves (fun x => files x = fs /\ status_file_path x = p)
    (handle_transitions score reasons).
Proof. preserves_with fail. Qed.

(** X14. Take a pass of the loop in a state whose numbers fit a double
    and whose baseline can be formatted, in an interval whose probes can
    be read, whose status file can be opened and whose disk takes the
    dump.  It leaves at the status path the picture of the detector after
    that tick's transitions: the phase, baseline and peak (0 while IDLE)
    are those the pass ends with, the score is that of the snapshot just
    taken and never exceeds the published peak during a huddle, and the
    metrics are the snapshot's counts.  The file is replaced as a whole
    and no other path is touched. *)
Theorem status_file_shows_tick (m : machine) :
  fits m ->
  fits_double (baseline_score m) ->
  readable (envs m (clock m)) = true ->
  file_open (envs m (clock m)) = Ok tt ->
  file_write (envs m (clock m)) = Ok tt ->
  let m' := fst (iteration m) in
  let state := snapshot (envs m (clock m)) in
  exists s rs t m1,
    calculate_score state = Ok (s, rs) /\
    handle_transitions s rs m = (m1, Ok t) /\
    status_file_path m' = status_file_path m /\
    files m'
    = <[status_file_path m :=
          Dumped
            {| inHuddle := in_huddle m'; score := s; baseline := baseline_score m';
               peakScore := if in_huddle m' then huddle_peak_score m' else 0;
               trend := arrow_of t; timestamp := now (envs m (clock m));
               slackAssertions := default 0 (state !! "slack_assertions"%string);
               audioUnits := default 0 (state !! "audio_units"%string);
               audioFds := default 0 (state !! "audio_fds"%string);
               powerAssertions := default 0 (state !! "power_assertions"%string) |}]>
        (files m) /\
    (in_huddle m' = true -> s <= huddle_peak_score m').
Proof.
  intros Hm Hb Hr Ho Hw m' state. subst state.
  set (state := snapshot (envs m (clock m))).
  destruct (snapshot_score (envs m (clock m))) as (s & rs & Hc & Hrange).
  fold state in Hc.
  destruct (handle_transitions_completes s rs m Hm Hb (scorer_small s Hrange))
    as (t & m1 & Hh & _ & Hb1).
  exists s, rs, t, m1. split; [done|]. split; [done|].
  pose proof (handle_transitions_keeps_env (envs m) (clock m) s rs m (conj eq_refl eq_refl))
    as Henv.
  pose proof (handle_transitions_keeps_files (files m) (status_file_path m) s rs m
                (conj eq_refl eq_refl)) as Hfs.
  rewrite Hh in Henv, Hfs. cbn [fst] in Henv, Hfs.
  destruct Henv as [Hw1 Hn1], Hfs as [Hf1 Hp1].
  assert (Hm' : m' = fst (report state s t m1)).
  { subst m'. rewrite iteration_cases, Hr. fold state. rewrite Hc. cbn [fst snd].
    rewrite Hh. destruct (report state s t m1) as [m2 [[]|x]] eqn:Hrep; [done|].
    apply report_result in Hrep as ->;
      [done|apply snapshot_has_indicators|by right]. }
  pose proof (write_status_file_written s state t m1 (snapshot_has_indicators _)) as Hwr.
  rewrite Hw1, Hn1 in Hwr. specialize (Hwr Ho Hw).
  pose proof (peak_covers_score s rs m m1 t Hh) as Hpk.
  destruct (report_after_write state s t m1) as (Hfiles & Hpath & Hcore & Hbase).
  rewrite <- Hm' in Hfiles, Hpath, Hcore, Hbase.
  unfold core in Hcore. injection Hcore as Hi Hp _ _ _.
  rewrite Hfiles, Hwr, Hpath, Hi, Hp, Hbase.
  unfold status_of. cbn [files set_files]. rewrite Hw1, Hn1, Hf1, Hp1.
  done.
Qed.

Lemma status_file_shows_tick_witness :
  let m' := fst (iteration fresh) in
  let state := snapshot (envs fresh (clock fresh)) in
  exists s rs t m1,
    calculate_score state = Ok (s, rs) /\
    handle_transitions s rs fresh = (m1, Ok t) /\
    status_file_path m' = status_file_path fresh /\
    files m'
    = <[status_file_path fresh :=
          Dumped
            {| inHuddle := in_huddle m'; score := s; baseline := baseline_score m';
               peakScore := if in_huddle m' then huddle_peak_score m' else 0;
               trend := arrow_of t; timestamp := now (envs fresh (clock fresh));
               slackAssertions := default 0 (state !! "slack_assertions"%string);
               audioUnits := default 0 (state !! "audio_units"%string);
               audioFds := default 0 (state !! "audio_fds"%string);
               powerAssertions := default 0 (state !! "power_assertions"%string) |}]>
        (files fresh) /\
    (in_huddle m' = true -> s <= huddle_peak_score m').
Proof.
  apply (status_file_shows_tick fresh).
  - split; [constructor|by apply small_const].
  - by apply small_const.
  - reflexivity.
  - reflexivity.
  - reflexivity.
Defined.

(** The detector writes to its status path and nowhere else. *)
Lemma run_only_status path fuel : preserves (only_status_file path) (run fuel).
Proof.
  preserves_with ltac:(
    apply preserves_modify; intros ? [Hp Hf]; split; [exact Hp|];
    intros q Hq; cbn; rewrite Hp, lookup_insert_ne by done; by apply Hf).
Qed.

(** X15. The detector writes to its own status file and to no other: the
    status path is fixed when the detector is made, and after any number
    of passes every other path is as absent as at the start. *)
Theorem run_writes_only_status_file (fuel : nat) (username : string)
    (world : nat -> env) (p : string) :
  p <> ("/tmp/huddle-status-" +:+ username +:+ ".json")%string ->
  let m := fst (run fuel (new_detector username world)) in
  status_file_path m = ("/tmp/huddle-status-" +:+ username +:+ ".json")%string /\
  files m !! p = None.
Proof.
  intros Hp m.
  destruct (run_only_status ("/tmp/huddle-status-" +:+ username +:+ ".json")%string fuel
              (new_detector username world)) as [H1 H2].
  - split; [reflexivity|]. intros q _. apply lookup_empty.
  - split; [exact H1|by apply H2].
Qed.

Lemma run_writes_only_status_file_witness :
  let m := fst (run 2 (new_detector "user" (fun _ => quiet_env))) in
  status_file_path m = ("/tmp/huddle-status-" +:+ "user" +:+ ".json")%string /\
  files m !! "/etc/passwd"%string = None.
Proof.
  apply (run_writes_only_status_file 2 "user" (fun _ => quiet_env) "/etc/passwd").
  vm_compute. discriminate.
Defined.

(** ** The trend and the thresholds in exact terms *)

Lemma trend_checks_range :
  forallb (fun recent => forallb (trend_checks recent) scorer_means) scorer_means = true.
Proof. vm_compute. reflexivity. Qed.

Lemma scorer_means_elem s mean :
  0 <= s <= 450 -> Py.int_truediv s 3 = Ok mean -> In (s, mean) scorer_means.
Proof.
  intros Hs Hm. unfold scorer_means. apply in_map_iff. exists s. split.
  - unfold avg3. by rewrite Hm.
  - apply list_elem_of_In, elem_of_seqZ. lia.
Qed.

(** X16. The trend of a history with six or more scores of the scorer
    follows the sums of its last three and of the three before them:
    [trend >= 0] exactly when the recent sum is not below the older one;
    [trend < -10] when it is more than 30 below and not when it is less
    than 30 below; the arrow is up when it is more than 15 above, down
    when more than 15 below, flat strictly in between.  (Where the sums
    differ by exactly -30, 15 or -15 rounding decides.) *)
Theorem trend_follows_sums (pre : list Z) (a b c d e f : Z) :
  Forall small pre ->
  Forall (fun s => 0 <= s <= 150) [a; b; c; d; e; f] ->
  let delta := (d + e + f) - (a + b + c) in
  exists trend,
    compute_trend (pre ++ [a; b; c; d; e; f]) = Ok trend /\
    Py.ge trend (Py.Int 0) = (0 <=? delta) /\
    (delta < -30 -> Py.lt trend (Py.Int (-10)) = true) /\
    (-30 < delta -> Py.lt trend (Py.Int (-10)) = false) /\
    (15 < delta -> arrow_of trend = ArrowUp) /\
    (delta < -15 -> arrow_of trend = ArrowDown) /\
    (-15 < delta < 15 -> arrow_of trend = ArrowFlat).
Proof.
  intros Hpre Hs delta.
  assert (Hall : Forall small (pre ++ [a; b; c; d; e; f])).
  { apply Forall_app. split; [done|].
    eapply Forall_impl; [exact Hs|]. intros x Hx. by apply scorer_small. }
  destruct (compute_trend_six pre a b c d e f Hall) as (recent & older & Hr & Ho & ->).
  repeat (apply Forall_cons in Hs; destruct Hs as [? Hs]).
  pose proof trend_checks_range as Hchk. rewrite forallb_forall in Hchk.
  specialize (Hchk (d + e + f, recent) ltac:(apply scorer_means_elem; [lia|done])).
  rewrite forallb_forall in Hchk.
  specialize (Hchk (a + b + c, older) ltac:(apply scorer_means_elem; [lia|done])).
  unfold trend_checks in Hchk. cbn [fst snd] in Hchk. fold delta in Hchk.
  set (trend := Py.Float (SFsub Py.prec Py.emax recent older)) in *.
  exists trend. split; [done|].
  repeat (apply andb_prop in Hchk; destruct Hchk as [Hchk ?]).
  repeat match goal with
         | H : implb (?x <? ?y) _ = true |- _ =>
             destruct (Z.ltb_spec x y); cbn [implb] in H
         | H : negb _ = true |- _ => apply negb_true_iff in H
         end;
    apply eqb_prop in Hchk; unfold arrow_of;
    repeat split; intros; try lia;
    repeat match goal with H : _ = _ |- _ => rewrite H end; try done.
Qed.

Lemma trend_follows_sums_witness :
  let delta := (10 + 5 + 5) - (50 + 60 + 60) in
  exists trend,
    compute_trend ([0; 0] ++ [50; 60; 60; 10; 5; 5]) = Ok trend /\
    Py.ge trend (Py.Int 0) = (0 <=? delta) /\
    (delta < -30 -> Py.lt trend (Py.Int (-10)) = true) /\
    (-30 < delta -> Py.lt trend (Py.Int (-10)) = false) /\
    (15 < delta -> arrow_of trend = ArrowUp) /\
    (delta < -15 -> arrow_of trend = ArrowDown) /\
    (-15 < delta < 15 -> arrow_of trend = ArrowFlat).
Proof.
  apply (trend_follows_sums [0; 0] 50 60 60 10 5 5).
  - repeat constructor; by apply small_const.
  - repeat constructor; lia.
Defined.

Lemma thresholds_in_cell_range : forallb thresholds_in_cell (seqZ 0 451) = true.
Proof. vm_compute. reflexivity. Qed.

Lemma thresholds_compare (s : Z) (mean : spec_float) :
  0 <= s <= 450 ->
  Py.int_truediv s 3 = Ok mean ->
  exists raised near,
    Py.add (Py.Float mean) (Py.Int 25) = Ok (Py.Float raised) /\
    Py.add (Py.Float mean) (Py.Int 10) = Ok (Py.Float near) /\
    (forall k, Py.compare (Py.Int k) (Py.Float raised) = Some (3 * k ?= s + 75)) /\
    (forall k, Py.compare (Py.Int k) (Py.Float near) = Some (3 * k ?= s + 30)).
Proof.
  intros Hs Hm.
  pose proof thresholds_in_cell_range as Hall. rewrite forallb_forall in Hall.
  specialize (Hall s ltac:(apply list_elem_of_In, elem_of_seqZ; lia)).
  unfold thresholds_in_cell, avg3 in Hall. rewrite Hm in Hall.
  destruct (Py.add (Py.Float mean) (Py.Int 25)) as [[?|raised]|?]; try discriminate.
  destruct (Py.add (Py.Float mean) (Py.Int 10)) as [[?|near]|?]; try discriminate.
  apply andb_prop in Hall as [H25 H10].
  exists raised, near. do 2 (split; [reflexivity|]).
  split; intros k; apply in_cell_compare; (lia || done).
Qed.

Lemma lt_int_int a b : Py.lt (Py.Int a) (Py.Int b) = (a <? b).
Proof.
  unfold Py.lt. cbn [Py.compare].
  destruct (Z.compare_spec a b), (Z.ltb_spec a b); (reflexivity || lia).
Qed.

(** X17. With the baseline that calibration sets (where the probes of
    its three intervals can be read and no sleep is interrupted), the
    float thresholds decide exactly as the mean of the three sampled scores [a], [b], [c]
    would in exact arithmetic: a score meets the start threshold
    [max(50, baseline + 25)] exactly when it is at least 50 and at least
    [(a + b + c) / 3 + 25], and it is within 10 points of the baseline
    exactly when it is at most [(a + b + c) / 3 + 10]; for a peak the
    scorer can produce, a score is below [peak * 0.7] exactly when it is
    below seven tenths of the peak. *)
Theorem calibrated_conditions_exact (m : machine) (score peak : Z) (trend : Py.num) :
  samplable (envs m) (clock m) 3 ->
  0 <= peak <= 150 ->
  exists a b c ra rb rc m',
    calculate_score (snapshot (envs m (clock m))) = Ok (a, ra) /\
    calculate_score (snapshot (envs m (S (clock m)))) = Ok (b, rb) /\
    calculate_score (snapshot (envs m (S (S (clock m))))) = Ok (c, rc) /\
    calibrate m = (m', Ok tt) /\
    start_condition (baseline_score m') score trend
    = (50 <=? score) && (a + b + c + 75 <=? 3 * score) && Py.ge trend (Py.Int 0) /\
    end_condition (baseline_score m') peak score trend
    = (10 * score <? 7 * peak) || (3 * score <=? a + b + c + 30)
      || (Py.lt trend (Py.Int (-10)) && (score <? 50)).
Proof.
  intros Hw Hpeak.
  destruct (calibrate_outcome m Hw)
    as (a & b & c & mean & m' & Ha & Hb & Hc & [ra Hsa] & [rb Hsb] & [rc Hsc]
        & Hmean & Hcal & Hbase & _).
  exists a, b, c, ra, rb, rc, m'. do 4 (split; [done|]).
  destruct (thresholds_compare (a + b + c) mean ltac:(lia) Hmean)
    as (raised & near & H25 & H10 & Hraised & Hnear).
  destruct (mul_ratio_ok peak ltac:(apply scorer_small; lia)) as [ratio Hratio].
  rewrite Hbase. split.
  - rewrite (start_condition_eq _ _ _ _ H25). f_equal.
    assert (Hgt : Py.compare (Py.Float raised) (Py.Int 50)
                  = Some (CompOpp (3 * 50 ?= a + b + c + 75))).
    { pose proof (Hraised 50) as H50. cbn [Py.compare] in H50 |- *.
      by rewrite H50. }
    unfold Py.max, Py.gt, Py.ge. rewrite Hgt.
    destruct (Z.compare_spec (3 * 50) (a + b + c + 75)); cbn [CompOpp];
      [cbn [Py.compare]|rewrite Hraised|cbn [Py.compare]];
      destruct (Z.compare_spec score 50),
        (Z.compare_spec (3 * score) (a + b + c + 75)),
        (Z.leb_spec 50 score), (Z.leb_spec (a + b + c + 75) (3 * score));
      (reflexivity || lia).
  - rewrite (end_condition_eq _ _ _ _ _ _ Hratio H10).
    rewrite (ratio_compare peak score ratio Hpeak Hratio), lt_int_int.
    f_equal. f_equal. unfold Py.le. rewrite Hnear.
    destruct (Z.compare_spec (3 * score) (a + b + c + 30)),
      (Z.leb_spec (3 * score) (a + b + c + 30)); (reflexivity || lia).
Qed.

Lemma calibrated_conditions_exact_witness :
  exists a b c ra rb rc m',
    calculate_score (snapshot (envs fresh (clock fresh))) = Ok (a, ra) /\
    calculate_score (snapshot (envs fresh (S (clock fresh)))) = Ok (b, rb) /\
    calculate_score (snapshot (envs fresh (S (S (clock fresh))))) = Ok (c, rc) /\
    calibrate fresh = (m', Ok tt) /\
    start_condition (baseline_score m') 60 (Py.Int 0)
    = (50 <=? 60) && (a + b + c + 75 <=? 3 * 60) && Py.ge (Py.Int 0) (Py.Int 0) /\
    end_condition (baseline_score m') 100 60 (Py.Int 0)
    = (10 * 60 <? 7 * 100) || (3 * 60 <=? a + b + c + 30)
      || (Py.lt (Py.Int 0) (Py.Int (-10)) && (60 <? 50)).
Proof.
  apply (calibrated_conditions_exact fresh 60 100 (Py.Int 0)).
  - intros k _. split; reflexivity.
  - lia.
Defined.

(** ** Reading a count *)

Lemma lstrip_blank sp lead s :
  forallb sp lead = true -> PyStr.lstrip_with sp (lead ++ s) = PyStr.lstrip_with sp s.
Proof.
  induction lead as [|c lead IH]; [done|].
  cbn [forallb]. intros [Hc Hl]%andb_prop.
  cbn [app PyStr.lstrip_with]. rewrite Hc. by apply IH.
Qed.

Lemma rstrip_blank sp trail :
  forallb sp trail = true -> PyStr.rstrip_with sp trail = [].
Proof.
  induction trail as [|c trail IH]; cbn [forallb PyStr.rstrip_with]; [done|].
  intros [Hc Hl]%andb_prop. by rewrite IH, Hc.
Qed.

Lemma rstrip_digits sp s trail :
  forallb (fun c => negb (sp c)) s = true -> forallb sp trail = true ->
  PyStr.rstrip_with sp (s ++ trail) = s.
Proof.
  intros Hs Ht. induction s as [|c s IH].
  - by apply rstrip_blank.
  - cbn [forallb] in Hs. apply andb_prop in Hs as [Hc Hs].
    cbn [app PyStr.rstrip_with]. rewrite (IH Hs).
    destruct s; [|done]. apply negb_true_iff in Hc. by rewrite Hc.
Qed.

(** White space around a digit string is stripped, and nothing else. *)
Lemma strip_digits lead s trail :
  PyStr.isdigit s = true -> blank lead = true -> blank trail = true ->
  PyStr.strip (lead ++ s ++ trail) = s.
Proof.
  intros Hs Hl Ht. unfold PyStr.strip. rewrite (lstrip_blank _ _ _ Hl).
  destruct s as [|c s]; [discriminate|].
  cbn [PyStr.isdigit] in Hs. pose proof Hs as Hall.
  cbn [forallb] in Hs. apply andb_prop in Hs as [Hc _].
  change ((c :: s) ++ trail) with (c :: (s ++ trail)).
  rewrite (lstrip_with_head _ _ _ (digit_not_space c Hc)).
  change (c :: (s ++ trail)) with ((c :: s) ++ trail).
  apply rstrip_digits; [|done].
  apply digits_no_space; [apply digit_not_space|done].
Qed.

(** The ten ASCII digits. *)
Lemma ascii_digit d :
  (d < 10)%N ->
  N_of_ascii (pretty_N_char d) = (48 + d)%N /\
  PyStr.is_digit_char (48 + d) = true /\
  PyStr.decimal_value (48 + d) = Some (Z.of_N d).
Proof.
  intros Hd.
  assert (d = 0 \/ d = 1 \/ d = 2 \/ d = 3 \/ d = 4 \/ d = 5 \/ d = 6 \/ d = 7
          \/ d = 8 \/ d = 9)%N as H by lia.
  repeat (destruct H as [->|H]; [by vm_compute|]). subst d. by vm_compute.
Qed.

Lemma int_digits_ascii ds : forall acc n b,
  Forall (fun d => (d < 10)%N) ds ->
  ds <> [] \/ b = true ->
  PyStr.int_digits acc n b (map (N.add 48) ds)
  = Some (digits_value acc ds, (n + length ds)%nat).
Proof.
  induction ds as [|d ds IH]; intros acc n b Hds Hne.
  - destruct Hne as [? | ->]; [done|]. cbn. by rewrite Nat.add_0_r.
  - apply Forall_cons in Hds as [Hd Hds].
    cbn [map PyStr.int_digits digits_value length].
    destruct (ascii_digit d Hd) as (_ & _ & ->).
    rewrite IH by (done || by right). f_equal. f_equal. lia.
Qed.

Lemma isdigit_ascii ds :
  Forall (fun d => (d < 10)%N) ds -> ds <> [] ->
  PyStr.isdigit (map (N.add 48) ds) = true.
Proof.
  intros Hds Hne. destruct ds as [|d ds]; [done|].
  change (forallb PyStr.is_digit_char (map (N.add 48) (d :: ds)) = true).
  apply forallb_forall. intros c [x [<- Hx]]%in_map_iff.
  rewrite Forall_forall in Hds.
  destruct (ascii_digit x) as (_ & H & _); [|done].
  by apply Hds, list_elem_of_In.
Qed.

Lemma digits_value_shift ds : forall acc,
  digits_value acc ds = acc * 10 ^ Z.of_nat (length ds) + digits_value 0 ds.
Proof.
  induction ds as [|d ds IH]; intros acc.
  - cbn. lia.
  - cbn [digits_value length]. rewrite IH, (IH (10 * 0 + _)).
    rewrite Nat2Z.inj_succ, Z.pow_succ_r by lia. lia.
Qed.

(** The decimal text of a number, as digit values. *)
Lemma pretty_N_go_digits x : forall s ds,
  PyStr.of_string s = map (N.add 48) ds ->
  Forall (fun d => (d < 10)%N) ds ->
  exists ds',
    PyStr.of_string (pretty_N_go x s) = map (N.add 48) ds' /\
    Forall (fun d => (d < 10)%N) ds' /\
    digits_value 0 ds' = Z.of_N x * 10 ^ Z.of_nat (length ds) + digits_value 0 ds /\
    (x = 0%N -> ds' = ds) /\
    ((0 < x)%N -> 10 ^ Z.of_nat (length ds' - length ds - 1) <= Z.of_N x /\
                  (length ds < length ds')%nat).
Proof.
  induction (N.lt_wf_0 x) as [x _ IH]. intros s ds Hs Hds.
  assert (x = 0 \/ 0 < x)%N as [->|Hx] by lia.
  { rewrite pretty_N_go_0. exists ds. repeat split; try done; lia. }
  rewrite pretty_N_go_step by done.
  assert (Hd : (x `mod` 10 < 10)%N) by (by apply N.mod_lt).
  destruct (ascii_digit _ Hd) as (Hc & _ & _).
  destruct (IH (x `div` 10)%N ltac:(by apply N.div_lt)
              (String (pretty_N_char (x `mod` 10)) s) (x `mod` 10 :: ds)%N)
    as (ds' & Ht & Hds' & Hv & Hzero & Hpos).
  { cbn [PyStr.of_string map]. by rewrite Hc, Hs. }
  { by apply Forall_cons. }
  exists ds'. split; [done|]. split; [done|].
  cbn [length] in Hv, Hpos.
  pose proof (N.div_mod x 10 ltac:(done)) as Hdm.
  split; [|split; [lia|intros _]].
  - rewrite Hv. cbn [digits_value].
    rewrite (digits_value_shift ds (10 * 0 + _)).
    rewrite Nat2Z.inj_succ, Z.pow_succ_r by lia. lia.
  - assert (x `div` 10 = 0 \/ 0 < x `div` 10)%N as [H0|H0] by lia.
    + rewrite (Hzero H0). cbn [length].
      replace (S (length ds) - length ds - 1)%nat with 0%nat by lia.
      split; [cbn; lia|lia].
    + destruct (Hpos H0) as [Hp Hlt]. split; [|lia].
      replace (length ds' - length ds - 1)%nat
        with (S (length ds' - S (length ds) - 1)) by lia.
      rewrite Nat2Z.inj_succ, Z.pow_succ_r by lia.
      pose proof (N.Div0.mul_div_le x 10) as Hle.
      set (p := 10 ^ _) in *. lia.
Qed.

(** The decimal text of a count below [10 ^ 4300] is a digit string that
    [int] reads back as the count. *)
Lemma pretty_count n :
  0 <= n < 10 ^ 4300 ->
  PyStr.isdigit (PyStr.of_string (pretty n)) = true /\
  PyStr.int (PyStr.of_string (pretty n)) = Ok n.
Proof.
  intros Hn. destruct n as [|p|p]; [by vm_compute| |lia].
  change (pretty (Z.pos p)) with (pretty (N.pos p)).
  unfold pretty, pretty_N. rewrite decide_False by done.
  destruct (pretty_N_go_digits (N.pos p) EmptyString [] eq_refl (List.Forall_nil _))
    as (ds & -> & Hds & Hv & _ & Hpos).
  destruct (Hpos ltac:(done)) as [Hlow Hlen]. cbn [length] in Hv, Hlow, Hlen.
  assert (Hne : ds <> []) by (destruct ds; [cbn in Hlen; lia|done]).
  pose proof (isdigit_ascii ds Hds Hne) as Hd. split; [done|].
  rewrite (int_of_digits _ Hd), (int_digits_ascii ds 0 0 false Hds (or_introl Hne)).
  cbn [Nat.add].
  assert (Hk : (length ds <= 4300)%nat).
  { destruct (Nat.le_gt_cases (length ds) 4300) as [?|Hgt]; [done|exfalso].
    assert (10 ^ 4300 <= 10 ^ Z.of_nat (length ds - 0 - 1))
      by (apply Z.pow_le_mono_r; lia).
    change (Z.of_N (N.pos p)) with (Z.pos p) in Hlow. lia. }
  unfold PyStr.int_max_str_digits.
  destruct (Nat.ltb_spec 4300 (length ds)); [lia|].
  f_equal. rewrite Hv. cbn. lia.
Qed.

(** X18. A probe whose command prints a count below [10 ^ 4300] in
    decimal, with white space (such as the final newline of [grep -c])
    before or after it, is read as exactly that count; where the other
    probes can be read too, that count is in the snapshot. *)
Theorem probe_reads_decimal (m : machine) (key cmd : string) (timeout n : Z)
    (lead trail : PyStr.text) :
  (key, cmd, timeout) ∈ probes ->
  0 <= n < 10 ^ 4300 -> blank lead = true -> blank trail = true ->
  shell (envs m (clock m)) cmd timeout
  = Completed (lead ++ PyStr.of_string (pretty n) ++ trail) ->
  count_of (probe_output (envs m (clock m)) cmd timeout) = Ok n /\
  (readable (envs m (clock m)) = true ->
   exists state,
     get_audio_state m = (m, Ok state) /\ state !! key = Some n).
Proof.
  intros Hk Hn Hl Ht Hout.
  destruct (pretty_count n Hn) as (Hd & Hv).
  assert (Hc : count_of (probe_output (envs m (clock m)) cmd timeout) = Ok n).
  { unfold probe_output. rewrite Hout, (strip_digits _ _ _ Hd Hl Ht).
    unfold count_of. by rewrite Hd. }
  split; [done|]. intros Hr.
  exists (snapshot (envs m (clock m))). split; [by apply get_audio_state_spec|].
  rewrite (snapshot_lookup _ _ _ _ Hk). f_equal.
  unfold count_or_zero. by rewrite Hc.
Qed.

Lemma probe_reads_decimal_witness :
  let m := new_detector "user" (fun _ => counting_env 12) in
  count_of (probe_output (envs m (clock m))
              "pmset -g assertions 2>/dev/null | grep -c Slack" 1) = Ok 12 /\
  (readable (envs m (clock m)) = true ->
   exists state,
     get_audio_state m = (m, Ok state) /\ state !! "slack_assertions"%string = Some 12).
Proof.
  intros m.
  apply (probe_reads_decimal m "slack_assertions"
           "pmset -g assertions 2>/dev/null | grep -c Slack" 1 12 [] [0xa%N]).
  - unfold probes. repeat first [apply list_elem_of_here | apply list_elem_of_further].
  - split; [lia|]. apply Z.ltb_lt. vm_compute. reflexivity.
  - reflexivity.
  - reflexivity.
  - reflexivity.
Defined.

(** A count of 4301 digits is more than [int] takes. *)
Example count_too_long :
  PyStr.isdigit (repeat 0x31%N 4301) = true /\
  count_of (repeat 0x31%N 4300) = Ok ((10 ^ 4300 - 1) / 9) /\
  count_of (repeat 0x31%N 4301) = Raise ValueError.
Proof. vm_compute. repeat split. Qed.

(** ** What the terminal shows *)

Lemma handle_transitions_announced score reasons :
  preserves (fun x => announced (stdout x) (in_huddle x))
    (handle_transitions score reasons).
Proof.
  intros m HJ.
  pose proof (detect_huddle_change_frame score m) as Hf.
  destruct (detect_huddle_change score m) as [m1 [[[st en] tr]|e]] eqn:Hd.
  - destruct (detect_huddle_change_phase _ _ _ _ _ _ Hd) as [Hst Hen].
    assert (Hfloor : st = true -> 50 <= score).
    { intros ->. by eapply detect_huddle_change_start_floor. }
    cbn [fst] in Hf. subst m1.
    unfold handle_transitions, bind. rewrite Hd. clear Hd.
    unfold modify, gets, ret, print, current_env, lift.
    destruct st; [|destruct en].
    + assert (Hidle : in_huddle m = false).
      { destruct (in_huddle m); [by specialize (Hst eq_refl)|done]. }
      rewrite Hidle in HJ.
      cbn [consecutive_starts set_consecutive_starts set_consecutive_ends set_score_history].
      destruct (2 <=? consecutive_starts m + 1).
      * cbn. destruct (Py.format_f (baseline_score m)) as [[]|]; cbn.
        -- rewrite Z.ltb_irrefl. cbn. split; [done|]. split; [by apply Hfloor|done].
        -- by rewrite Hidle.
      * cbn. rewrite Hidle. cbn. by rewrite Hidle.
    + assert (Hact : in_huddle m = true).
      { destruct (in_huddle m); [done|by specialize (Hen eq_refl)]. }
      rewrite Hact in HJ.
      cbn [consecutive_ends set_consecutive_starts set_consecutive_ends set_score_history].
      destruct (2 <=? consecutive_ends m + 1).
      * cbn. done.
      * cbn. rewrite Hact. cbn.
        destruct (huddle_peak_score m <? score); cbn; by rewrite Hact.
    + cbn. destruct (in_huddle m && (huddle_peak_score m <? score)); cbn; done.
  - rewrite (handle_transitions_raise _ _ _ _ _ Hd). cbn [fst] in Hf |- *.
    subst m1. exact HJ.
Qed.

Lemma run_announced fuel :
  preserves (fun x => announced (stdout x) (in_huddle x)) (run fuel).
Proof. preserves_with ltac:(apply handle_transitions_announced). Qed.

(** X19. The announcements on the terminal tell the truth about the
    phase: at every point the loop can reach, [HUDDLE STARTED] and
    [HUDDLE ENDED] lines alternate beginning with a start, the newest of
    them is a start exactly when the detector is ACTIVE, and every start
    was announced on a score of at least 50. *)
Theorem announcements_follow_phase (fuel : nat) (username : string)
    (world : nat -> env) :
  let m := fst (run fuel (new_detector username world)) in
  announced (stdout m) (in_huddle m).
Proof. apply run_announced. reflexivity. Qed.

(** ** The peak of a session *)

(** In ACTIVE no start is announced, so a tick on numbers that fit
    completes whatever the baseline. *)
Lemma handle_transitions_active score reasons m :
  in_huddle m = true -> fits m -> small score ->
  exists trend m', handle_transitions score reasons m = (m', Ok trend) /\ fits m'.
Proof.
  intros Hact Hf Hs.
  destruct (detect_huddle_change_fits score m Hf Hs) as (st & en & trend & Hd).
  destruct (detect_huddle_change_phase _ _ _ _ _ _ Hd) as [Hst _].
  rewrite (Hst Hact) in Hd.
  destruct (handle_transitions_ok score reasons m _ _ _ _ Hd eq_refl) as (m' & Hh & _).
  exists trend, m'. split; [done|].
  by apply (handle_transitions_done_fits _ _ _ _ _ Hh).
Qed.

Lemma tick_peak_active score reasons m m' trend :
  handle_transitions score reasons m = (m', Ok trend) ->
  in_huddle m = true -> in_huddle m' = true ->
  huddle_peak_score m' = Z.max (huddle_peak_score m) score.
Proof.
  intros Hh Hact Hact'.
  assert (Hup : updated_peak m score = Z.max (huddle_peak_score m) score).
  { unfold updated_peak. rewrite Hact. cbn [andb].
    destruct (Z.ltb_spec (huddle_peak_score m) score); lia. }
  destruct (handle_transitions_done _ _ _ _ _ Hh) as (st & en & Hd & _ & Hcase).
  destruct (detect_huddle_change_phase _ _ _ _ _ _ Hd) as [Hst _].
  rewrite (Hst Hact) in Hcase.
  cbv iota in Hcase. destruct en.
  - destruct Hcase as [_ Hcase]. destruct (2 <=? consecutive_ends m + 1).
    + destruct Hcase as (Hi & _). congruence.
    + destruct Hcase as (_ & -> & _). exact Hup.
  - destruct Hcase as (_ & _ & _ & -> & _). exact Hup.
Qed.

(** X20. During a session the peak is the greatest score seen: as long as
    the detector stays ACTIVE, the peak after any ticks is the maximum
    of the peak before them and their scores. *)
Theorem peak_is_session_maximum (m : machine) (scores : list Z) :
  fits m -> Forall small scores ->
  (forall k, (k <= length scores)%nat -> in_huddle (feed (take k scores) m) = true) ->
  huddle_peak_score (feed scores m) = fold_left Z.max scores (huddle_peak_score m).
Proof.
  revert m. induction scores as [|s rest IH]; intros m Hm Hs Hact; [reflexivity|].
  apply Forall_cons in Hs as [Hs Hrest].
  pose proof (Hact 0%nat ltac:(cbn; lia)) as H0. cbn in H0.
  destruct (handle_transitions_active s [] m H0 Hm Hs) as (t & m1 & Hh & Hm1).
  assert (Hstep : forall l, feed (s :: l) m = feed l m1).
  { intros l. unfold feed. cbn [fold_left]. by rewrite Hh. }
  rewrite Hstep. cbn [fold_left].
  pose proof (Hact 1%nat ltac:(cbn; lia)) as H1.
  cbn [take] in H1. rewrite Hstep in H1. cbn in H1.
  rewrite <- (tick_peak_active s [] m m1 t Hh H0 H1).
  apply IH; [done|done|].
  intros k Hk. specialize (Hact (S k) ltac:(cbn; lia)).
  cbn [take] in Hact. by rewrite Hstep in Hact.
Qed.

Lemma peak_is_session_maximum_witness :
  let scores : list Z := [120; 90; 130] in
  huddle_peak_score (feed scores in_session)
  = fold_left Z.max scores (huddle_peak_score in_session).
Proof.
  intros scores. apply (peak_is_session_maximum in_session scores).
  - split; [constructor|by apply small_const].
  - repeat constructor; by apply small_const.
  - intros [|[|[|[|k]]]] Hk; [vm_compute; reflexivity..|cbn in Hk; lia].
Defined.

(** ** The loop as a run of the state machine *)

(** The state machine reads phase, peak, counters, history and baseline,
    and nothing else. *)
Lemma detect_huddle_change_agree score a b :
  agree a b ->
  snd (detect_huddle_change score a) = snd (detect_huddle_change score b).
Proof.
  unfold agree, core. intros [[= Hi Hp Hs He Hh] Hb].
  unfold detect_huddle_change, bind, modify, gets, lift, ret.
  cbn [score_history set_score_history baseline_score in_huddle huddle_peak_score].
  rewrite Hh, Hb, Hi.
  destruct (compute_trend _); [|reflexivity].
  destruct (Py.add _ (Py.Int 25)); [|reflexivity].
  destruct (in_huddle b); [|reflexivity].
  cbn [huddle_peak_score set_score_history]. rewrite Hp.
  destruct (Py.mul _ _); [|reflexivity].
  destruct (Py.add _ (Py.Int 10)); reflexivity.
Qed.

Lemma handle_transitions_agree score ra rb a b :
  agree a b ->
  agree (fst (handle_transitions score ra a)) (fst (handle_transitions score rb b)).
Proof.
  intros Hab. pose proof (detect_huddle_change_agree score a b Hab) as Hd.
  pose proof (detect_huddle_change_frame score a) as Hfa.
  pose proof (detect_huddle_change_frame score b) as Hfb.
  destruct Hab as [Hcore Hbase]. unfold core in Hcore.
  injection Hcore as Hi Hp Hs He Hh.
  assert (Hup : updated_peak a score = updated_peak b score).
  { unfold updated_peak. by rewrite Hi, Hp. }
  destruct (detect_huddle_change score a) as [a1 [[[st en] tr]|ea]] eqn:Ha;
    destruct (detect_huddle_change score b) as [b1 [[[st' en'] tr']|eb]] eqn:Hb;
    cbn [snd] in Hd; try discriminate.
  - injection Hd as <- <- <-. cbn [fst] in Hfa, Hfb.
    assert (Hbl : blocked_start a st = blocked_start b st).
    { unfold blocked_start. by rewrite Hs, Hbase. }
    destruct (blocked_start b st) eqn:Hblb.
    + destruct (handle_transitions_blocked score ra a _ _ _ _ Ha Hbl) as (_ & _ & ->).
      destruct (handle_transitions_blocked score rb b _ _ _ _ Hb Hblb) as (_ & _ & ->).
      unfold agree, core. cbn. by rewrite Hi, Hp, Hs, Hh, Hbase.
    + destruct (handle_transitions_ok score ra a _ _ _ _ Ha Hbl) as (a' & -> & Hha & Hca).
      destruct (handle_transitions_ok score rb b _ _ _ _ Hb Hblb) as (b' & -> & Hhb & Hcb).
      cbn [fst]. rewrite Hs, He, Hup, Hbase in Hca.
      assert (Hhist : score_history a' = score_history b').
      { rewrite Hha, Hhb, Hfa, Hfb. cbn. by rewrite Hh. }
      unfold agree, core. rewrite Hhist.
      destruct st; [|destruct en].
      * destruct Hca as [-> Hca], Hcb as [-> Hcb].
        destruct (2 <=? consecutive_starts b + 1).
        -- destruct Hca as (-> & -> & -> & ->), Hcb as (-> & -> & -> & ->). done.
        -- destruct Hca as (-> & -> & -> & ->), Hcb as (-> & -> & -> & ->).
           by rewrite Hi.
      * destruct Hca as [-> Hca], Hcb as [-> Hcb].
        destruct (2 <=? consecutive_ends b + 1).
        -- destruct Hca as (-> & -> & -> & ->), Hcb as (-> & -> & -> & ->). done.
        -- destruct Hca as (-> & -> & -> & ->), Hcb as (-> & -> & -> & ->).
           by rewrite Hi.
      * destruct Hca as (-> & -> & -> & -> & ->), Hcb as (-> & -> & -> & -> & ->).
        by rewrite Hi.
  - rewrite (handle_transitions_raise _ _ _ _ _ Ha), (handle_transitions_raise _ _ _ _ _ Hb).
    cbn [fst] in *. subst a1 b1. unfold agree, core. cbn.
    by rewrite Hi, Hp, Hs, He, Hh, Hbase.
Qed.

Lemma feed_agree scores a b : agree a b -> agree (feed scores a) (feed scores b).
Proof.
  revert a b. induction scores as [|s rest IH]; intros a b Hab; [exact Hab|].
  unfold feed. cbn [fold_left]. apply IH. by apply handle_transitions_agree.
Qed.

(** X21. Whatever the disk does, and also when the tick raises, a pass of
    the loop in an interval whose probes can be read does to the detector
    exactly what one tick of the state machine on the score of a fresh
    snapshot does: phase, peak, both counters, history and baseline after
    the pass are those after the tick.  In an interval with a probe that
    cannot be read there is no tick: all of these are as before the
    pass. *)
Theorem pass_is_one_tick (m : machine) :
  (readable (envs m (clock m)) = true ->
   exists s rs,
     calculate_score (snapshot (envs m (clock m))) = Ok (s, rs) /\
     core (fst (iteration m)) = core (fst (handle_transitions s rs m)) /\
     baseline_score (fst (iteration m))
     = baseline_score (fst (handle_transitions s rs m))) /\
  (readable (envs m (clock m)) = false ->
   core (fst (iteration m)) = core m /\
   baseline_score (fst (iteration m)) = baseline_score m).
Proof.
  pose proof (iteration_agree m) as H. cbv zeta in H.
  split; intros Hr; rewrite Hr in H.
  - destruct H as (s & rs & Hc & _ & Hk & Hb). by exists s, rs.
  - exact H.
Qed.

Lemma pass_is_one_tick_witness :
  exists s rs,
    calculate_score (snapshot (envs fresh (clock fresh))) = Ok (s, rs) /\
    core (fst (iteration fresh)) = core (fst (handle_transitions s rs fresh)) /\
    baseline_score (fst (iteration fresh))
    = baseline_score (fst (handle_transitions s rs fresh)).
Proof. apply (proj1 (pass_is_one_tick fresh)). reflexivity. Defined.

Lemma loop_feed n m :
  uninterrupted (envs m) (clock m) n ->
  readable_from (envs m) (clock m) n ->
  agree (fst (loop n m)) (feed (sampled (envs m) (clock m) n) m) /\
  clock (fst (loop n m)) = (clock m + n)%nat.
Proof.
  revert m. induction n as [|n IH]; intros m Hun Hrd.
  - cbn. split; [by split|lia].
  - pose proof (iteration_agree m) as Hag. cbv zeta in Hag.
    rewrite (Hrd (clock m) ltac:(lia)) in Hag.
    destruct Hag as (s & rs & Hc & _ & Hag).
    assert (Hgo : snd (iteration m) = Ok true).
    { apply iteration_goes_on. intros k Hk. apply Hun. lia. }
    destruct (iteration_done m Hgo) as (Hw & Hclk & _).
    cbn [loop sampled]. unfold bind.
    destruct (iteration m) as [m1 r]. cbn [fst snd] in *. subst r. cbv beta iota.
    destruct (IH m1) as [Hag1 Hclk1].
    { rewrite Hw, Hclk. intros k Hk. apply Hun. lia. }
    { rewrite Hw, Hclk. intros k Hk. apply Hrd. lia. }
    rewrite Hw, Hclk in Hag1. split; [|rewrite Hclk1, Hclk; lia].
    destruct Hag1 as [Hk1 Hb1].
    assert (Hscore : score_of (envs m (clock m)) = s).
    { unfold score_of. by rewrite Hc. }
    rewrite Hscore.
    pose proof (feed_agree (sampled (envs m) (S (clock m)) n) m1
                  (fst (handle_transitions s [] m))) as Hfeed.
    destruct Hfeed as [Hk2 Hb2].
    { destruct Hag as [Hka Hba].
      destruct (handle_transitions_agree s rs [] m m (conj eq_refl eq_refl)) as [Hkr Hbr].
      split; congruence. }
    assert (Hstep : feed (s :: sampled (envs m) (S (clock m)) n) m
                    = feed (sampled (envs m) (S (clock m)) n)
                        (fst (handle_transitions s [] m))) by reflexivity.
    rewrite Hstep. split; congruence.
Qed.

(** X22. The monitoring loop is the state machine fed with the scores of
    the world: as long as the probes can be read and neither a disk
    operation nor a sleep is interrupted from the keyboard, after [n]
    passes the phase, peak, counters, history and baseline are those the
    state machine reaches on the scores of the [n] snapshots taken, one
    per sampling interval. *)
Theorem loop_is_feed (n : nat) (m : machine) :
  uninterrupted (envs m) (clock m) n ->
  readable_from (envs m) (clock m) n ->
  let m' := fst (loop n m) in
  let scores := sampled (envs m) (clock m) n in
  core m' = core (feed scores m) /\
  baseline_score m' = baseline_score (feed scores m) /\
  clock m' = (clock m + n)%nat.
Proof.
  intros Hun Hrd m' scores. destruct (loop_feed n m Hun Hrd) as [[Hk Hb] Hclk]. done.
Qed.

Lemma loop_is_feed_witness :
  let m := new_detector "user" (fun _ => counting_env 12) in
  let m' := fst (loop 3 m) in
  let scores := sampled (envs m) (clock m) 3 in
  core m' = core (feed scores m) /\
  baseline_score m' = baseline_score (feed scores m) /\
  clock m' = (clock m + 3)%nat.
Proof.
  intros m. apply (loop_is_feed 3 m).
  - intros k _. repeat split; discriminate.
  - intros k _. reflexivity.
Defined.
